(** * kolscam: the trade classifier, the validity filter, the persistence
      statements, the recent-trades feed and the scanners of [server.js] and
      [db.js], embedded as Rocq functions.

    Conventions of the embedding.
    - A JavaScript number is an IEEE-754 binary64 value: Rocq's primitive
      [float].  Unix timestamps and row counts, which the program only
      compares and copies, are integers ([Z], [nat]).
    - A JavaScript string is a [string]; the text is read as ASCII: [\s] is
      the six ASCII white-space characters and the case maps act on the
      letters [a-z]/[A-Z] only.
    - A field of a JSON payload that may be missing is an [option]; [None]
      stands for [undefined]/[null].
    - A plain object used as a dictionary is a finite map ([gmap]) when only
      lookups matter and an association list when [Object.entries] walks it.
      The map holds the entries of the object itself; where the outcome of a
      lookup depends on a key inherited from [Object.prototype] (the wallet
      index read by the webhook receiver, the counters of the feed), the
      lookup is modelled with the inherited keys. *)

From Stdlib Require Import ZArith NArith Lia Bool.
From Stdlib Require Import Floats.PrimFloat Floats.SpecFloat Floats.FloatOps.
From Stdlib Require Import Numbers.DecimalString Numbers.DecimalN.
From Stdlib Require Import Strings.Ascii.
From stdpp Require Import gmap strings list sorting.

Set Warnings "-inexact-float".

(* ================================================================== *)
(** * JavaScript primitives                                            *)
(* ================================================================== *)

Module JS.

(** ** Numbers *)

(** [ToBoolean] on a number: [NaN], [+0] and [-0] are falsy. *)
Definition truthy (x : float) : bool := negb (is_nan x || is_zero x).

(** [x || y] on numbers. *)
Definition or_else (x y : float) : float := if truthy x then x else y.

(** [x > y], [x <= y]; every comparison with [NaN] is [false]. *)
Definition gt (x y : float) : bool := PrimFloat.ltb y x.
Definition le (x y : float) : bool := PrimFloat.leb x y.

(** A missing numeric field used in arithmetic is [undefined], which
    [ToNumber] turns into [NaN]. *)
Definition num (x : option float) : float := default nan x.

(** [x || 0] for a numeric field that may be missing. *)
Definition num_or0 (x : option float) : float := or_else (num x) 0%float.

(** The binary64 value nearest to the rational [n / d] (ties to even). *)
Definition nearest_ratio (n : N) (d : positive) : float :=
  match n with
  | N0 => 0%float
  | Npos p =>
      SF2Prim (SFdiv prec emax (S754_finite false p 0) (S754_finite false d 0))
  end.

(** [Math.pow(10, k)] for a natural exponent [k]. *)
Definition pow10 (k : N) : float := nearest_ratio (10 ^ k) 1.

(** ** Strings *)

Definition truthy_str (s : string) : bool :=
  match s with EmptyString => false | String _ _ => true end.

(** [a || b] on strings. *)
Definition or_else_str (a b : string) : string := if truthy_str a then a else b.

(** [a || b] where [a] may be [undefined]. *)
Definition opt_or_else_str (a : option string) (b : string) : string :=
  match a with Some s => or_else_str s b | None => b end.

Definition is_upper (c : ascii) : bool :=
  let n := nat_of_ascii c in (65 <=? n)%nat && (n <=? 90)%nat.
Definition is_lower (c : ascii) : bool :=
  let n := nat_of_ascii c in (97 <=? n)%nat && (n <=? 122)%nat.
Definition is_digit (c : ascii) : bool :=
  let n := nat_of_ascii c in (48 <=? n)%nat && (n <=? 57)%nat.
Definition is_space (c : ascii) : bool :=
  let n := nat_of_ascii c in ((9 <=? n)%nat && (n <=? 13)%nat) || (n =? 32)%nat.

Definition lower_char (c : ascii) : ascii :=
  if is_upper c then ascii_of_nat (nat_of_ascii c + 32) else c.
Definition upper_char (c : ascii) : ascii :=
  if is_lower c then ascii_of_nat (nat_of_ascii c - 32) else c.

Fixpoint map_chars (f : ascii -> ascii) (s : string) : string :=
  match s with
  | EmptyString => EmptyString
  | String c s' => String (f c) (map_chars f s')
  end.

Definition toLowerCase : string -> string := map_chars lower_char.
Definition toUpperCase : string -> string := map_chars upper_char.

(** [s.startsWith(p)]. *)
Fixpoint startsWith (p s : string) : bool :=
  match p, s with
  | EmptyString, _ => true
  | String a p', String b s' => Ascii.eqb a b && startsWith p' s'
  | String _ _, EmptyString => false
  end.

(** [s.includes(p)]. *)
Fixpoint includes (p s : string) : bool :=
  startsWith p s ||
  match s with
  | EmptyString => false
  | String _ s' => includes p s'
  end.

(** [s.replace(/,/g, '')]. *)
Fixpoint strip_commas (s : string) : string :=
  match s with
  | EmptyString => EmptyString
  | String c s' =>
      if Ascii.eqb c "," then strip_commas s' else String c (strip_commas s')
  end.

Fixpoint take (k : nat) (s : string) : string :=
  match k, s with
  | S k', String c s' => String c (take k' s')
  | _, _ => EmptyString
  end.

Fixpoint drop (k : nat) (s : string) : string :=
  match k, s with
  | S k', String _ s' => drop k' s'
  | _, _ => s
  end.

(** Length of the longest prefix of [s] whose characters all satisfy [cls]. *)
Fixpoint run (cls : ascii -> bool) (s : string) : nat :=
  match s with
  | String c s' => if cls c then S (run cls s') else 0
  | EmptyString => 0
  end.

Fixpoint all_chars (cls : ascii -> bool) (s : string) : bool :=
  match s with
  | EmptyString => true
  | String c s' => cls c && all_chars cls s'
  end.

(** ** parseFloat and toFixed *)

Definition digit_val (c : ascii) : N := N.of_nat (nat_of_ascii c - 48).

(** Value of a string of decimal digits, most significant first. *)
Fixpoint digits_val (acc : N) (s : string) : N :=
  match s with
  | EmptyString => acc
  | String c s' => digits_val (10 * acc + digit_val c) s'
  end.

(** The optional exponent part [e[+-]ddd] of a decimal literal; it counts
    only when at least one digit follows. *)
Definition exponent_part (s : string) : Z :=
  match s with
  | String c s' =>
      if Ascii.eqb (lower_char c) "e" then
        let '(neg, s'') :=
          match s' with
          | String "-" t => (true, t)
          | String "+" t => (false, t)
          | _ => (false, s')
          end in
        let k := run is_digit s'' in
        match k with
        | O => 0%Z
        | S _ =>
            let v := Z.of_N (digits_val 0 (take k s'')) in
            if neg then (- v)%Z else v
        end
      else 0%Z
  | EmptyString => 0%Z
  end.

(** [parseFloat(s)]: leading white space is skipped, then the longest
    prefix that is a decimal literal ([Infinity], or digits with an
    optional fraction and exponent, optionally signed) is converted to the
    nearest binary64 value; [NaN] when there is no such prefix. *)
Definition parseFloat (s : string) : float :=
  let s0 := drop (run is_space s) s in
  let '(neg, s1) :=
    match s0 with
    | String "-" t => (true, t)
    | String "+" t => (false, t)
    | _ => (false, s0)
    end in
  let sign (x : float) : float := if neg : bool then (- x)%float else x in
  if startsWith "Infinity" s1 then sign infinity
  else
    let ki := run is_digit s1 in
    let int_part := take ki s1 in
    let s2 := drop ki s1 in
    let '(frac_part, s3) :=
      match s2 with
      | String "." t => let kf := run is_digit t in (take kf t, drop kf t)
      | _ => (EmptyString, s2)
      end in
    match (ki + String.length frac_part)%nat with
    | O => nan
    | S _ =>
        let m := digits_val (digits_val 0 int_part) frac_part in
        let e := (exponent_part s3 - Z.of_nat (String.length frac_part))%Z in
        sign (match e with
              | Zneg p => nearest_ratio m (10 ^ p)
              | _ => nearest_ratio (m * 10 ^ Z.to_N e) 1
              end)
    end.

Fixpoint zeros (k : nat) : string :=
  match k with O => EmptyString | S k' => String "0" (zeros k') end.

(** The decimal numeral of [n / 10^f] with exactly [f] fraction digits. *)
Definition fixed_numeral (f : nat) (n : N) : string :=
  let ds := NilZero.string_of_uint (N.to_uint n) in
  let ds := zeros (S f - String.length ds) +:+ ds in
  let k := (String.length ds - f)%nat in
  match f with
  | O => ds
  | S _ => take k ds +:+ "." +:+ drop k ds
  end.

(** [x.toFixed(f)] for [|x| < 1e21]: the integer [n] nearest to
    [x * 10^f] (the larger one on a tie) written with [f] fraction digits.
    [None] when [|x| >= 1e21] or [x] is infinite, where JavaScript prints
    [x] with [Number::toString]. *)
Definition toFixed (f : nat) (x : float) : option string :=
  if is_nan x then Some "NaN"
  else if PrimFloat.leb 1e21 (abs x) then None
  else
    let sgn := if PrimFloat.ltb x 0 then "-" else "" in
    match Prim2SF x with
    | S754_finite _ m e =>
        let num := (Z.pos m * 10 ^ Z.of_nat f)%Z in
        let n :=
          match e with
          | Zneg p => ((2 * num + 2 ^ Z.pos p) / 2 ^ (Z.pos p + 1))%Z
          | _ => (num * 2 ^ e)%Z
          end in
        Some (sgn +:+ fixed_numeral f (Z.to_N n))
    | _ => Some (sgn +:+ fixed_numeral f 0)
    end.

(** [parseFloat(x.toFixed(f))].  Beyond [1e21] the printed form is the
    shortest numeral that reads back as [x], so the result is [x]. *)
Definition parseFloat_toFixed (f : nat) (x : float) : float :=
  match toFixed f x with
  | Some s => parseFloat s
  | None => x
  end.


(** ** Plain objects *)

(** The property names every object inherits from [Object.prototype]: on
    an object literal [{}] a lookup with one of them finds a function (for
    "__proto__", the prototype itself) instead of [undefined]. *)
Definition Object_prototype_keys : list string :=
  ["constructor"; "__defineGetter__"; "__defineSetter__"; "hasOwnProperty";
   "__lookupGetter__"; "__lookupSetter__"; "isPrototypeOf";
   "propertyIsEnumerable"; "toString"; "valueOf"; "__proto__"; "toLocaleString"].

Definition inherited (key : string) : bool :=
  bool_decide (key ∈ Object_prototype_keys).

End JS.

(* ================================================================== *)
(** * Regular expressions of the classifier                            *)
(* ================================================================== *)

(** The two patterns of [parseTransaction] are sequences of literal
    characters (matched ignoring case, flag [i]) and of greedy
    one-or-more repetitions of a character class, some of them capture
    groups.  [match_here] is the backtracking matcher of such a sequence:
    a repetition first takes the longest run and gives characters back one
    at a time until the rest of the pattern matches. *)
Module Regex.

Inductive item :=
| Lit (c : ascii)
| Plus (cls : ascii -> bool) (capture : bool).

Fixpoint lits (s : string) : list item :=
  match s with
  | EmptyString => []
  | String c s' => Lit c :: lits s'
  end.

Definition eqb_nocase (a b : ascii) : bool :=
  Ascii.eqb (JS.upper_char a) (JS.upper_char b).

(** A repetition whose longest run has [k] characters: try [k], then
    [k - 1], ... down to one character, each time with [rest] on what
    follows. *)
Fixpoint give_back (rest : string -> option (list string)) (capture : bool)
    (s : string) (k : nat) : option (list string) :=
  match k with
  | O => None
  | S k' =>
      match rest (JS.drop k s) with
      | Some groups => Some (if capture then JS.take k s :: groups else groups)
      | None => give_back rest capture s k'
      end
  end.

Fixpoint match_here (p : list item) (s : string) : option (list string) :=
  match p with
  | [] => Some []
  | Lit c :: p' =>
      match s with
      | String a s' => if eqb_nocase c a then match_here p' s' else None
      | EmptyString => None
      end
  | Plus cls capture :: p' => give_back (match_here p') capture s (JS.run cls s)
  end.

(** [s.match(p)] without the [g] flag: the leftmost match, as the list of
    its capture groups. *)
Fixpoint search (p : list item) (s : string) : option (list string) :=
  match match_here p s with
  | Some groups => Some groups
  | None =>
      match s with
      | EmptyString => None
      | String _ s' => search p s'
      end
  end.

Definition space : ascii -> bool := JS.is_space.
Definition non_space (c : ascii) : bool := negb (JS.is_space c).
(** The class [[\d,.]]. *)
Definition amount_char (c : ascii) : bool :=
  JS.is_digit c || Ascii.eqb c "," || Ascii.eqb c ".".
(** The class [[a-f0-9]] under flag [i]. *)
Definition hex_char (c : ascii) : bool :=
  let n := nat_of_ascii (JS.lower_char c) in
  JS.is_digit c || ((97 <=? n)%nat && (n <=? 102)%nat).

(** [/swapped\s+([\d,.]+)\s+(\S+)\s+for\s+([\d,.]+)\s+(\S+)/i];
    [amounts] tells whether the two amounts are capture groups (they are
    in Strategy 1 and are not in [symbolFromDescription]). *)
Definition swapped_for (amounts : bool) : list item :=
  lits "swapped" ++
  [Plus space false; Plus amount_char amounts; Plus space false;
   Plus non_space true; Plus space false] ++
  lits "for" ++
  [Plus space false; Plus amount_char amounts; Plus space false;
   Plus non_space true].

(** [/^[a-f0-9]{6,}$/i.test(s)]. *)
Definition looks_like_hex (s : string) : bool :=
  JS.all_chars hex_char s && (6 <=? String.length s)%nat.

End Regex.

(* ================================================================== *)
(** * Persistence: the tables and prepared statements of [db.js]       *)
(* ================================================================== *)

Module Db.

(** A row of [token_cache]; the primary key [mint] is the key of the map
    that holds the table. *)
Record TokenCacheRow := {
  tc_name : string;
  tc_symbol : string;
  tc_image : string;
  tc_mcap : float;
  tc_price_usd : float;
  tc_price_change_24h : float;
  tc_cached_at : Z
}.

(** A row of [kol_trades]. *)
Record TradeRow := {
  id : nat;
  wallet : string;
  kol_name : string;
  kol_avatar : string;
  action : string;
  token_symbol : string;
  amount_sol : float;
  signature : string;
  tx_timestamp : Z;
  token_mint : string;
  token_amount : float;
  scanned_at : Z
}.

(** The database: the two tables and the AUTOINCREMENT counter of
    [kol_trades]; rows of [kol_trades] are kept in insertion order. *)
Record Database := {
  token_cache : gmap string TokenCacheRow;
  kol_trades : list TradeRow;
  kol_trades_seq : nat
}.

Definition empty : Database :=
  {| token_cache := ∅; kol_trades := []; kol_trades_seq := 0 |}.

(** What [statement.run] gives back: the number of changed rows and the
    new database, or the exception of a violated constraint. *)
Inductive RunResult :=
| Info (changes : nat) (db : Database)
| SqliteConstraintError.

(** The conflict clause of an INSERT: the default (ABORT) or OR IGNORE. *)
Inductive ConflictClause := OrAbort | OrIgnore.

(** [SELECT * FROM token_cache WHERE mint = ?]. *)
Definition getCachedToken (db : Database) (mint : string) : option TokenCacheRow :=
  token_cache db !! mint.

(** [INSERT OR REPLACE INTO token_cache (mint, name, symbol, image,
    cached_at)]: the row is replaced as a whole, so the market columns fall
    back to their default 0. *)
Definition upsertTokenCache (now : Z) (mint name symbol image : string)
    (db : Database) : Database :=
  {| token_cache :=
       <[mint := {| tc_name := name; tc_symbol := symbol; tc_image := image;
                    tc_mcap := 0; tc_price_usd := 0; tc_price_change_24h := 0;
                    tc_cached_at := now |}]> (token_cache db);
     kol_trades := kol_trades db;
     kol_trades_seq := kol_trades_seq db |}.

(** [CASE WHEN excluded.x != '' THEN excluded.x ELSE token_cache.x END]. *)
Definition keep_if_empty (excluded existing : string) : string :=
  if String.eqb excluded "" then existing else excluded.

(** [INSERT INTO token_cache (...) VALUES (...) ON CONFLICT(mint) DO UPDATE
    SET ...]. *)
Definition upsertTokenMarketData (now : Z) (mint name symbol image : string)
    (mcap price_usd price_change_24h : float) (db : Database) : Database :=
  let row :=
    match token_cache db !! mint with
    | None =>
        {| tc_name := name; tc_symbol := symbol; tc_image := image;
           tc_mcap := mcap; tc_price_usd := price_usd;
           tc_price_change_24h := price_change_24h; tc_cached_at := now |}
    | Some old =>
        {| tc_name := keep_if_empty name (tc_name old);
           tc_symbol := keep_if_empty symbol (tc_symbol old);
           tc_image := keep_if_empty image (tc_image old);
           tc_mcap := mcap; tc_price_usd := price_usd;
           tc_price_change_24h := price_change_24h; tc_cached_at := now |}
    end in
  {| token_cache := <[mint := row]> (token_cache db);
     kol_trades := kol_trades db;
     kol_trades_seq := kol_trades_seq db |}.

(** The UNIQUE constraint on [kol_trades.signature]: is there a stored row
    with this signature? *)
Definition signature_taken (sig : string) (rows : list TradeRow) : bool :=
  existsb (fun r => String.eqb (signature r) sig) rows.

(** [INSERT <clause> INTO kol_trades (wallet, kol_name, kol_avatar, action,
    token_symbol, amount_sol, signature, tx_timestamp, token_mint,
    token_amount) VALUES (?, ?, ?, ?, ?, ?, ?, ?, ?, ?)]. *)
Definition insert_kol_trades (clause : ConflictClause) (now : Z)
    (wallet kol_name kol_avatar action token_symbol : string)
    (amount_sol : float) (signature : string) (tx_timestamp : Z)
    (token_mint : string) (token_amount : float) (db : Database) : RunResult :=
  if signature_taken signature (kol_trades db) then
    match clause with
    | OrIgnore => Info 0 db
    | OrAbort => SqliteConstraintError
    end
  else
    let rowid := S (kol_trades_seq db) in
    Info 1
      {| token_cache := token_cache db;
         kol_trades :=
           kol_trades db ++
           [{| id := rowid; wallet := wallet; kol_name := kol_name;
               kol_avatar := kol_avatar; action := action;
               token_symbol := token_symbol; amount_sol := amount_sol;
               signature := signature; tx_timestamp := tx_timestamp;
               token_mint := token_mint; token_amount := token_amount;
               scanned_at := now |}];
         kol_trades_seq := rowid |}.

(** The prepared statement [insertTrade]: INSERT OR IGNORE. *)
Definition insertTrade : Z -> string -> string -> string -> string -> string ->
    float -> string -> Z -> string -> float -> Database -> RunResult :=
  insert_kol_trades OrIgnore.

(** How many stored trades carry the signature [sig]. *)
Definition count_signature (sig : string) (db : Database) : nat :=
  length (filter (fun r => signature r = sig) (kol_trades db)).

(** The invariant of the UNIQUE constraint: no two stored trades share a
    signature. *)
Definition unique_signatures (db : Database) : Prop :=
  NoDup (signature <$> kol_trades db).

(** ** The raw recent-trades query *)

(** A row of [getRecentTradesRaw]: the trade with the two columns of the
    LEFT JOIN on [token_cache], NULL when the mint is not cached. *)
Record RecentTrade := {
  trade : TradeRow;
  token_image : option string;
  token_price : option float
}.

Definition sql_in (x : string) (l : list string) : bool :=
  existsb (String.eqb x) l.

Definition raw_excluded_symbols : list string :=
  ["SOL"; "WSOL"; "USDC"; "USDT"; "USDS"; "mSOL"; "jitoSOL"; "bSOL"; "stSOL";
   "JitoSOL"; "WETH"; "WBTC"; "RAY"; "JLP"; "JTO"; "PYTH"; "JUP"].

Definition raw_excluded_mints : list string :=
  ["So11111111111111111111111111111111111111112";
   "EPjFWdd5AufqSSqeM2qN1xzybapC8G4wEGGkZwyTDt1v";
   "Es9vMFrzaCERmJfrF4H2FYD4KCoNkY11McCe8BenwNYB"].

(** The WHERE clause of [getRecentTradesRaw]. *)
Definition raw_where (r : TradeRow) : bool :=
  sql_in (action r) ["Buy"; "Sell"]
  && negb (sql_in (token_symbol r) raw_excluded_symbols)
  && negb (sql_in (token_mint r) raw_excluded_mints).

(** [ORDER BY tx_timestamp DESC].  SQL leaves the order of rows with equal
    timestamps open; here they keep their insertion order. *)
Fixpoint insert_desc (r : TradeRow) (l : list TradeRow) : list TradeRow :=
  match l with
  | [] => [r]
  | x :: l' =>
      if (tx_timestamp x <=? tx_timestamp r)%Z then r :: l
      else x :: insert_desc r l'
  end.

Definition order_by_timestamp_desc (l : list TradeRow) : list TradeRow :=
  foldr insert_desc [] l.

(** [LIMIT n]; a negative [n] means no limit. *)
Definition sql_limit {A} (n : Z) (l : list A) : list A :=
  if (n <? 0)%Z then l else take (Z.to_nat n) l.

Definition join_token_cache (db : Database) (r : TradeRow) : RecentTrade :=
  {| trade := r;
     token_image := tc_image <$> token_cache db !! token_mint r;
     token_price := tc_price_usd <$> token_cache db !! token_mint r |}.

(** [getRecentTradesRaw.all(n)]. *)
Definition getRecentTradesRaw (n : Z) (db : Database) : list RecentTrade :=
  join_token_cache db <$>
    sql_limit n (order_by_timestamp_desc (filter (fun r => raw_where r = true) (kol_trades db))).

End Db.

(* ================================================================== *)
(** * The transaction parser and the validity filter ([server.js])     *)
(* ================================================================== *)

Module Classifier.

(** ** The enhanced-transaction payload *)

Record TokenTransfer := {
  tt_mint : option string;
  tt_tokenAmount : option float;
  tt_fromUserAccount : option string;
  tt_toUserAccount : option string
}.

Record NativeTransfer := {
  nt_fromUserAccount : option string;
  nt_toUserAccount : option string;
  nt_amount : option float
}.

Record RawTokenAmount := {
  raw_tokenAmount : option float;
  raw_decimals : option N
}.

(** An element of [swap.tokenInputs] / [swap.tokenOutputs]. *)
Record SwapToken := {
  st_mint : option string;
  st_rawTokenAmount : option RawTokenAmount;
  st_tokenAmount : option float
}.

(** [swap.nativeInput] / [swap.nativeOutput]. *)
Record NativeLeg := { leg_amount : option float }.

Record SwapEvent := {
  nativeInput : option NativeLeg;
  nativeOutput : option NativeLeg;
  tokenInputs : option (list SwapToken);
  tokenOutputs : option (list SwapToken)
}.

Record Events := { swap : option SwapEvent }.

Record Tx := {
  tx_signature : option string;
  tx_timestamp : option Z;
  tx_type : option string;
  tx_description : option string;
  tx_tokenTransfers : option (list TokenTransfer);
  tx_nativeTransfers : option (list NativeTransfer);
  tx_events : option Events
}.

(** A value of the metadata map built by [batchGetTokenMetadata]. *)
Record TokenMeta := {
  meta_name : string;
  meta_symbol : string;
  meta_image : string
}.

(** [tokenMetadataMap]: mint to metadata or [null], in insertion order. *)
Definition MetadataMap := list (string * option TokenMeta).

(** The object built and returned by [parseTransaction]. *)
Record Trade := {
  signature : option string;
  timestamp : option Z;
  kolName : string;
  kolAvatar : string;
  action : option string;
  tokenSymbol : option string;
  tokenMint : string;
  tokenAmount : float;
  amountSol : float
}.

Definition SOL_MINT : string := "So11111111111111111111111111111111111111112".

Definition NON_TRADE_TYPES : gset string :=
  list_to_set
    ["TRANSFER"; "BURN"; "BURN_NFT"; "COMPRESSED_NFT_MINT";
     "COMPRESSED_NFT_TRANSFER"; "COMPRESSED_NFT_BURN";
     "NFT_MINT"; "NFT_SALE"; "NFT_LISTING"; "NFT_CANCEL_LISTING";
     "STAKE"; "UNSTAKE"; "INIT_BANK"; "SET_BANK_FLAGS";
     "CLOSE_POSITION"; "WITHDRAW"; "DEPOSIT"].

(** ** Helpers of [parseTransaction] *)

(** [tokenMetadataMap?.[mint]]. *)
Definition meta_lookup (m : option MetadataMap) (mint : string) : option TokenMeta :=
  match m with
  | None => None
  | Some entries =>
      match List.find (fun e => String.eqb (fst e) mint) entries with
      | Some (_, v) => v
      | None => None
      end
  end.

(** [a || b] where both sides are a symbol or [null]. *)
Definition symbol_or (a b : option string) : option string :=
  match a with
  | Some s => if JS.truthy_str s then Some s else b
  | None => b
  end.

(** Truthiness of a value that is a string or [null]. *)
Definition truthy_opt (a : option string) : bool :=
  match a with Some s => JS.truthy_str s | None => false end.

(** [x === walletAddress] for an account field that may be missing. *)
Definition is_wallet (walletAddress : string) (x : option string) : bool :=
  match x with Some a => String.eqb a walletAddress | None => false end.

(** [transfer.mint && transfer.mint !== SOL_MINT]. *)
Definition non_sol_mint (m : option string) : bool :=
  match m with
  | Some s => JS.truthy_str s && negb (String.eqb s SOL_MINT)
  | None => false
  end.

(** The first transfer of a non-SOL mint: [(primaryMint,
    primaryTokenAmount)], [('', 0)] when there is none. *)
Definition primary (tx : Tx) : string * float :=
  match tx_tokenTransfers tx with
  | Some transfers =>
      match List.find (fun t => non_sol_mint (tt_mint t)) transfers with
      | Some t => (default "" (tt_mint t), abs (JS.num_or0 (tt_tokenAmount t)))
      | None => ("", 0%float)
      end
  | None => ("", 0%float)
  end.

(** The closure [resolveSymbol(mint)]. *)
Definition resolveSymbol (tokenMetadataMap : option MetadataMap)
    (db : Db.Database) (mint : string) : option string :=
  if negb (JS.truthy_str mint) || String.eqb mint SOL_MINT then None
  else
    let from_cache :=
      match Db.getCachedToken db mint with
      | Some cached =>
          if JS.truthy_str (Db.tc_symbol cached)
          then Some (Db.tc_symbol cached) else None
      | None => None
      end in
    match meta_lookup tokenMetadataMap mint with
    | Some meta =>
        if JS.truthy_str (meta_symbol meta)
           && (String.length (meta_symbol meta) <=? 15)%nat
        then Some (meta_symbol meta)
        else from_cache
    | None => from_cache
    end.

(** The closure [symbolFromDescription()]. *)
Definition symbolFromDescription (tx : Tx) : option string :=
  match tx_description tx with
  | Some d =>
      if JS.truthy_str d then
        match Regex.search (Regex.swapped_for false) d with
        | Some [tok1; tok2] =>
            if String.eqb (JS.toUpperCase tok1) "SOL" then Some tok2 else Some tok1
        | _ => None
        end
      else None
  | None => None
  end.

(** The pre-filter on the description. *)
Definition plain_transfer_description (description : string) : bool :=
  let d := JS.toLowerCase description in
  (JS.includes " transferred " d && negb (JS.includes "swap" d))
  || JS.startsWith "burned " d || JS.startsWith "close " d
  || JS.startsWith "staked " d.

(** The two early returns at the top of [parseTransaction]. *)
Definition prefiltered (tx : Tx) : bool :=
  match tx_type tx with
  | Some ty => JS.truthy_str ty && bool_decide (ty ∈ NON_TRADE_TYPES)
  | None => false
  end
  || match tx_description tx with
     | Some d => JS.truthy_str d && plain_transfer_description d
     | None => false
     end.

(** [swap.tokenInputs?.find(t => t.mint !== SOL_MINT)]. *)
Definition find_token_leg (legs : option (list SwapToken)) : option SwapToken :=
  match legs with
  | Some l =>
      List.find (fun t => match st_mint t with
                          | Some m => negb (String.eqb m SOL_MINT)
                          | None => true
                          end) l
  | None => None
  end.

(** [nativeIn && nativeIn.amount > 0]. *)
Definition positive_leg (leg : option NativeLeg) : bool :=
  match leg with
  | Some l => JS.gt (JS.num (leg_amount l)) 0
  | None => false
  end.

(** [Math.abs(t.rawTokenAmount?.tokenAmount
      ? t.rawTokenAmount.tokenAmount / Math.pow(10, t.rawTokenAmount.decimals || 0)
      : t.tokenAmount || primaryTokenAmount)]. *)
Definition leg_token_amount (t : SwapToken) (primaryTokenAmount : float) : float :=
  let fallback :=
    match st_tokenAmount t with
    | Some a => JS.or_else a primaryTokenAmount
    | None => primaryTokenAmount
    end in
  abs (match st_rawTokenAmount t with
       | Some raw =>
           match raw_tokenAmount raw with
           | Some a =>
               if JS.truthy a
               then (a / JS.pow10 (default 0%N (raw_decimals raw)))%float
               else fallback
           | None => fallback
           end
       | None => fallback
       end).

(** [parseFloat((lamports / 1e9).toFixed(4))]. *)
Definition lamports_to_sol (lamports : float) : float :=
  JS.parseFloat_toFixed 4 (lamports / 1e9)%float.

(** Assignment of the five fields the strategies write. *)
Definition assign (r : Trade) (act : option string) (sym : option string)
    (mint : string) (tamount sol : float) : Trade :=
  {| signature := signature r; timestamp := timestamp r;
     kolName := kolName r; kolAvatar := kolAvatar r;
     action := act; tokenSymbol := sym; tokenMint := mint;
     tokenAmount := tamount; amountSol := sol |}.

(** [result.action && result.amountSol > 0 && result.tokenSymbol]. *)
Definition conclusive (r : Trade) : bool :=
  truthy_opt (action r) && JS.gt (amountSol r) 0 && truthy_opt (tokenSymbol r).

(** The actions the parser ever writes. *)
Definition unset_or_trade (act : option string) : Prop :=
  act = None \/ act = Some "Buy" \/ act = Some "Sell".

(** ** The three strategies *)

Section Strategies.

Variables (db : Db.Database) (tx : Tx) (walletAddress : string)
          (tokenMetadataMap : option MetadataMap).

Let primaryMint : string := fst (primary tx).
Let primaryTokenAmount : float := snd (primary tx).

(** The symbol both Strategy 0 and Strategy 2 look up. *)
Definition symbol_of (mint : string) : option string :=
  symbol_or (resolveSymbol tokenMetadataMap db mint) (symbolFromDescription tx).

(** The assignments of Strategy 0 for a swap event [sw]. *)
Definition strategy0 (sw : SwapEvent) (result : Trade) : Trade :=
  let tokenIn := find_token_leg (tokenInputs sw) in
  let tokenOut := find_token_leg (tokenOutputs sw) in
  match positive_leg (nativeInput sw), nativeInput sw, tokenOut with
  | true, Some nativeIn, Some tokenOut =>
      let mint := JS.opt_or_else_str (st_mint tokenOut) primaryMint in
      assign result (Some "Buy") (symbol_of mint) mint
        (leg_token_amount tokenOut primaryTokenAmount)
        (lamports_to_sol (JS.num (leg_amount nativeIn)))
  | _, _, _ =>
      match positive_leg (nativeOutput sw), nativeOutput sw, tokenIn with
      | true, Some nativeOut, Some tokenIn =>
          let mint := JS.opt_or_else_str (st_mint tokenIn) primaryMint in
          assign result (Some "Sell") (symbol_of mint) mint
            (leg_token_amount tokenIn primaryTokenAmount)
            (lamports_to_sol (JS.num (leg_amount nativeOut)))
      | _, _, _ => result
      end
  end.

(** The mint Strategy 1 records: [primaryMint], else the first entry of
    the metadata map whose symbol is the parsed one. *)
Definition strategy1_mint (sym : string) : string :=
  if JS.truthy_str primaryMint then primaryMint
  else
    match tokenMetadataMap with
    | Some entries =>
        match List.find (fun e => match snd e with
                                  | Some meta => String.eqb (meta_symbol meta) sym
                                  | None => false
                                  end) entries with
        | Some (mint, _) => mint
        | None => primaryMint
        end
    | None => primaryMint
    end.

(** Strategy 1.  [None]: the description does not match; [Some None]:
    a token-to-token swap, [parseTransaction] returns [null];
    [Some (Some r)]: it returns [r]. *)
Definition strategy1 (result : Trade) : option (option Trade) :=
  match tx_description tx ≫= Regex.search (Regex.swapped_for true) with
  | Some [amt1; tok1; amt2; tok2] =>
      if String.eqb (JS.toUpperCase tok1) "SOL" then
        Some (Some (assign result (Some "Buy") (Some tok2) (strategy1_mint tok2)
                      (JS.or_else (JS.parseFloat (JS.strip_commas amt2))
                                  primaryTokenAmount)
                      (JS.parseFloat (JS.strip_commas amt1))))
      else if String.eqb (JS.toUpperCase tok2) "SOL" then
        Some (Some (assign result (Some "Sell") (Some tok1) (strategy1_mint tok1)
                      (JS.or_else (JS.parseFloat (JS.strip_commas amt1))
                                  primaryTokenAmount)
                      (JS.parseFloat (JS.strip_commas amt2))))
      else Some None
  | _ => None
  end.

(** [solOut] and [solIn] of Strategy 2, in lamports. *)
Definition sol_flow (l : list NativeTransfer) : float * float :=
  fold_left
    (fun '(solOut, solIn) nt =>
       let solOut := if is_wallet walletAddress (nt_fromUserAccount nt)
                     then (solOut + JS.num_or0 (nt_amount nt))%float else solOut in
       let solIn := if is_wallet walletAddress (nt_toUserAccount nt)
                    then (solIn + JS.num_or0 (nt_amount nt))%float else solIn in
       (solOut, solIn))
    l (0%float, 0%float).

(** [!info || amt > info.amount]. *)
Definition larger (amt : float) (info : option (string * float)) : bool :=
  match info with
  | None => true
  | Some (_, a) => JS.gt amt a
  end.

(** [tokenInInfo] and [tokenOutInfo] of Strategy 2: the largest token
    transfer into and out of the wallet, as [(mint, amount)]. *)
Definition token_flow (l : list TokenTransfer)
    : option (string * float) * option (string * float) :=
  fold_left
    (fun '(tokenInInfo, tokenOutInfo) tt =>
       if negb (non_sol_mint (tt_mint tt)) then (tokenInInfo, tokenOutInfo)
       else
         let mint := default "" (tt_mint tt) in
         let amt := abs (JS.num_or0 (tt_tokenAmount tt)) in
         if PrimFloat.eqb amt 0 then (tokenInInfo, tokenOutInfo)
         else
           let tokenInInfo :=
             if is_wallet walletAddress (tt_toUserAccount tt)
                && larger amt tokenInInfo
             then Some (mint, amt) else tokenInInfo in
           let tokenOutInfo :=
             if is_wallet walletAddress (tt_fromUserAccount tt)
                && larger amt tokenOutInfo
             then Some (mint, amt) else tokenOutInfo in
           (tokenInInfo, tokenOutInfo))
    l (None, None).

(** Strategy 2, entered with the [result] Strategy 0 may have written. *)
Definition strategy2 (result : Trade) : option Trade :=
  match tx_nativeTransfers tx, tx_tokenTransfers tx with
  | Some natives, Some ((_ :: _) as tokens) =>
      let '(solOut, solIn) := sol_flow natives in
      let '(tokenInInfo, tokenOutInfo) := token_flow tokens in
      let netSolSpent := ((solOut - solIn) / 1e9)%float in
      let netSolGained := ((solIn - solOut) / 1e9)%float in
      let result :=
        match JS.gt netSolSpent 0.001, tokenInInfo, tokenOutInfo with
        | true, Some (mint, amount), None =>
            assign result (Some "Buy") (tokenSymbol result) mint amount
              (JS.parseFloat_toFixed 4 netSolSpent)
        | _, _, _ =>
            match JS.gt netSolGained 0.001, tokenOutInfo, tokenInInfo with
            | true, Some (mint, amount), None =>
                assign result (Some "Sell") (tokenSymbol result) mint amount
                  (JS.parseFloat_toFixed 4 netSolGained)
            | _, _, _ => result
            end
        end in
      if truthy_opt (action result) && JS.gt (amountSol result) 0 then
        let result :=
          assign result (action result) (symbol_of (tokenMint result))
            (tokenMint result) (tokenAmount result) (amountSol result) in
        if truthy_opt (tokenSymbol result) then Some result else None
      else None
  | _, _ => None
  end.

End Strategies.

(** ** [parseTransaction] *)

Definition parseTransaction (db : Db.Database) (tx : Tx)
    (kolName kolAvatar walletAddress : string)
    (tokenMetadataMap : option MetadataMap) : option Trade :=
  let result :=
    {| signature := tx_signature tx; timestamp := tx_timestamp tx;
       kolName := JS.or_else_str kolName "Unknown";
       kolAvatar := JS.or_else_str kolAvatar "/logo.png";
       action := None; tokenSymbol := None; tokenMint := "";
       tokenAmount := 0; amountSol := 0 |} in
  if prefiltered tx then None
  else
    let after0 :=
      match tx_events tx ≫= swap with
      | Some sw => strategy0 db tx tokenMetadataMap sw result
      | None => result
      end in
    if bool_decide (is_Some (tx_events tx ≫= swap)) && conclusive after0
    then Some after0
    else
      match strategy1 tx tokenMetadataMap after0 with
      | Some returned => returned
      | None => strategy2 db tx walletAddress tokenMetadataMap after0
      end.

(** ** The validity filter *)

Definition SKIP_TOKENS : gset string :=
  list_to_set
    ["SOL"; "WSOL"; "USDC"; "USDT"; "USDS"; "USD1"; "EURC"; "DAI"; "FRAX";
     "TUSD"; "BUSD"; "USDH"; "UXD";
     "mSOL"; "jitoSOL"; "bSOL"; "stSOL"; "JitoSOL"; "INF"; "hSOL"; "vSOL";
     "jupSOL"; "LST";
     "WETH"; "WBTC"; "RAY"; "JLP"; "JTO"; "PYTH"; "JUP"; "ORCA"; "MNDE"; "STEP";
     "BONK"].

Definition SKIP_MINTS : gset string :=
  list_to_set
    ["So11111111111111111111111111111111111111112";
     "EPjFWdd5AufqSSqeM2qN1xzybapC8G4wEGGkZwyTDt1v";
     "Es9vMFrzaCERmJfrF4H2FYD4KCoNkY11McCe8BenwNYB";
     "BJUH9GJLaMSLV1E7B3SQLCy9eCfyr6zsrm3WYMFQmpuN"].

(** [isValidTrade(trade)]; [None] is a [null] trade. *)
Definition isValidTrade (trade : option Trade) : bool :=
  match trade with
  | None => false
  | Some trade =>
      match action trade with
      | None => false
      | Some act =>
          if negb (String.eqb act "Buy" || String.eqb act "Sell") then false
          else
            match tokenSymbol trade with
            | None => false
            | Some sym =>
                if negb (JS.truthy_str sym) || (15 <? String.length sym)%nat then false
                else if Regex.looks_like_hex sym then false
                else if JS.le (amountSol trade) 0 then false
                else if bool_decide (sym ∈ SKIP_TOKENS) then false
                else if JS.truthy_str (tokenMint trade)
                        && bool_decide (tokenMint trade ∈ SKIP_MINTS) then false
                else true
            end
      end
  end.

End Classifier.

(* ================================================================== *)
(** * Ingestion: metadata batches, persisting, paginated fetch         *)
(* ================================================================== *)

Module Ingest.

Import Classifier.

(** [results[mint] = value] on the object [results]: an existing key keeps
    its place, a new key goes last. *)
Fixpoint obj_set (mint : string) (v : option TokenMeta) (results : MetadataMap)
    : MetadataMap :=
  match results with
  | [] => [(mint, v)]
  | (k, w) :: rest =>
      if String.eqb k mint then (k, v) :: rest else (k, w) :: obj_set mint v rest
  end.

(** One turn of the loop that ends [batchGetTokenMetadata]: the entry of
    [mint] is written from the token cache, the wrapped-SOL mint gets its
    fixed entry. *)
Definition metadata_step (db : Db.Database) (results : MetadataMap)
    (mint : string) : MetadataMap :=
  if String.eqb mint SOL_MINT then
    obj_set mint (Some {| meta_name := "Wrapped SOL"; meta_symbol := "SOL";
                          meta_image := "" |}) results
  else
    obj_set mint
      (match Db.getCachedToken db mint with
       | Some cached =>
           Some {| meta_name := Db.tc_name cached;
                   meta_symbol := Db.tc_symbol cached;
                   meta_image := Db.tc_image cached |}
       | None => None
       end) results.

(** The second half of [batchGetTokenMetadata]: the map handed to
    [parseTransaction], read from the token cache. *)
Definition metadata_results (db : Db.Database) (mints : list string) : MetadataMap :=
  fold_left (metadata_step db) mints [].

(** The call [insertTrade.run(wallet, trade.kolName, trade.kolAvatar || '',
    trade.action, trade.tokenSymbol, trade.amountSol, trade.signature,
    trade.timestamp || 0, trade.tokenMint || '', trade.tokenAmount || 0)]
    shared by the three ingestion paths. *)
Definition storeTrade (now : Z) (wallet sig : string) (trade : Trade)
    (db : Db.Database) : Db.RunResult :=
  Db.insertTrade now wallet (kolName trade) (JS.or_else_str (kolAvatar trade) "")
    (default "" (action trade)) (default "" (tokenSymbol trade))
    (amountSol trade) sig (default 0%Z (timestamp trade))
    (JS.or_else_str (tokenMint trade) "") (JS.or_else (tokenAmount trade) 0) db.

(** The loop of [scanSingleWallet] and [scanSingleWalletDeep] over the
    fetched transactions: the database and the [saved] counter. *)
Definition saveTrades (now : Z) (wallet kolName kolAvatar : string)
    (tokenMeta : option MetadataMap) (txs : list Tx) (db : Db.Database)
    : Db.Database * nat :=
  fold_left
    (fun '(db, saved) tx =>
       let trade := parseTransaction db tx kolName kolAvatar wallet tokenMeta in
       match trade, isValidTrade trade with
       | Some t, true =>
           match signature t with
           | Some sig =>
               if JS.truthy_str sig then
                 match storeTrade now wallet sig t db with
                 | Db.Info _ db' => (db', S saved)
                 | Db.SqliteConstraintError => (db, saved)
                 end
               else (db, saved)
           | None => (db, saved)
           end
       | _, _ => (db, saved)
       end)
    txs (db, 0).

(** ** [fetchPaginatedTransactions] *)

(** What one request to the transaction source can do: [fetch] rejects,
    the status is not 2xx, [res.json()] rejects, or a body arrives (an
    array, or [null]). *)
Inductive Response :=
| FetchRejects
| NotOk
| JsonRejects
| Json (txs : option (list Tx)).

Section Pagination.

(** The transaction source: the wallet, the [before] cursor and the
    number of the request give the response. *)
Variable fetch : string -> option string -> nat -> Response.
Variables (HELIUS_ENABLED : bool) (HELIUS_API_KEY : string).

(** [tx.timestamp && tx.timestamp < sinceTimestamp]. *)
Definition older_than (sinceTimestamp : Z) (tx : Tx) : bool :=
  match tx_timestamp tx with
  | Some t => negb (t =? 0)%Z && (t <? sinceTimestamp)%Z
  | None => false
  end.

(** The inner loop over one page: the transactions pushed and
    [reachedCutoff]. *)
Fixpoint until_cutoff (sinceTimestamp : Z) (txs : list Tx) : list Tx * bool :=
  match txs with
  | [] => ([], false)
  | tx :: rest =>
      if older_than sinceTimestamp tx then ([], true)
      else
        let '(pushed, reachedCutoff) := until_cutoff sinceTimestamp rest in
        (tx :: pushed, reachedCutoff)
  end.

(** The [before] parameter of the request: [if (beforeSig) url += ...]. *)
Definition cursor (beforeSig : option string) : option string :=
  match beforeSig with
  | Some sig => if JS.truthy_str sig then Some sig else None
  | None => None
  end.

(** The [for] loop: [pages] iterations are left, [page] requests were
    made; the state is [beforeSig], [allTxs] and the credit estimate. *)
Fixpoint paginate (walletAddress : string) (sinceTimestamp : Z)
    (pages page : nat) (beforeSig : option string) (allTxs : list Tx)
    (heliusCreditEstimate : nat) : list Tx * nat :=
  match pages with
  | O => (allTxs, heliusCreditEstimate)
  | S pages' =>
      match fetch walletAddress (cursor beforeSig) page with
      | FetchRejects => (allTxs, heliusCreditEstimate)
      | NotOk | JsonRejects | Json None => (allTxs, heliusCreditEstimate + 100)
      | Json (Some []) => (allTxs, heliusCreditEstimate + 100)
      | Json (Some txs) =>
          let '(pushed, reachedCutoff) := until_cutoff sinceTimestamp txs in
          if reachedCutoff || (length txs <? 100) then
            (allTxs ++ pushed, heliusCreditEstimate + 100)
          else
            paginate walletAddress sinceTimestamp pages' (S page)
              (last txs ≫= tx_signature) (allTxs ++ pushed)
              (heliusCreditEstimate + 100)
      end
  end.

Definition fetchPaginatedTransactions (walletAddress : string)
    (sinceTimestamp : Z) (maxPages : nat) (heliusCreditEstimate : nat)
    : list Tx * nat :=
  if negb HELIUS_ENABLED || negb (JS.truthy_str HELIUS_API_KEY)
  then ([], heliusCreditEstimate)
  else paginate walletAddress sinceTimestamp maxPages 0 None []
         heliusCreditEstimate.

End Pagination.

End Ingest.

(* ================================================================== *)
(** * The recent-trades feed: [GET /api/trades/feed]                   *)
(* ================================================================== *)

Module Feed.

Import Db.

(** [parseInt(req.query.limit) || 20]; [None] is the [NaN] of a missing or
    unreadable parameter. *)
Definition page_limit (requested : option Z) : Z :=
  match requested with
  | Some n => if (n =? 0)%Z then 20%Z else n
  | None => 20%Z
  end.

(** The predicate of [rawTrades.filter]: rows of deny-listed tokens go. *)
Definition memecoin (t : RecentTrade) : bool :=
  let sym := JS.toUpperCase (token_symbol (trade t)) in
  negb (bool_decide (sym ∈ Classifier.SKIP_TOKENS)
        || bool_decide (token_symbol (trade t) ∈ Classifier.SKIP_TOKENS))
  && negb (JS.truthy_str (token_mint (trade t))
           && bool_decide (token_mint (trade t) ∈ Classifier.SKIP_MINTS)).

(** [t.kol_name || t.wallet || 'unknown']. *)
Definition kol_key (t : RecentTrade) : string :=
  JS.or_else_str (JS.or_else_str (kol_name (trade t)) (wallet (trade t))) "unknown".

(** The diversity loop over [filtered], with its two variables.
    [kolCounts] starts as the object literal [{}] and is kept here as the
    map of its numeric entries.  For a key that [{}] inherits,
    [kolCounts[key] || 0] is a function (for "__proto__", the prototype), so
    [(kolCounts[key] || 0) + 1] is a string; it is stored under the key (the
    assignment to "__proto__" is ignored) and grows by a character at every
    later turn, and a string that starts with "function" or "[object" is
    never [<= 2]: a trade with such a key is not pushed, and the numeric
    entries stay as they are. *)
Fixpoint diversity (limit : Z) (kolCounts : gmap string nat)
    (diverseTrades : list RecentTrade) (filtered : list RecentTrade)
    : list RecentTrade :=
  match filtered with
  | [] => diverseTrades
  | t :: rest =>
      let key := kol_key t in
      let n := S (default 0 (kolCounts !! key)) in
      let kolCounts := if JS.inherited key then kolCounts else <[key := n]> kolCounts in
      let diverseTrades :=
        if negb (JS.inherited key) && (n <=? 2)%nat then diverseTrades ++ [t]
        else diverseTrades in
      if (limit <=? Z.of_nat (length diverseTrades))%Z then diverseTrades
      else diversity limit kolCounts diverseTrades rest
  end.

(** [filtered]: the rows the diversity loop scans.  The argument of the
    query, [Math.max(limit * 10, 200)], is computed here in [Z]: this is
    the route as long as [limit * 10] is a safe integer (beyond, the product
    is rounded, and SQLite refuses a LIMIT that is not a 64-bit integer). *)
Definition candidates (limit : Z) (db : Database) : list RecentTrade :=
  filter (fun t => memecoin t = true)
         (getRecentTradesRaw (Z.max (limit * 10) 200) db).

(** [diverseTrades], the rows behind the [trades] of the response. *)
Definition feedTrades (requested : option Z) (db : Database) : list RecentTrade :=
  let limit := page_limit requested in
  diversity limit ∅ [] (candidates limit db).

(** ** The selection rule in the words of the specification *)







(** Rows in non-increasing order of [tx_timestamp]. *)
Definition newest_first (l : list RecentTrade) : Prop :=
  StronglySorted
    (fun a b => (tx_timestamp (trade b) <= tx_timestamp (trade a))%Z) l.


End Feed.

(* ================================================================== *)
(** * The scanner flag                                                 *)
(* ================================================================== *)

Module Scanner.

Inductive Phase := idle | scanning | done.

Definition is_scanning (p : Phase) : bool :=
  match p with scanning => true | _ => false end.

(** The module variable [scannerPhase], with the number of scan bodies
    ([runBackgroundScan], [runDeepBackfill]) that were entered past their
    guard and have not ended yet. *)
Record State := {
  scannerPhase : Phase;
  running : nat
}.

Definition initial : State := {| scannerPhase := idle; running := 0 |}.

(** The first two statements of [runBackgroundScan] and [runDeepBackfill]:
    [if (scannerPhase === 'scanning') return; scannerPhase = 'scanning';].
    They run without an [await] in between.  The flag tells whether the
    body was entered. *)
Definition enter_scan (st : State) : State * bool :=
  if is_scanning (scannerPhase st) then (st, false)
  else ({| scannerPhase := scanning; running := S (running st) |}, true).

Definition runBackgroundScan : State -> State * bool := enter_scan.
Definition runDeepBackfill : State -> State * bool := enter_scan.

(** The ways a scan is triggered: the three POST routes and the one-time
    start-up timer. *)
Inductive Trigger :=
| PostBackfill
| PostDeepBackfill
| PostResetTrades
| StartupBackfill.

(** The HTTP status of a route, [None] for the timer. *)
Definition trigger (HELIUS_ENABLED : bool) (t : Trigger) (st : State)
    : State * option nat :=
  match t with
  | PostBackfill =>
      if negb HELIUS_ENABLED then (st, Some 400)
      else if is_scanning (scannerPhase st) then (st, Some 409)
      else (fst (runBackgroundScan st), Some 200)
  | PostDeepBackfill | PostResetTrades =>
      if negb HELIUS_ENABLED then (st, Some 400)
      else if is_scanning (scannerPhase st) then (st, Some 409)
      else (fst (runDeepBackfill st), Some 200)
  | StartupBackfill => (fst (runDeepBackfill st), None)
  end.

(** What can happen between two turns of the event loop. *)
Inductive Event :=
| Triggered (t : Trigger)
| ScanCompleted      (* a running body reaches [scannerPhase = 'done'] *)
| ScanFailed.        (* a running body ends by an exception *)

Inductive step (HELIUS_ENABLED : bool) : State -> Event -> State -> Prop :=
| step_trigger t st :
    step HELIUS_ENABLED st (Triggered t) (fst (trigger HELIUS_ENABLED t st))
| step_completed st n :
    running st = S n ->
    step HELIUS_ENABLED st ScanCompleted {| scannerPhase := done; running := n |}
| step_failed st n :
    running st = S n ->
    step HELIUS_ENABLED st ScanFailed
         {| scannerPhase := scannerPhase st; running := n |}.

Inductive reachable (HELIUS_ENABLED : bool) : State -> Prop :=
| reach_initial : reachable HELIUS_ENABLED initial
| reach_step st e st' :
    reachable HELIUS_ENABLED st -> step HELIUS_ENABLED st e st' ->
    reachable HELIUS_ENABLED st'.

(** What the flag guarantees in every state the server can be in: at most
    one scan body is running, and while one runs the flag is up. *)
Definition exclusive (st : State) : Prop :=
  running st <= 1 /\ (1 <= running st -> scannerPhase st = scanning).

End Scanner.

(* ================================================================== *)
(** * The KOL reference list and the wallet indexes                    *)
(* ================================================================== *)

Module Reference.

(** An entry of [COL_DATA].  A missing string field is the empty string:
    the program reads these fields only through truthiness tests, [||] and
    comparisons with non-empty strings. *)
Record Kol := {
  Name : string;
  WalletAddress : string;
  Avatar : string;
  TwitterHandle : string;
  SideWallets : option (list string)
}.

(** The three indexes built when [server.js] is loaded.  The two maps hold
    the entries of the objects themselves.  An assignment to the key
    "__proto__" would replace the prototype of the object instead of adding
    an entry: the statements about the indexes are for reference lists
    without such a main wallet address (a side wallet needs more than 10
    characters, so it cannot be that key). *)
Record Indexes := {
  WALLET_AVATAR_MAP : gmap string string;
  WALLET_KOL_MAP : gmap string Kol;
  SIDE_WALLET_SET : gset string
}.

Definition no_indexes : Indexes :=
  {| WALLET_AVATAR_MAP := ∅; WALLET_KOL_MAP := ∅; SIDE_WALLET_SET := ∅ |}.

(** [sw && sw.length > 10 && sw !== kol['Wallet Address']]. *)
Definition tracked_side_wallet (kol : Kol) (sw : string) : bool :=
  JS.truthy_str sw && (10 <? String.length sw)%nat
  && negb (String.eqb sw (WalletAddress kol)).

(** The body of the inner loop over [kol['Side Wallets']]. *)
Definition index_side_wallet (kol : Kol) (ix : Indexes) (sw : string) : Indexes :=
  if tracked_side_wallet kol sw then
    {| WALLET_AVATAR_MAP :=
         <[sw := JS.or_else_str (Avatar kol) "/logo.png"]> (WALLET_AVATAR_MAP ix);
       WALLET_KOL_MAP := <[sw := kol]> (WALLET_KOL_MAP ix);
       SIDE_WALLET_SET := {[sw]} ∪ SIDE_WALLET_SET ix |}
  else ix.

(** The body of the loop over [COL_DATA]. *)
Definition index_kol (ix : Indexes) (kol : Kol) : Indexes :=
  let ix :=
    if JS.truthy_str (WalletAddress kol) then
      {| WALLET_AVATAR_MAP :=
           <[WalletAddress kol := JS.or_else_str (Avatar kol) "/logo.png"]>
             (WALLET_AVATAR_MAP ix);
         WALLET_KOL_MAP := <[WalletAddress kol := kol]> (WALLET_KOL_MAP ix);
         SIDE_WALLET_SET := SIDE_WALLET_SET ix |}
    else ix in
  match SideWallets kol with
  | Some sws => fold_left (index_side_wallet kol) sws ix
  | None => ix
  end.

Definition build_indexes (COL_DATA : list Kol) : Indexes :=
  fold_left index_kol COL_DATA no_indexes.

(** The property names every object inherits from [Object.prototype]. *)
Definition Object_prototype_keys : list string := JS.Object_prototype_keys.

(** What an inherited property looks like to the code that reads a KOL: a
    function, or the prototype itself, on which [Name], [Avatar] and the
    other fields are [undefined]. *)
Definition inherited_value : Kol :=
  {| Name := ""; WalletAddress := ""; Avatar := ""; TwitterHandle := "";
     SideWallets := None |}.

(** [WALLET_KOL_MAP[account]] when it is truthy: the entry of the index,
    else what the key inherits from [Object.prototype]. *)
Definition kol_at (ix : Indexes) (account : string) : option Kol :=
  match WALLET_KOL_MAP ix !! account with
  | Some kol => Some kol
  | None =>
      if bool_decide (account ∈ Object_prototype_keys) then Some inherited_value
      else None
  end.

(** ** [setup-webhook.js]: the wallets registered with the webhook *)

(** The body of the loop that fills [walletSet]. *)
Definition register_kol (walletSet : gset string) (kol : Kol) : gset string :=
  let walletSet :=
    if JS.truthy_str (WalletAddress kol) && (10 <? String.length (WalletAddress kol))%nat
    then {[WalletAddress kol]} ∪ walletSet else walletSet in
  match SideWallets kol with
  | Some sws =>
      fold_left
        (fun walletSet sw =>
           if JS.truthy_str sw && (10 <? String.length sw)%nat
           then {[sw]} ∪ walletSet else walletSet)
        sws walletSet
  | None => walletSet
  end.

(** [walletSet]; [WALLETS] lists its elements. *)
Definition walletSet (COL_DATA : list Kol) : gset string :=
  fold_left register_kol COL_DATA ∅.

End Reference.

(* ================================================================== *)
(** * The token-metadata batch: [batchGetTokenMetadata]                *)
(* ================================================================== *)

Module Metadata.

Import Classifier.

(** [token.offChainMetadata?.metadata] and
    [token.onChainMetadata?.metadata?.data], as far as they are read. *)
Record TokenFields := {
  f_name : option string;
  f_symbol : option string;
  f_image : option string
}.

(** An element of the array the token-metadata source answers with. *)
Record HeliusToken := {
  account : string;
  offChain : option TokenFields;
  onChain : option TokenFields
}.

(** What one request to the source can do. *)
Inductive Response :=
| FetchRejects
| NotOk
| JsonRejects
| Tokens (data : list HeliusToken).

(** [a || b || ''] over two fields that may be missing. *)
Definition first_truthy (a b : option string) : string :=
  JS.opt_or_else_str a (JS.opt_or_else_str b "").

(** The body of [for (const token of data)]. *)
Definition cache_token (now : Z) (db : Db.Database) (token : HeliusToken)
    : Db.Database :=
  let name := first_truthy (offChain token ≫= f_name) (onChain token ≫= f_name) in
  let symbol := first_truthy (offChain token ≫= f_symbol) (onChain token ≫= f_symbol) in
  let image := first_truthy (offChain token ≫= f_image) None in
  if JS.truthy_str symbol
  then Db.upsertTokenCache now (account token) name symbol image db
  else db.

(** The filter that computes [uncached]. *)
Definition needs_fetch (db : Db.Database) (m : string) : bool :=
  negb (String.eqb m SOL_MINT)
  && negb (bool_decide (is_Some (Db.getCachedToken db m))).

Section Batch.

(** The token-metadata source: the number of requests made before and the
    mints asked for give the response. *)
Variable source : nat -> list string -> Response.
Variables (HELIUS_ENABLED : bool) (HELIUS_API_KEY : string).

(** The state the batch threads: the database and the log of the requests
    sent so far, oldest first. *)
Definition State : Type := Db.Database * list (list string).

(** The [for] loop over the chunks of 100 inside [try]: [left] is
    [uncached.slice(i)], [turns] bounds the number of iterations. *)
Fixpoint request_chunks (now : Z) (turns : nat) (left : list string) (st : State)
    : State :=
  match turns, left with
  | O, _ | _, [] => st
  | S turns', _ :: _ =>
      let chunk := take 100 left in
      let '(db, log) := st in
      let log' := log ++ [chunk] in
      match source (length log) chunk with
      | FetchRejects | JsonRejects => (db, log')
      | NotOk => request_chunks now turns' (drop 100 left) (db, log')
      | Tokens data =>
          request_chunks now turns' (drop 100 left)
            (fold_left (cache_token now) data db, log')
      end
  end.

(** [batchGetTokenMetadata(mints)]: the new state and the map returned. *)
Definition batchGetTokenMetadata (now : Z) (mints : list string) (st : State)
    : State * MetadataMap :=
  if negb HELIUS_ENABLED || negb (JS.truthy_str HELIUS_API_KEY) then (st, [])
  else
    let uncached := List.filter (needs_fetch (fst st)) mints in
    let st' := request_chunks now (length uncached) uncached st in
    (st', Ingest.metadata_results (fst st') mints).

End Batch.

End Metadata.

(* ================================================================== *)
(** * The ingestion paths: webhook and wallet scans                    *)
(* ================================================================== *)

Module Paths.

Import Classifier.

(** Each path is described on its own, from its call to its return: what
    other tasks of the server do to the database between two of its
    [await]s is not part of it. *)

(** An insertion-ordered [Set] of strings: [s.add(x)]. *)
Definition set_add (x : string) (s : list string) : list string :=
  if bool_decide (x ∈ s) then s else s ++ [x].

(** [if (x) s.add(x)] for a field that may be missing. *)
Definition add_truthy (s : list string) (x : option string) : list string :=
  match x with
  | Some a => if JS.truthy_str a then set_add a s else s
  | None => s
  end.

(** The [mints] set of a batch of transactions: every truthy [t.mint] of
    their token transfers, in order of first appearance. *)
Definition mints_of (txs : list Tx) : list string :=
  fold_left
    (fun mints tx =>
       match tx_tokenTransfers tx with
       | Some transfers => fold_left (fun mints t => add_truthy mints (tt_mint t)) transfers mints
       | None => mints
       end)
    txs [].

(** ** The webhook receiver *)

Record AccountData := { ad_account : option string }.

(** A transaction pushed to the webhook: the fields [parseTransaction]
    reads, and the two more the receiver looks at, each of the type the
    Helius schema gives it.  (An element that is not such an object makes
    the loop body raise; the receiver logs it and counts it nowhere.) *)
Record Pushed := {
  payload : Tx;
  feePayer : option string;
  accountData : option (list AccountData)
}.

(** [involvedAccounts], in insertion order. *)
Definition involvedAccounts (p : Pushed) : list string :=
  let s := add_truthy [] (feePayer p) in
  let s :=
    match accountData p with
    | Some l => fold_left (fun s a => add_truthy s (ad_account a)) l s
    | None => s
    end in
  let s :=
    match tx_nativeTransfers (payload p) with
    | Some l =>
        fold_left
          (fun s t => add_truthy (add_truthy s (nt_fromUserAccount t)) (nt_toUserAccount t))
          l s
    | None => s
    end in
  match tx_tokenTransfers (payload p) with
  | Some l =>
      fold_left
        (fun s t => add_truthy (add_truthy s (tt_fromUserAccount t)) (tt_toUserAccount t))
        l s
  | None => s
  end.

(** The five counters of the receiver's summary line. *)
Record Counters := {
  saved : nat;
  skippedNoKol : nat;
  skippedNoParse : nat;
  skippedInvalid : nat;
  skippedDupe : nat
}.

Definition no_counts : Counters :=
  {| saved := 0; skippedNoKol := 0; skippedNoParse := 0; skippedInvalid := 0;
     skippedDupe := 0 |}.

Section Receiver.

Variable source : nat -> list string -> Metadata.Response.
Variables (HELIUS_ENABLED : bool) (HELIUS_API_KEY : string).
Variable ix : Reference.Indexes.

(** The first involved account that is a tracked wallet, with its KOL. *)
Definition attribute (p : Pushed) : option (string * Reference.Kol) :=
  match List.find (fun a => bool_decide (is_Some (Reference.kol_at ix a)))
                  (involvedAccounts p) with
  | Some kolWallet =>
      match Reference.kol_at ix kolWallet with
      | Some kol => Some (kolWallet, kol)
      | None => None
      end
  | None => None
  end.

(** The body of the receiver's loop for one transaction. *)
Definition receive_one (now : Z) (acc : Metadata.State * Counters) (p : Pushed)
    : Metadata.State * Counters :=
  let '(st, c) := acc in
  match attribute p with
  | None =>
      (st, {| saved := saved c; skippedNoKol := S (skippedNoKol c);
              skippedNoParse := skippedNoParse c;
              skippedInvalid := skippedInvalid c; skippedDupe := skippedDupe c |})
  | Some (kolWallet, kol) =>
      let mints := mints_of [payload p] in
      let '(st, tokenMeta) :=
        match mints with
        | [] => (st, [])
        | _ :: _ =>
            Metadata.batchGetTokenMetadata source HELIUS_ENABLED HELIUS_API_KEY
              now mints st
        end in
      let trade :=
        parseTransaction (fst st) (payload p) (Reference.Name kol)
          (Reference.Avatar kol) kolWallet (Some tokenMeta) in
      match trade with
      | None =>
          (st, {| saved := saved c; skippedNoKol := skippedNoKol c;
                  skippedNoParse := S (skippedNoParse c);
                  skippedInvalid := skippedInvalid c; skippedDupe := skippedDupe c |})
      | Some t =>
          match isValidTrade trade, signature t with
          | true, Some sig =>
              if JS.truthy_str sig then
                match Ingest.storeTrade now kolWallet sig t (fst st) with
                | Db.Info _ db' =>
                    ((db', snd st),
                     {| saved := S (saved c); skippedNoKol := skippedNoKol c;
                        skippedNoParse := skippedNoParse c;
                        skippedInvalid := skippedInvalid c;
                        skippedDupe := skippedDupe c |})
                | Db.SqliteConstraintError =>
                    (st, {| saved := saved c; skippedNoKol := skippedNoKol c;
                            skippedNoParse := skippedNoParse c;
                            skippedInvalid := skippedInvalid c;
                            skippedDupe := S (skippedDupe c) |})
                end
              else
                (st, {| saved := saved c; skippedNoKol := skippedNoKol c;
                        skippedNoParse := skippedNoParse c;
                        skippedInvalid := S (skippedInvalid c);
                        skippedDupe := skippedDupe c |})
          | _, _ =>
              (st, {| saved := saved c; skippedNoKol := skippedNoKol c;
                      skippedNoParse := skippedNoParse c;
                      skippedInvalid := S (skippedInvalid c);
                      skippedDupe := skippedDupe c |})
          end
      end
  end.

(** [POST /webhook/helius] after the acknowledgement: [body] is [None] when
    the request body is not an array.  The counters are those of the summary
    line, [None] when nothing is processed. *)
Definition webhook (now : Z) (body : option (list Pushed)) (st : Metadata.State)
    : Metadata.State * option Counters :=
  if negb HELIUS_ENABLED then (st, None)
  else
    match body with
    | None => (st, None)
    | Some transactions =>
        let '(st', c) := fold_left (receive_one now) transactions (st, no_counts) in
        (st', Some c)
    end.

End Receiver.

(** ** The wallet scans *)

(** What the request of [fetchEnhancedTransactions] can do. *)
Inductive Page :=
| PageRejects
| PageNotOk
| PageJsonRejects
| PageJson (txs : option (list Tx)).

(** The state a scan threads: database and metadata requests, and
    [heliusCreditEstimate]. *)
Definition ScanState : Type := Metadata.State * nat.

Section Scans.

Variable source : nat -> list string -> Metadata.Response.
(** The transaction source: wallet and [limit] give the page. *)
Variable recent : string -> nat -> Page.
Variables (HELIUS_ENABLED : bool) (HELIUS_API_KEY : string).

(** [fetchEnhancedTransactions(walletAddress, limit)]: the transactions
    ([None] for a [null] body) and the credit estimate. *)
Definition fetchEnhancedTransactions (walletAddress : string) (limit : nat)
    (credits : nat) : option (list Tx) * nat :=
  if negb HELIUS_ENABLED || negb (JS.truthy_str HELIUS_API_KEY) then (Some [], credits)
  else
    match recent walletAddress limit with
    | PageRejects => (Some [], credits)
    | PageNotOk | PageJsonRejects => (Some [], credits + 100)
    | PageJson txs => (txs, credits + 100)
    end.

(** [scanSingleWallet(wallet, kolName, kolAvatar, txLimit)]: the new state
    and the number it returns. *)
Definition scanSingleWallet (now : Z) (wallet kolName kolAvatar : string)
    (txLimit : nat) (s : ScanState) : ScanState * nat :=
  if negb (JS.truthy_str wallet) || (String.length wallet <? 10)%nat then (s, 0)
  else
    let '(st, credits) := s in
    match fetchEnhancedTransactions wallet txLimit credits with
    | (None, credits) | (Some [], credits) => ((st, credits), 0)
    | (Some txs, credits) =>
        let '(st, tokenMeta) :=
          Metadata.batchGetTokenMetadata source HELIUS_ENABLED HELIUS_API_KEY
            now (mints_of txs) st in
        let '(db, n) :=
          Ingest.saveTrades now wallet kolName kolAvatar (Some tokenMeta) txs (fst st) in
        (((db, snd st), credits), n)
    end.

(** [Math.max(Math.floor(txLimit / 4), 5)]. *)
Definition sideLimit (txLimit : nat) : nat := Nat.max (txLimit / 4) 5.

(** [scanKolWallet(kol, txLimit)]. *)
Definition scanKolWallet (now : Z) (kol : Reference.Kol) (txLimit : nat)
    (s : ScanState) : ScanState * nat :=
  let '(s, total) :=
    scanSingleWallet now (Reference.WalletAddress kol) (Reference.Name kol)
      (Reference.Avatar kol) txLimit s in
  match Reference.SideWallets kol with
  | Some sws =>
      fold_left
        (fun '(s, total) sw =>
           if Reference.tracked_side_wallet kol sw then
             let '(s, n) :=
               scanSingleWallet now sw (Reference.Name kol) (Reference.Avatar kol)
                 (sideLimit txLimit) s in
             (s, total + n)
           else (s, total))
        sws (s, total)
  | None => (s, total)
  end.

End Scans.

End Paths.

(* ================================================================== *)
(** * The deep backfill of one KOL and the administrative routes       *)
(* ================================================================== *)

Module Deep.

Import Classifier.

Section DeepScan.

Variable source : nat -> list string -> Metadata.Response.
Variable fetch : string -> option string -> nat -> Ingest.Response.
Variables (HELIUS_ENABLED : bool) (HELIUS_API_KEY : string).

(** What [scanSingleWalletDeep] returns. *)
Record Outcome := { saved : nat; pages : nat }.

(** [Math.ceil(n / 100)]. *)
Definition ceil_pages (n : nat) : nat := (n + 99) / 100.

(** [scanSingleWalletDeep(wallet, kolName, kolAvatar, sinceTimestamp,
    maxPages)]. *)
Definition scanSingleWalletDeep (now : Z) (wallet kolName kolAvatar : string)
    (sinceTimestamp : Z) (maxPages : nat) (s : Paths.ScanState)
    : Paths.ScanState * Outcome :=
  if negb (JS.truthy_str wallet) || (String.length wallet <? 10)%nat
  then (s, {| saved := 0; pages := 0 |})
  else
    let '(st, credits) := s in
    match Ingest.fetchPaginatedTransactions fetch HELIUS_ENABLED HELIUS_API_KEY
            wallet sinceTimestamp maxPages credits with
    | ([], credits) => ((st, credits), {| saved := 0; pages := 0 |})
    | (txs, credits) =>
        let '(st, tokenMeta) :=
          Metadata.batchGetTokenMetadata source HELIUS_ENABLED HELIUS_API_KEY
            now (Paths.mints_of txs) st in
        let '(db, n) :=
          Ingest.saveTrades now wallet kolName kolAvatar (Some tokenMeta) txs (fst st) in
        (((db, snd st), credits), {| saved := n; pages := ceil_pages (length txs) |})
    end.

(** One turn of the loop of [runDeepBackfill]: the main wallet with up to
    50 pages, then each tracked side wallet with up to 15; the new state and
    [(kolSaved, kolPages)]. *)
Definition backfillKol (now : Z) (sinceTimestamp : Z) (kol : Reference.Kol)
    (s : Paths.ScanState) : Paths.ScanState * (nat * nat) :=
  let '(s, mainResult) :=
    scanSingleWalletDeep now (Reference.WalletAddress kol) (Reference.Name kol)
      (Reference.Avatar kol) sinceTimestamp 50 s in
  match Reference.SideWallets kol with
  | Some sws =>
      fold_left
        (fun '(s, (kolSaved, kolPages)) sw =>
           if Reference.tracked_side_wallet kol sw then
             let '(s, sideResult) :=
               scanSingleWalletDeep now sw (Reference.Name kol) (Reference.Avatar kol)
                 sinceTimestamp 15 s in
             (s, (kolSaved + saved sideResult, kolPages + pages sideResult))
           else (s, (kolSaved, kolPages)))
        sws (s, (saved mainResult, pages mainResult))
  | None => (s, (saved mainResult, pages mainResult))
  end.

End DeepScan.

(** [Math.min(Math.max(parseInt(req.query.days) || 7, 1), 30)]; [None] is
    the [NaN] of a missing or unreadable parameter. *)
Definition backfill_days (requested : option Z) : Z :=
  Z.min (Z.max (match requested with
                | Some n => if (n =? 0)%Z then 7 else n
                | None => 7
                end) 1) 30.

(** The cut-off of [runDeepBackfill(days)]; [now] is
    [Math.floor(Date.now() / 1000)]. *)
Definition cutoff (now days : Z) : Z := (now - days * 86400)%Z.

End Deep.

(* ================================================================== *)
(** * Sequences of scanner events                                      *)
(* ================================================================== *)

Module Runs.

Import Scanner.

(** The states the server goes through along a list of events. *)
Inductive run (HELIUS_ENABLED : bool) : State -> list Event -> State -> Prop :=
| run_nil st : run HELIUS_ENABLED st [] st
| run_cons st e st' es st'' :
    step HELIUS_ENABLED st e st' -> run HELIUS_ENABLED st' es st'' ->
    run HELIUS_ENABLED st (e :: es) st''.

End Runs.

(* ================================================================== *)
(** * Submitted wallets: [POST /api/wallets]                           *)
(* ================================================================== *)

Module Wallets.

(** A field of the JSON object that is the body of a request, as
    [express.json()] hands it to the route: missing, or a primitive value.
    (An array or an object as the value of a field is outside the model.) *)
Inductive Value :=
| Missing
| Null
| Bool (b : bool)
| Number (x : float)
| Text (s : string).

(** [ToBoolean]. *)
Definition truthy (v : Value) : bool :=
  match v with
  | Missing | Null => false
  | Bool b => b
  | Number x => JS.truthy x
  | Text s => JS.truthy_str s
  end.

(** [v.length < 32] for a truthy [v].  Only a string has a [length]; for a
    number and for [true] the test compares [undefined], and is false. *)
Definition length_below_32 (v : Value) : bool :=
  match v with
  | Text s => (String.length s <? 32)%nat
  | _ => false
  end.

(** [v || '']. *)
Definition or_empty (v : Value) : Value := if truthy v then v else Text "".

(** A row of [submitted_wallets]; its three columns are TEXT columns. *)
Record Row := {
  id : nat;
  address : string;
  label : string;
  notes : string;
  submitted_at : Z
}.

(** The table, rows in insertion order, and its AUTOINCREMENT counter. *)
Record Table := { rows : list Row; seq : nat }.

Definition empty : Table := {| rows := []; seq := 0 |}.

(** [SELECT * FROM submitted_wallets WHERE address = ?], for the text [a]
    that the parameter is compared as. *)
Definition getWalletByAddress (t : Table) (a : string) : option Row :=
  List.find (fun r => String.eqb (address r) a) (rows t).

(** [INSERT OR IGNORE INTO submitted_wallets (address, label, notes)]; the
    address column is UNIQUE. *)
Definition insertWallet (now : Z) (a l n : string) (t : Table) : Table :=
  match getWalletByAddress t a with
  | Some _ => t
  | None =>
      {| rows := rows t ++ [{| id := S (seq t); address := a; label := l;
                               notes := n; submitted_at := now |}];
         seq := S (seq t) |}
  end.

Section Driver.

(** What the database driver and SQLite make of a value that is not a
    string when it is given as a statement parameter for a TEXT column: the
    text it is stored and compared as, or [None] when the driver refuses
    the value with an exception. *)
Variable bind : Value -> option string.

(** A string is bound as it is. *)
Definition bound (v : Value) : option string :=
  match v with
  | Text s => Some s
  | _ => bind v
  end.

(** The route: the new table and the HTTP status.  An exception of a
    statement is caught and answered with 500. *)
Definition postWallet (now : Z) (address label notes : Value) (t : Table)
    : Table * nat :=
  if negb (truthy address) || length_below_32 address then (t, 400)
  else
    match bound address with
    | None => (t, 500)
    | Some a =>
        match getWalletByAddress t a with
        | Some _ => (t, 409)
        | None =>
            match bound (or_empty label), bound (or_empty notes) with
            | Some l, Some n => (insertWallet now a l n t, 201)
            | _, _ => (t, 500)
            end
        end
    end.

End Driver.

End Wallets.

(* ================================================================== *)
(** * Predicates used in the statements                                *)
(* ================================================================== *)

Module Invariants.

(** Two trades with the same signature, timestamp and KOL identity. *)
Definition same_context (a b : Classifier.Trade) : Prop :=
  Classifier.signature a = Classifier.signature b
  /\ Classifier.timestamp a = Classifier.timestamp b
  /\ Classifier.kolName a = Classifier.kolName b
  /\ Classifier.kolAvatar a = Classifier.kolAvatar b.

(** The symbol the token cache holds for a mint, when it is not empty. *)
Definition cached_symbol (db : Db.Database) (mint : string) : option string :=
  match Db.token_cache db !! mint with
  | Some cached =>
      if JS.truthy_str (Db.tc_symbol cached) then Some (Db.tc_symbol cached) else None
  | None => None
  end.

(** The entry [batchGetTokenMetadata] writes for a mint other than wrapped
    SOL. *)
Definition cached_meta (db : Db.Database) (mint : string)
    : option Classifier.TokenMeta :=
  match Db.getCachedToken db mint with
  | Some cached =>
      Some {| Classifier.meta_name := Db.tc_name cached;
              Classifier.meta_symbol := Db.tc_symbol cached;
              Classifier.meta_image := Db.tc_image cached |}
  | None => None
  end.

(** The trade a scan stores for [tx], with its signature: the parsed trade
    when it passes [isValidTrade] and has a signature. *)
Definition storable (db : Db.Database) (wallet kolName kolAvatar : string)
    (tokenMeta : option Classifier.MetadataMap) (tx : Classifier.Tx)
    : option (string * Classifier.Trade) :=
  match Classifier.parseTransaction db tx kolName kolAvatar wallet tokenMeta with
  | Some t =>
      if Classifier.isValidTrade (Some t) then
        match Classifier.signature t with
        | Some sig => if JS.truthy_str sig then Some (sig, t) else None
        | None => None
        end
      else None
  | None => None
  end.

(** The row [Ingest.storeTrade] writes for a trade. *)
Definition row_of (now : Z) (wallet sig : string) (t : Classifier.Trade)
    (rowid : nat) : Db.TradeRow :=
  {| Db.id := rowid; Db.wallet := wallet; Db.kol_name := Classifier.kolName t;
     Db.kol_avatar := JS.or_else_str (Classifier.kolAvatar t) "";
     Db.action := default "" (Classifier.action t);
     Db.token_symbol := default "" (Classifier.tokenSymbol t);
     Db.amount_sol := Classifier.amountSol t; Db.signature := sig;
     Db.tx_timestamp := default 0%Z (Classifier.timestamp t);
     Db.token_mint := JS.or_else_str (Classifier.tokenMint t) "";
     Db.token_amount := JS.or_else (Classifier.tokenAmount t) 0;
     Db.scanned_at := now |}.

(** The database with one more trade row. *)
Definition with_row (db : Db.Database) (row : Db.TradeRow) : Db.Database :=
  {| Db.token_cache := Db.token_cache db;
     Db.kol_trades := Db.kol_trades db ++ [row];
     Db.kol_trades_seq := Db.id row |}.

(** The body of the loop, in terms of [storable]. *)
Definition save_step (now : Z) (wallet name avatar : string)
    (m : option Classifier.MetadataMap) (acc : Db.Database * nat)
    (tx : Classifier.Tx)
    : Db.Database * nat :=
  match storable (fst acc) wallet name avatar m tx with
  | Some (sig, t) =>
      (if Db.signature_taken sig (Db.kol_trades (fst acc)) then fst acc
       else with_row (fst acc)
              (row_of now wallet sig t (S (Db.kol_trades_seq (fst acc)))),
       S (snd acc))
  | None => acc
  end.

(** Does the index loop write the key [w] for [kol]: as its main wallet, or
    as one of its side wallets that pass the test of the inner loop? *)
Definition lists_wallet (w : string) (kol : Reference.Kol) : bool :=
  (JS.truthy_str (Reference.WalletAddress kol)
   && String.eqb (Reference.WalletAddress kol) w)
  || match Reference.SideWallets kol with
     | Some sws =>
         existsb (fun sw => Reference.tracked_side_wallet kol sw && String.eqb sw w) sws
     | None => false
     end.

(** Does the index loop add [w] to [SIDE_WALLET_SET] for [kol]? *)
Definition lists_side_wallet (w : string) (kol : Reference.Kol) : bool :=
  match Reference.SideWallets kol with
  | Some sws =>
      existsb (fun sw => Reference.tracked_side_wallet kol sw && String.eqb sw w) sws
  | None => false
  end.

(** The avatar the index stores for a KOL. *)
Definition indexed_avatar (kol : Reference.Kol) : string :=
  JS.or_else_str (Reference.Avatar kol) "/logo.png".

(** No main wallet address is the key "__proto__". *)
Definition plain_keys (COL_DATA : list Reference.Kol) : Prop :=
  Forall (fun kol => Reference.WalletAddress kol <> "__proto__") COL_DATA.

(** What a scan guarantees of a row it writes for [wallet]. *)
Definition scanned_row (wallet kolName : string) (row : Db.TradeRow) : Prop :=
  Db.wallet row = wallet
  /\ Db.kol_name row = JS.or_else_str kolName "Unknown"
  /\ (Db.action row = "Buy" \/ Db.action row = "Sell")
  /\ Db.token_symbol row <> ""
  /\ (String.length (Db.token_symbol row) <= 15)%nat
  /\ (Db.token_symbol row ∉ Classifier.SKIP_TOKENS)
  /\ (Db.token_mint row ∉ Classifier.SKIP_MINTS)
  /\ Db.signature row <> "".

(** How an ingestion path may change the stored trades: rows are only
    appended, signatures stay unique, and every new row satisfies [P]. *)
Definition grows_by (P : Db.TradeRow -> Prop) (db db' : Db.Database) : Prop :=
  Db.kol_trades db `prefix_of` Db.kol_trades db'
  /\ (Db.unique_signatures db -> Db.unique_signatures db')
  /\ (forall row, row ∈ Db.kol_trades db' -> row ∈ Db.kol_trades db \/ P row).

(** The side wallets of a KOL that the scans visit. *)
Definition tracked_side_wallets (kol : Reference.Kol) : list string :=
  List.filter (Reference.tracked_side_wallet kol) (default [] (Reference.SideWallets kol)).

(** A row that a scan of [kol] writes: a vetted trade of its main wallet or
    of one of its tracked side wallets, of at least 10 characters, under the
    KOL's name. *)
Definition kol_row (kol : Reference.Kol) (row : Db.TradeRow) : Prop :=
  exists w,
    (w = Reference.WalletAddress kol \/ w ∈ tracked_side_wallets kol)
    /\ (10 <= String.length w)%nat
    /\ scanned_row w (Reference.Name kol) row.

(** A row whose timestamp is 0 or not before [sinceTimestamp]. *)
Definition recent_row (sinceTimestamp : Z) (row : Db.TradeRow) : Prop :=
  Db.tx_timestamp row = 0%Z \/ (sinceTimestamp <= Db.tx_timestamp row)%Z.

(** The transactions the receiver has counted in its summary line, the
    duplicates apart. *)
Definition processed (c : Paths.Counters) : nat :=
  Paths.saved c + Paths.skippedNoKol c + Paths.skippedNoParse c
  + Paths.skippedInvalid c.

(** What the receiver guarantees of a row it writes for the pushed
    transaction [p]: it is a vetted trade of the first involved account that
    the index knows, under the name of the KOL found there. *)
Definition attributed_row (ix : Reference.Indexes) (p : Paths.Pushed)
    (row : Db.TradeRow) : Prop :=
  exists kolWallet kol,
    Paths.attribute ix p = Some (kolWallet, kol)
    /\ (kolWallet ∈ Paths.involvedAccounts p)
    /\ Reference.kol_at ix kolWallet = Some kol
    /\ scanned_row kolWallet (Reference.Name kol) row
    /\ Classifier.tx_signature (Paths.payload p) = Some (Db.signature row).

(** The UNIQUE constraint of [submitted_wallets]: no address twice. *)
Definition unique_addresses (t : Wallets.Table) : Prop :=
  NoDup (Wallets.address <$> Wallets.rows t).

(** The state of the scanner after a scan body has ended by an exception:
    the flag is up and nothing runs. *)
Definition stuck : Scanner.State :=
  {| Scanner.scannerPhase := Scanner.scanning; Scanner.running := 0 |}.

(** Two patterns that differ only in which repetitions are capture
    groups. *)
Inductive same_shape : list Regex.item -> list Regex.item -> Prop :=
| shape_nil : same_shape [] []
| shape_lit c p q : same_shape p q -> same_shape (Regex.Lit c :: p) (Regex.Lit c :: q)
| shape_plus cls a b p q :
    same_shape p q -> same_shape (Regex.Plus cls a :: p) (Regex.Plus cls b :: q).

End Invariants.

(* ================================================================== *)
(** * Sample data                                                      *)
(* ================================================================== *)

Module Samples.

Section Payloads.

Import Classifier.

Definition wrapped_sol_meta : TokenMeta :=
{| meta_name := "Wrapped SOL"; meta_symbol := "SOL"; meta_image := "" |}.

(** A well-formed purchase of 1000 USDC for 2 SOL. *)
Definition usdc_trade : Trade :=
{| signature := Some "5hUsdc"; timestamp := Some 1700000000%Z;
   kolName := "Ansem"; kolAvatar := "/logo.png";
   action := Some "Buy"; tokenSymbol := Some "USDC";
   tokenMint := "EPjFWdd5AufqSSqeM2qN1xzybapC8G4wEGGkZwyTDt1v";
   tokenAmount := 1000; amountSol := 2 |}.

End Payloads.

Section Rows.

Import Db.

Definition foo_row : TokenCacheRow :=
{| tc_name := "Foo"; tc_symbol := "FOO"; tc_image := "https://img/foo.png";
   tc_mcap := 1000; tc_price_usd := 0.5; tc_price_change_24h := 2;
   tc_cached_at := 10 |}.

Definition foo_db : Database :=
{| token_cache := {["mintFoo" := foo_row]}; kol_trades := [];
   kol_trades_seq := 0 |}.

(** A database that already holds the trade with signature [5hSig]. *)
Definition one_trade_db : Database :=
{| token_cache := ∅;
   kol_trades :=
     [{| id := 1; wallet := "walletA"; kol_name := "Ansem"; kol_avatar := "";
         action := "Buy"; token_symbol := "FOO"; amount_sol := 1.5;
         signature := "5hSig"; tx_timestamp := 1700000000;
         token_mint := "mintFoo"; token_amount := 10; scanned_at := 5 |}];
   kol_trades_seq := 1 |}.

End Rows.

Section Pages.

Import Classifier Ingest.

Definition tx_at (sig : string) (t : option Z) : Tx :=
{| tx_signature := Some sig; tx_timestamp := t; tx_type := Some "SWAP";
   tx_description := None; tx_tokenTransfers := None;
   tx_nativeTransfers := None; tx_events := None |}.

(** A source whose only page holds a transaction stamped 0. *)
Definition epoch_source (wallet : string) (before : option string) (page : nat)
  : Response :=
Json (Some [tx_at "sigEpoch" (Some 0%Z)]).

(** A source whose first page crosses the cut-off 100 at its second
  transaction. *)
Definition crossing_source (wallet : string) (before : option string) (page : nat)
  : Response :=
Json (Some [tx_at "sigNew" (Some 200%Z); tx_at "sigOld" (Some 50%Z);
            tx_at "sigNewer" (Some 300%Z)]).

End Pages.

Section Transactions.

Import Classifier.

Definition described (ty description : string) : Tx :=
  {| tx_signature := Some "5hSig"; tx_timestamp := Some 1700000000%Z;
     tx_type := Some ty; tx_description := Some description;
     tx_tokenTransfers := None; tx_nativeTransfers := None;
     tx_events := None |}.

(** A swap whose description gives 0 SOL as the amount paid. *)
Definition zero_swap_tx : Tx := described "SWAP" "Ansem swapped 0 SOL for 5 FOO".

(** A description that starts with the word "staked" followed by a comma. *)
Definition staked_swap_tx : Tx :=
  described "SWAP" "staked, then swapped 1 SOL for 5 FOO".

(** A description that starts with the word "burned" followed by a space. *)
Definition burned_tx : Tx := described "UNKNOWN" "Burned 5 FOO".

Definition foo_metadata : option MetadataMap :=
  Some [("mintFoo", Some {| meta_name := "Foo"; meta_symbol := "FOO";
                            meta_image := "" |})].

(** The swap event of the specification: 1.5 SOL in, 1,000,000 raw units at
    6 decimals out. *)
Definition buy_swap : SwapEvent :=
  {| nativeInput := Some {| leg_amount := Some 1500000000%float |};
     nativeOutput := None;
     tokenInputs := None;
     tokenOutputs :=
       Some [{| st_mint := Some "mintFoo";
                st_rawTokenAmount :=
                  Some {| raw_tokenAmount := Some 1000000%float;
                          raw_decimals := Some 6%N |};
                st_tokenAmount := None |}] |}.

Definition swap_event_tx (ty : string) : Tx :=
  {| tx_signature := Some "5hSig"; tx_timestamp := Some 1700000000%Z;
     tx_type := Some ty; tx_description := None;
     tx_tokenTransfers := None; tx_nativeTransfers := None;
     tx_events := Some {| swap := Some buy_swap |} |}.

End Transactions.

Section Floods.

Import Db.

Definition numbered (prefix : string) (i : nat) : string :=
  prefix +:+ NilZero.string_of_uint (Nat.to_uint i).

Definition trade_of (rowid : nat) (kol sym : string) (ts : Z) : TradeRow :=
  {| id := rowid; wallet := "wallet-" +:+ kol; kol_name := kol; kol_avatar := "";
     action := "Buy"; token_symbol := sym; amount_sol := 1;
     signature := numbered "sig" rowid; tx_timestamp := ts;
     token_mint := "mint-" +:+ sym; token_amount := 10; scanned_at := 0 |}.


(** One old trade of FOO, then 200 newer trades of the token [sym], each by
    another KOL. *)
Definition crowded_db (sym : string) : Database :=
  {| token_cache := ∅;
     kol_trades :=
       trade_of 1 "Y" "FOO" 1000
       :: ((fun i => trade_of (2 + i) (numbered "K" i) sym (2000 + Z.of_nat i))
             <$> seq 0 200);
     kol_trades_seq := 201 |}.

(** A trade of a KOL whose name is a property name of every object, and a
    newer one of KOL X. *)
Definition constructor_db : Database :=
  {| token_cache := ∅;
     kol_trades := [trade_of 1 "constructor" "FOO" 100; trade_of 2 "X" "FOO" 101];
     kol_trades_seq := 2 |}.

(** Five trades of X and, in between, one of Y. *)
Definition six_trades_db : Database :=
  {| token_cache := ∅;
     kol_trades :=
       [trade_of 1 "X" "FOO" 100; trade_of 2 "X" "FOO" 101;
        trade_of 3 "Y" "BAR" 102; trade_of 4 "X" "FOO" 103;
        trade_of 5 "X" "BAR" 104; trade_of 6 "X" "FOO" 105];
     kol_trades_seq := 6 |}.

End Floods.

(** The state right after a deep backfill was triggered on a fresh
    server. *)
Definition deep_backfill_running : Scanner.State :=
  fst (Scanner.trigger true Scanner.PostDeepBackfill Scanner.initial).

End Samples.

(* ================================================================== *)
(** * More sample data                                                 *)
(* ================================================================== *)

Module MoreSamples.

Section Trades.

Import Classifier.

(** What [parseTransaction] makes of [Samples.swap_event_tx "SWAP"]. *)
Definition foo_buy : Trade :=
  {| signature := Some "5hSig"; timestamp := Some 1700000000%Z;
     kolName := "Ansem"; kolAvatar := "/logo.png";
     action := Some "Buy"; tokenSymbol := Some "FOO"; tokenMint := "mintFoo";
     tokenAmount := 1; amountSol := 1.5 |}.

(** The row a scan of wallet [walletA] at time 7 writes for it. *)
Definition foo_buy_row : Db.TradeRow :=
  Invariants.row_of 7 "walletA" "5hSig" foo_buy 1.

End Trades.

Section Sources.

Import Metadata.

(** A metadata source that knows the token FOO and nothing else, and
    answers only about mints it is asked for. *)
Definition foo_source (requests : nat) (chunk : list string) : Response :=
  if bool_decide ("mintFoo" ∈ chunk) then
    Tokens [{| account := "mintFoo";
               offChain := Some {| f_name := Some "Foo"; f_symbol := Some "FOO";
                                   f_image := None |};
               onChain := None |}]
  else NotOk.

(** A database whose cache holds the token BAR with its market data. *)
Definition bar_db : Db.Database :=
  {| Db.token_cache :=
       {["mintBar" := {| Db.tc_name := "Bar"; Db.tc_symbol := "BAR";
                         Db.tc_image := ""; Db.tc_mcap := 250000;
                         Db.tc_price_usd := 0.25; Db.tc_price_change_24h := 4;
                         Db.tc_cached_at := 3 |}]};
     Db.kol_trades := []; Db.kol_trades_seq := 0 |}.

End Sources.

Section Kols.

Import Reference.

(** A KOL with a main wallet and two side wallets, one of them too short to
    be tracked. *)
Definition ansem : Kol :=
  {| Name := "Ansem"; WalletAddress := "walletAnsemMain"; Avatar := "";
     TwitterHandle := "@ansem";
     SideWallets := Some ["walletAnsemSide"; "short"] |}.

(** A second KOL who lists the side wallet of the first as a main wallet. *)
Definition cupsey : Kol :=
  {| Name := "Cupsey"; WalletAddress := "walletAnsemSide"; Avatar := "/cupsey.png";
     TwitterHandle := "@cupsey"; SideWallets := None |}.

Definition two_kols : list Kol := [ansem; cupsey].

End Kols.

Section Pushes.

Import Classifier Paths.

(** A pushed purchase of FOO by the main wallet of the first sample KOL:
    the swap event of [Samples.buy_swap], with the token transfer that
    carries the mint. *)
Definition pushed_buy : Pushed :=
  {| payload :=
       {| tx_signature := Some "5hPush"; tx_timestamp := Some 1700000000%Z;
          tx_type := Some "SWAP"; tx_description := None;
          tx_tokenTransfers :=
            Some [{| tt_mint := Some "mintFoo"; tt_tokenAmount := Some 1%float;
                     tt_fromUserAccount := Some "pool";
                     tt_toUserAccount := Some "walletAnsemMain" |}];
          tx_nativeTransfers := None;
          tx_events := Some {| swap := Some Samples.buy_swap |} |};
     feePayer := Some "walletAnsemMain";
     accountData := None |}.

(** The row the receiver writes for it at time 7 into a database without
    trades. *)
Definition pushed_row : Db.TradeRow :=
  {| Db.id := 1; Db.wallet := "walletAnsemMain"; Db.kol_name := "Ansem";
     Db.kol_avatar := "/logo.png"; Db.action := "Buy"; Db.token_symbol := "FOO";
     Db.amount_sol := 1.5; Db.signature := "5hPush";
     Db.tx_timestamp := 1700000000; Db.token_mint := "mintFoo";
     Db.token_amount := 1; Db.scanned_at := 7 |}.

End Pushes.

Section Drivers.

Import Wallets.

(** A driver of which only this much is known: it binds the number 12345
    as the text "12345". *)
Definition number_12345 (v : Value) : option string :=
  match v with
  | Number x => if PrimFloat.eqb x 12345 then Some "12345" else None
  | _ => None
  end.

End Drivers.

End MoreSamples.

(* ================================================================== *)
(** * Properties of the validity filter                                *)
(* ================================================================== *)

Section ValidityFilter.

Import Classifier Samples.

Lemma empty_not_skipped_mint : "" ∉ SKIP_MINTS.
Proof.
  intros H. apply (bool_decide_eq_true_2 _) in H.
  vm_compute in H. discriminate H.
Qed.

Lemma in_skip_mints_truthy (mint : string) :
  mint ∈ SKIP_MINTS -> JS.truthy_str mint = true.
Proof.
  destruct mint as [|c m]; [|reflexivity].
  intros H. destruct (empty_not_skipped_mint H).
Qed.

(** C3: a trade whose symbol is on the deny-list of symbols, or whose mint
    is on the deny-list of mints, is rejected by [isValidTrade] whatever
    its other fields are. *)
Theorem isValidTrade_rejects_deny_listed (t : Trade) :
  (exists sym, tokenSymbol t = Some sym /\ sym ∈ SKIP_TOKENS)
  \/ tokenMint t ∈ SKIP_MINTS ->
  isValidTrade (Some t) = false.
Proof.
  intros H. unfold isValidTrade.
  destruct (action t) as [act|]; [|reflexivity].
  destruct (negb _); [reflexivity|].
  destruct (tokenSymbol t) as [sym|] eqn:Hsym; [|reflexivity].
  destruct (negb (JS.truthy_str sym) || _); [reflexivity|].
  destruct (Regex.looks_like_hex sym); [reflexivity|].
  destruct (JS.le _ _); [reflexivity|].
  destruct H as [(sym' & Heq & Hin)|Hmint].
  - injection Heq as <-. rewrite (bool_decide_eq_true_2 _ Hin). reflexivity.
  - destruct (bool_decide (sym ∈ SKIP_TOKENS)); [reflexivity|].
    rewrite (in_skip_mints_truthy _ Hmint), (bool_decide_eq_true_2 _ Hmint).
    reflexivity.
Qed.

Lemma isValidTrade_rejects_deny_listed_witness :
  isValidTrade (Some usdc_trade) = false.
Proof.
  apply (isValidTrade_rejects_deny_listed usdc_trade).
  left. exists "USDC". split; [reflexivity|].
  apply (bool_decide_eq_true_1 ("USDC" ∈ SKIP_TOKENS)). vm_compute. reflexivity.
Defined.

End ValidityFilter.

(* ================================================================== *)
(** * Properties of the persistence statements                         *)
(* ================================================================== *)

Section Persistence.

Import Db Samples.

(** C7: a market-data upsert for a cached mint overwrites [mcap],
    [price_usd] and [price_change_24h] and keeps the stored name, symbol
    and image wherever the incoming one is the empty string. *)
Theorem upsertTokenMarketData_merges (now : Z) (mint name symbol image : string)
    (mcap price_usd price_change_24h : float) (db : Database)
    (old : TokenCacheRow) :
  token_cache db !! mint = Some old ->
  exists new,
    token_cache (upsertTokenMarketData now mint name symbol image
                   mcap price_usd price_change_24h db) !! mint = Some new
    /\ tc_mcap new = mcap
    /\ tc_price_usd new = price_usd
    /\ tc_price_change_24h new = price_change_24h
    /\ (name = "" -> tc_name new = tc_name old)
    /\ (symbol = "" -> tc_symbol new = tc_symbol old)
    /\ (image = "" -> tc_image new = tc_image old).
Proof.
  intros Hold. unfold upsertTokenMarketData. rewrite Hold. cbn.
  rewrite lookup_insert_eq. eexists. split; [reflexivity|]. cbn.
  repeat split; intros ->; reflexivity.
Qed.

Lemma upsertTokenMarketData_merges_witness :
  exists new,
    token_cache (upsertTokenMarketData 20 "mintFoo" "" "" "" 5000 0.75 (-3) foo_db)
      !! "mintFoo" = Some new
    /\ tc_mcap new = 5000%float
    /\ tc_price_usd new = 0.75%float
    /\ tc_price_change_24h new = (-3)%float
    /\ ("" = "" -> tc_name new = "Foo")
    /\ ("" = "" -> tc_symbol new = "FOO")
    /\ ("" = "" -> tc_image new = "https://img/foo.png").
Proof.
  apply (upsertTokenMarketData_merges 20 "mintFoo" "" "" "" 5000 0.75 (-3)
           foo_db foo_row).
  vm_compute. reflexivity.
Defined.

(** Names and the like are replaced when the incoming value is not empty,
    and rows of other mints are left alone. *)
Lemma upsertTokenMarketData_replaces (now : Z) (mint name symbol image : string)
    (mcap price_usd price_change_24h : float) (db : Database)
    (old : TokenCacheRow) :
  token_cache db !! mint = Some old -> name <> "" ->
  tc_name <$> token_cache (upsertTokenMarketData now mint name symbol image
                             mcap price_usd price_change_24h db) !! mint
  = Some name.
Proof.
  intros Hold Hne. unfold upsertTokenMarketData. rewrite Hold. cbn.
  rewrite lookup_insert_eq. cbn. unfold keep_if_empty.
  destruct (String.eqb_spec name ""); [contradiction|reflexivity].
Qed.

Lemma upsertTokenMarketData_other (now : Z) (mint other name symbol image : string)
    (mcap price_usd price_change_24h : float) (db : Database) :
  mint <> other ->
  token_cache (upsertTokenMarketData now mint name symbol image
                 mcap price_usd price_change_24h db) !! other
  = token_cache db !! other.
Proof.
  intros Hne. unfold upsertTokenMarketData. cbn.
  apply lookup_insert_ne. exact Hne.
Qed.

(** ** The UNIQUE constraint on signatures *)

Lemma signature_taken_spec (sig : string) (rows : list TradeRow) :
  signature_taken sig rows = true <-> sig ∈ signature <$> rows.
Proof.
  unfold signature_taken. induction rows as [|r rows IH]; cbn.
  - split; [discriminate|]. intros H. inversion H.
  - rewrite orb_true_iff, IH, elem_of_cons.
    destruct (String.eqb_spec (signature r) sig) as [->|Hne]; split;
      intros [H|H]; auto; try discriminate; congruence.
Qed.

Lemma count_absent (sig : string) (rows : list TradeRow) :
  sig ∉ signature <$> rows ->
  length (filter (fun r => signature r = sig) rows) = 0.
Proof.
  induction rows as [|r rows IH]; [reflexivity|].
  cbn [fmap list_fmap]. rewrite not_elem_of_cons. intros [Hne Hrest].
  rewrite filter_cons. destruct (decide (signature r = sig)); [congruence|].
  apply IH. exact Hrest.
Qed.

Lemma count_unique (sig : string) (rows : list TradeRow) :
  NoDup (signature <$> rows) -> sig ∈ signature <$> rows ->
  length (filter (fun r => signature r = sig) rows) = 1.
Proof.
  induction rows as [|r rows IH]; intros Hnd Hin.
  - inversion Hin.
  - cbn [fmap list_fmap] in Hnd, Hin. apply NoDup_cons in Hnd as [Hfresh Hnd].
    rewrite filter_cons. destruct (decide (signature r = sig)) as [Heq|Hne].
    + cbn. rewrite count_absent; [reflexivity|]. rewrite <- Heq. exact Hfresh.
    + apply elem_of_cons in Hin as [Heq|Hin]; [congruence|].
      apply IH; assumption.
Qed.

Lemma insert_kol_trades_fresh (clause : ConflictClause) (now : Z)
    (w kn ka act sym : string) (sol : float) (sig : string) (ts : Z)
    (mint : string) (tamt : float) (db : Database) :
  signature_taken sig (kol_trades db) = false ->
  exists db',
    insert_kol_trades clause now w kn ka act sym sol sig ts mint tamt db = Info 1 db'
    /\ signature <$> kol_trades db' = (signature <$> kol_trades db) ++ [sig]
    /\ token_cache db' = token_cache db.
Proof.
  intros Hfree. unfold insert_kol_trades. rewrite Hfree.
  eexists. split; [reflexivity|]. cbn. rewrite fmap_app. split; reflexivity.
Qed.

(** An insert never breaks the uniqueness of signatures, and it never
    raises. *)
Lemma insertTrade_preserves_unique (now : Z) (w kn ka act sym : string)
    (sol : float) (sig : string) (ts : Z) (mint : string) (tamt : float)
    (db : Database) :
  unique_signatures db ->
  exists changes db',
    insertTrade now w kn ka act sym sol sig ts mint tamt db = Info changes db'
    /\ unique_signatures db'.
Proof.
  intros Huniq. unfold insertTrade.
  destruct (signature_taken sig (kol_trades db)) eqn:Htaken.
  - exists 0, db. unfold insert_kol_trades. rewrite Htaken. auto.
  - destruct (insert_kol_trades_fresh OrIgnore now w kn ka act sym sol sig ts
                mint tamt db Htaken) as (db' & Hrun & Hsigs & _).
    exists 1, db'. split; [exact Hrun|].
    unfold unique_signatures. rewrite Hsigs.
    apply NoDup_app. split; [exact Huniq|]. split.
    + intros x Hx Hx'. apply list_elem_of_singleton in Hx'. subst x.
      apply signature_taken_spec in Hx. congruence.
    + apply NoDup_singleton.
Qed.

Lemma saveTrades_preserves_unique (now : Z) (wallet kolName kolAvatar : string)
    (tokenMeta : option Classifier.MetadataMap) (txs : list Classifier.Tx)
    (db : Database) :
  unique_signatures db ->
  unique_signatures
    (fst (Ingest.saveTrades now wallet kolName kolAvatar tokenMeta txs db)).
Proof.
  unfold Ingest.saveTrades. generalize 0 as saved.
  revert db. induction txs as [|tx txs IH]; intros db saved Huniq; [exact Huniq|].
  cbn [fold_left].
  destruct (Classifier.parseTransaction db tx kolName kolAvatar wallet tokenMeta)
    as [t|] eqn:Hparse; [|apply IH; exact Huniq].
  destruct (Classifier.isValidTrade (Some t)); [|apply IH; exact Huniq].
  destruct (Classifier.signature t) as [sig|]; [|apply IH; exact Huniq].
  destruct (JS.truthy_str sig); [|apply IH; exact Huniq].
  unfold Ingest.storeTrade.
  match goal with
  | |- context [insertTrade ?a ?b ?c ?d ?e ?f ?g ?h ?i ?j ?k db] =>
      destruct (insertTrade_preserves_unique a b c d e f g h i j k db Huniq)
        as (changes & db' & -> & Huniq')
  end.
  apply IH. exact Huniq'.
Qed.

(** C4: inserting a trade whose signature is already stored changes
    nothing and raises nothing: no row is added, the database is the same,
    exactly one row carries the signature.  Every insert, and every run of
    the ingestion loop, keeps signatures unique. *)
Theorem insertTrade_duplicate_is_noop (now : Z) (w kn ka act sym : string)
    (sol : float) (sig : string) (ts : Z) (mint : string) (tamt : float)
    (db : Database) :
  unique_signatures db ->
  exists changes db',
    insertTrade now w kn ka act sym sol sig ts mint tamt db = Info changes db'
    /\ unique_signatures db'
    /\ (sig ∈ signature <$> kol_trades db ->
        changes = 0 /\ db' = db /\ count_signature sig db' = 1)
    /\ (forall wallet kolName kolAvatar tokenMeta txs,
          unique_signatures
            (fst (Ingest.saveTrades now wallet kolName kolAvatar tokenMeta txs db'))).
Proof.
  intros Huniq.
  destruct (insertTrade_preserves_unique now w kn ka act sym sol sig ts mint
              tamt db Huniq) as (changes & db' & Hrun & Huniq').
  exists changes, db'. split; [exact Hrun|]. split; [exact Huniq'|]. split.
  - intros Hin. pose proof (proj2 (signature_taken_spec _ _) Hin) as Htaken.
    unfold insertTrade, insert_kol_trades in Hrun. rewrite Htaken in Hrun.
    injection Hrun as <- <-. repeat split.
    apply count_unique; assumption.
  - intros. apply saveTrades_preserves_unique. exact Huniq'.
Qed.

Lemma insertTrade_duplicate_is_noop_witness :
  exists changes db',
    insertTrade 9 "walletB" "Other" "" "Sell" "BAR" 3 "5hSig" 1700000001
      "mintBar" 7 one_trade_db = Info changes db'
    /\ unique_signatures db'
    /\ ("5hSig" ∈ signature <$> kol_trades one_trade_db ->
        changes = 0 /\ db' = one_trade_db /\ count_signature "5hSig" db' = 1)
    /\ (forall wallet kolName kolAvatar tokenMeta txs,
          unique_signatures
            (fst (Ingest.saveTrades 9 wallet kolName kolAvatar tokenMeta txs db'))).
Proof.
  apply (insertTrade_duplicate_is_noop 9 "walletB" "Other" "" "Sell" "BAR" 3
           "5hSig" 1700000001 "mintBar" 7 one_trade_db).
  unfold unique_signatures. simpl. apply NoDup_singleton.
Defined.

End Persistence.

(* ================================================================== *)
(** * Properties of the symbol resolver                                *)
(* ================================================================== *)

Section Resolver.

Import Classifier Samples.

Lemma obj_set_lookup (mint : string) (v : option TokenMeta) (results : MetadataMap) :
  meta_lookup (Some (Ingest.obj_set mint v results)) mint = v.
Proof.
  unfold meta_lookup. induction results as [|[k w] rest IH]; cbn.
  - rewrite String.eqb_refl. reflexivity.
  - destruct (String.eqb_spec k mint) as [->|Hne]; cbn.
    + rewrite String.eqb_refl. reflexivity.
    + destruct (String.eqb_spec k mint); [contradiction|]. exact IH.
Qed.

Lemma obj_set_lookup_other (mint other : string) (v : option TokenMeta)
    (results : MetadataMap) :
  mint <> other ->
  meta_lookup (Some (Ingest.obj_set mint v results)) other
  = meta_lookup (Some results) other.
Proof.
  intros Hne. unfold meta_lookup. induction results as [|[k w] rest IH]; cbn.
  - destruct (String.eqb_spec mint other); [contradiction|]. reflexivity.
  - destruct (String.eqb_spec k mint) as [->|Hk]; cbn.
    + destruct (String.eqb_spec mint other); [contradiction|]. reflexivity.
    + destruct (String.eqb_spec k other); [reflexivity|]. exact IH.
Qed.

Lemma metadata_step_sol (db : Db.Database) (results : MetadataMap) (mint : string) :
  mint = SOL_MINT \/ meta_lookup (Some results) SOL_MINT = Some wrapped_sol_meta ->
  meta_lookup (Some (Ingest.metadata_step db results mint)) SOL_MINT
  = Some wrapped_sol_meta.
Proof.
  unfold Ingest.metadata_step.
  destruct (String.eqb_spec mint SOL_MINT) as [->|Hne].
  - intros _. apply obj_set_lookup.
  - intros [Heq|H]; [contradiction|].
    rewrite obj_set_lookup_other; [exact H|exact Hne].
Qed.

(** Once the wrapped-SOL mint is in the map it stays there with the fixed
    entry, whatever mints follow. *)
Lemma metadata_fold_keeps_sol (db : Db.Database) (mints : list string)
    (results : MetadataMap) :
  meta_lookup (Some results) SOL_MINT = Some wrapped_sol_meta ->
  meta_lookup (Some (fold_left (Ingest.metadata_step db) mints results)) SOL_MINT
  = Some wrapped_sol_meta.
Proof.
  revert results. induction mints as [|m mints IH]; intros results H; [exact H|].
  cbn [fold_left]. apply IH, metadata_step_sol. right. exact H.
Qed.

Lemma metadata_results_sol (db : Db.Database) (mints : list string) :
  SOL_MINT ∈ mints ->
  meta_lookup (Some (Ingest.metadata_results db mints)) SOL_MINT
  = Some wrapped_sol_meta.
Proof.
  unfold Ingest.metadata_results. generalize (@nil (string * option TokenMeta)).
  induction mints as [|m mints IH]; intros results Hin; [inversion Hin|].
  cbn [fold_left]. apply elem_of_cons in Hin as [<-|Hin].
  - apply metadata_fold_keeps_sol, metadata_step_sol. left. reflexivity.
  - apply IH. exact Hin.
Qed.

(** C6 as the specification states it fails: even on the metadata map
    that [batchGetTokenMetadata] builds for the wrapped-SOL mint, the
    resolver does not answer ["SOL"]. *)
Lemma resolveSymbol_sol_is_not_SOL :
  resolveSymbol (Some (Ingest.metadata_results Db.empty [SOL_MINT])) Db.empty SOL_MINT
  <> Some "SOL".
Proof. vm_compute. discriminate. Qed.

(** C6, amended: for every metadata map and token cache the resolver
    answers [null] for the wrapped-SOL mint, consulting neither; the fixed
    symbol ["SOL"] is what [batchGetTokenMetadata] records for that mint in
    the metadata map. *)
Theorem resolveSymbol_sol_mint (tokenMetadataMap : option MetadataMap)
    (db : Db.Database) (mints : list string) :
  SOL_MINT ∈ mints ->
  resolveSymbol tokenMetadataMap db SOL_MINT = None
  /\ meta_symbol <$> meta_lookup (Some (Ingest.metadata_results db mints)) SOL_MINT
     = Some "SOL".
Proof.
  intros Hin. split.
  - unfold resolveSymbol. rewrite String.eqb_refl, orb_true_r. reflexivity.
  - rewrite (metadata_results_sol db mints Hin). reflexivity.
Qed.

Lemma resolveSymbol_sol_mint_witness :
  resolveSymbol (Some [(SOL_MINT, Some wrapped_sol_meta)]) foo_db SOL_MINT
  = None
  /\ meta_symbol <$>
       meta_lookup (Some (Ingest.metadata_results foo_db
                            ["mintFoo"; SOL_MINT])) SOL_MINT
     = Some "SOL".
Proof.
  apply (resolveSymbol_sol_mint (Some [(SOL_MINT, Some wrapped_sol_meta)])
           foo_db ["mintFoo"; SOL_MINT]).
  apply (bool_decide_eq_true_1 (SOL_MINT ∈ ["mintFoo"; SOL_MINT])).
  vm_compute. reflexivity.
Defined.

End Resolver.

(* ================================================================== *)
(** * Properties of the scanner flag                                   *)
(* ================================================================== *)

Section ScannerFlag.

Import Scanner.

Variable HELIUS_ENABLED : bool.

Lemma enter_scan_exclusive (st : State) :
  exclusive st -> exclusive (fst (enter_scan st)).
Proof.
  intros [Hle Hflag]. unfold enter_scan.
  destruct (is_scanning (scannerPhase st)) eqn:Hs; cbn; [split; assumption|].
  destruct (running st) as [|n] eqn:Hrun.
  - split; cbn; [lia|reflexivity].
  - assert (1 <= S n) as H by lia. apply Hflag in H.
    rewrite H in Hs. discriminate Hs.
Qed.

Lemma trigger_exclusive (t : Trigger) (st : State) :
  exclusive st -> exclusive (fst (trigger HELIUS_ENABLED t st)).
Proof.
  intros Hex. unfold trigger, runBackgroundScan, runDeepBackfill.
  destruct t, HELIUS_ENABLED; cbn [negb fst];
    try exact Hex;
    try (destruct (is_scanning (scannerPhase st)); [exact Hex|]);
    apply enter_scan_exclusive; exact Hex.
Qed.

Lemma reachable_exclusive (st : State) :
  reachable HELIUS_ENABLED st -> exclusive st.
Proof.
  induction 1 as [|st e st' _ IH Hstep].
  - split; cbn; [lia|]. intros H. lia.
  - destruct Hstep as [t st|st n Hn|st n Hn].
    + apply trigger_exclusive. exact IH.
    + destruct IH as [Hle _]. split; cbn; [lia|]. intros H. lia.
    + destruct IH as [Hle _]. split; cbn; [lia|]. intros H. lia.
Qed.

Lemma trigger_while_scanning (t : Trigger) (st : State) :
  scannerPhase st = scanning ->
  fst (trigger HELIUS_ENABLED t st) = st
  /\ snd (trigger HELIUS_ENABLED t st) <> Some 200.
Proof.
  intros Hphase. unfold trigger, runBackgroundScan, runDeepBackfill, enter_scan.
  rewrite Hphase. cbn.
  destruct t, HELIUS_ENABLED; cbn; split; try reflexivity; discriminate.
Qed.

(** C9: in every reachable state at most one scan is running; a scan
    triggered while the phase is [scanning] (through any route, or by a
    direct call of either scan function) leaves the state as it is: no
    second scan starts, nothing is remembered for later, and no route
    answers 200. *)
Theorem scan_mutual_exclusion (st : State) :
  reachable HELIUS_ENABLED st ->
  running st <= 1
  /\ (scannerPhase st = scanning ->
      runBackgroundScan st = (st, false)
      /\ runDeepBackfill st = (st, false)
      /\ forall t, fst (trigger HELIUS_ENABLED t st) = st
                   /\ snd (trigger HELIUS_ENABLED t st) <> Some 200).
Proof.
  intros Hreach. split.
  - apply (reachable_exclusive st Hreach).
  - intros Hphase. unfold runBackgroundScan, runDeepBackfill, enter_scan.
    rewrite Hphase. cbn. repeat split; apply trigger_while_scanning; exact Hphase.
Qed.

End ScannerFlag.

Lemma scan_mutual_exclusion_witness :
  Scanner.running Samples.deep_backfill_running <= 1
  /\ (Scanner.scannerPhase Samples.deep_backfill_running = Scanner.scanning ->
      Scanner.runBackgroundScan Samples.deep_backfill_running
      = (Samples.deep_backfill_running, false)
      /\ Scanner.runDeepBackfill Samples.deep_backfill_running
         = (Samples.deep_backfill_running, false)
      /\ forall t,
           fst (Scanner.trigger true t Samples.deep_backfill_running)
           = Samples.deep_backfill_running
           /\ snd (Scanner.trigger true t Samples.deep_backfill_running) <> Some 200).
Proof.
  apply (scan_mutual_exclusion true Samples.deep_backfill_running).
  apply (Scanner.reach_step true Scanner.initial
           (Scanner.Triggered Scanner.PostDeepBackfill)).
  - apply Scanner.reach_initial.
  - apply Scanner.step_trigger.
Defined.

(* ================================================================== *)
(** * Properties of the paginated fetch                                *)
(* ================================================================== *)

Section PaginatedFetch.

Import Classifier Ingest.

Variable fetch : string -> option string -> nat -> Response.
Variables (HELIUS_ENABLED : bool) (HELIUS_API_KEY : string).
Variables (walletAddress : string) (sinceTimestamp : Z).

Local Abbreviation recent := (fun tx => older_than sinceTimestamp tx = false).

Lemma until_cutoff_recent (txs : list Tx) :
  Forall recent (fst (until_cutoff sinceTimestamp txs)).
Proof.
  induction txs as [|tx rest IH]; cbn; [constructor|].
  destruct (older_than sinceTimestamp tx) eqn:Hold; [constructor|].
  destruct (until_cutoff sinceTimestamp rest) as [pushed reached].
  cbn in *. constructor; assumption.
Qed.

Lemma until_cutoff_stops (pre post : list Tx) (old : Tx) :
  Forall recent pre -> older_than sinceTimestamp old = true ->
  until_cutoff sinceTimestamp (pre ++ old :: post) = (pre, true).
Proof.
  intros Hpre Hold. induction Hpre as [|tx pre Htx _ IH]; cbn.
  - rewrite Hold. reflexivity.
  - rewrite Htx, IH. reflexivity.
Qed.

Lemma paginate_recent (pages page : nat) (beforeSig : option string)
    (allTxs : list Tx) (credits : nat) :
  Forall recent allTxs ->
  Forall recent
    (fst (paginate fetch walletAddress sinceTimestamp pages page beforeSig
            allTxs credits)).
Proof.
  revert page beforeSig allTxs credits.
  induction pages as [|pages IH]; intros page beforeSig allTxs credits Hall;
    cbn [paginate]; [exact Hall|].
  destruct (fetch walletAddress (cursor beforeSig) page) as [| | |[[|tx txs]|]];
    try exact Hall.
  pose proof (until_cutoff_recent (tx :: txs)) as Hpage.
  destruct (until_cutoff sinceTimestamp (tx :: txs)) as [pushed reached].
  cbn [fst] in Hpage.
  assert (Forall recent (allTxs ++ pushed)) as Hacc
    by (apply Forall_app; split; assumption).
  destruct (reached || _); [exact Hacc|].
  apply IH. exact Hacc.
Qed.

Lemma recent_timestamp (tx : Tx) :
  older_than sinceTimestamp tx = false ->
  match tx_timestamp tx with
  | Some t => t = 0%Z \/ (sinceTimestamp <= t)%Z
  | None => True
  end.
Proof.
  unfold older_than. destruct (tx_timestamp tx) as [t|]; [|trivial].
  destruct (Z.eqb_spec t 0); [left; assumption|]. cbn.
  intros H. right. apply Z.ltb_ge. exact H.
Qed.

(** C10 as stated fails: a transaction whose timestamp is 0 is returned
    although it carries a timestamp below the cut-off 100. *)
Lemma fetchPaginatedTransactions_returns_epoch :
  ~ (forall tx,
       tx ∈ fst (fetchPaginatedTransactions Samples.epoch_source true "key"
                   "walletA" 100 50 0) ->
       tx_timestamp tx = None
       \/ exists t, tx_timestamp tx = Some t /\ (100 <= t)%Z).
Proof.
  intros H. destruct (H (Samples.tx_at "sigEpoch" (Some 0%Z))) as [Hnone|(t & Ht & Hle)].
  - vm_compute. left.
  - discriminate Hnone.
  - injection Ht as <-. lia.
Qed.

(** C10, amended: every transaction returned by
    [fetchPaginatedTransactions] has no timestamp, or the timestamp 0
    (which the loop treats as missing), or a timestamp at or after the
    cut-off; and a page holding a transaction with a non-zero timestamp
    before the cut-off contributes only what precedes that transaction and
    ends the pagination. *)
Theorem fetchPaginatedTransactions_cutoff (maxPages credits : nat) :
  (forall tx,
     tx ∈ fst (fetchPaginatedTransactions fetch HELIUS_ENABLED HELIUS_API_KEY
                 walletAddress sinceTimestamp maxPages credits) ->
     match tx_timestamp tx with
     | Some t => t = 0%Z \/ (sinceTimestamp <= t)%Z
     | None => True
     end)
  /\ (forall pages page beforeSig allTxs cr pre old post,
        fetch walletAddress (cursor beforeSig) page
        = Json (Some (pre ++ old :: post)) ->
        Forall recent pre ->
        older_than sinceTimestamp old = true ->
        paginate fetch walletAddress sinceTimestamp (S pages) page beforeSig
          allTxs cr = (allTxs ++ pre, cr + 100)).
Proof.
  split.
  - intros tx Hin. apply recent_timestamp. revert tx Hin. apply Forall_forall.
    unfold fetchPaginatedTransactions.
    destruct (negb HELIUS_ENABLED || _); [constructor|].
    apply paginate_recent. constructor.
  - intros pages page beforeSig allTxs cr pre old post Hfetch Hpre Hold.
    cbn [paginate]. rewrite Hfetch.
    rewrite (until_cutoff_stops pre post old Hpre Hold). cbn [orb].
    destruct pre; reflexivity.
Qed.

End PaginatedFetch.

Lemma fetchPaginatedTransactions_cutoff_witness :
  match Classifier.tx_timestamp (Samples.tx_at "sigNew" (Some 200%Z)) with
  | Some t => t = 0%Z \/ (100 <= t)%Z
  | None => True
  end
  /\ (forall pages page beforeSig allTxs cr pre old post,
        Samples.crossing_source "walletA" (Ingest.cursor beforeSig) page
        = Ingest.Json (Some (pre ++ old :: post)) ->
        Forall (fun tx => Ingest.older_than 100 tx = false) pre ->
        Ingest.older_than 100 old = true ->
        Ingest.paginate Samples.crossing_source "walletA" 100 (S pages) page
          beforeSig allTxs cr = (allTxs ++ pre, cr + 100)).
Proof.
  destruct (fetchPaginatedTransactions_cutoff Samples.crossing_source true "key"
              "walletA" 100 50 0) as [Hreturned Hstop].
  split; [|exact Hstop].
  apply (Hreturned (Samples.tx_at "sigNew" (Some 200%Z))).
  vm_compute. left.
Defined.

(* ================================================================== *)
(** * Properties of the transaction parser                             *)
(* ================================================================== *)

Section Parser.

Import Classifier.

(** ** Capture groups are never empty *)

Lemma run_positive_nonempty (cls : ascii -> bool) (s : string) (k : nat) :
  S k <= JS.run cls s -> s <> "".
Proof. destruct s; cbn; [lia|discriminate]. Qed.

Lemma give_back_nonempty (rest : string -> option (list string))
    (capture : bool) (s : string) (k : nat) (groups : list string) :
  (forall s' gs, rest s' = Some gs -> Forall (fun g => g <> "") gs) ->
  s <> "" ->
  Regex.give_back rest capture s k = Some groups ->
  Forall (fun g => g <> "") groups.
Proof.
  intros Hrest Hs. induction k as [|k IH]; cbn [Regex.give_back]; [discriminate|].
  destruct (rest (JS.drop (S k) s)) as [gs|] eqn:Hgs; [|exact IH].
  intros [= <-]. pose proof (Hrest _ _ Hgs) as Hall.
  destruct capture; [|exact Hall].
  constructor; [|exact Hall]. destruct s; [contradiction|discriminate].
Qed.

Lemma match_here_nonempty (p : list Regex.item) (s : string) (groups : list string) :
  Regex.match_here p s = Some groups -> Forall (fun g => g <> "") groups.
Proof.
  revert s groups. induction p as [|[c|cls capture] p IH]; intros s groups;
    cbn [Regex.match_here].
  - intros [= <-]. constructor.
  - destruct s as [|a s']; [discriminate|].
    destruct (Regex.eqb_nocase c a); [apply IH|discriminate].
  - destruct (JS.run cls s) as [|k] eqn:Hrun; [discriminate|].
    apply give_back_nonempty; [exact IH|].
    apply (run_positive_nonempty cls s k). lia.
Qed.

Lemma search_nonempty (p : list Regex.item) (s : string) (groups : list string) :
  Regex.search p s = Some groups -> Forall (fun g => g <> "") groups.
Proof.
  induction s as [|a s IH]; cbn [Regex.search];
    destruct (Regex.match_here p _) as [gs|] eqn:Hm.
  - intros [= <-]. exact (match_here_nonempty _ _ _ Hm).
  - discriminate.
  - intros [= <-]. exact (match_here_nonempty _ _ _ Hm).
  - exact IH.
Qed.

Lemma nonempty_truthy (s : string) : s <> "" -> JS.truthy_str s = true.
Proof. destruct s; [contradiction|reflexivity]. Qed.

Lemma symbolFromDescription_truthy (tx : Tx) (sym : string) :
  symbolFromDescription tx = Some sym -> JS.truthy_str sym = true.
Proof.
  unfold symbolFromDescription.
  destruct (tx_description tx) as [d|]; [|discriminate].
  destruct (JS.truthy_str d); [|discriminate].
  destruct (Regex.search _ d) as [gs|] eqn:Hs; [|discriminate].
  apply search_nonempty in Hs.
  destruct gs as [|tok1 [|tok2 [|? ?]]]; try discriminate.
  inversion Hs as [|? ? H1 Hs']; subst. inversion Hs' as [|? ? H2 _]; subst.
  destruct (String.eqb _ "SOL"); intros [= <-]; apply nonempty_truthy; assumption.
Qed.

Lemma resolveSymbol_truthy (m : option MetadataMap) (db : Db.Database)
    (mint sym : string) :
  resolveSymbol m db mint = Some sym -> JS.truthy_str sym = true.
Proof.
  unfold resolveSymbol. destruct (negb _ || _); [discriminate|].
  assert (match Db.getCachedToken db mint with
          | Some cached =>
              if JS.truthy_str (Db.tc_symbol cached)
              then Some (Db.tc_symbol cached) else None
          | None => None
          end = Some sym -> JS.truthy_str sym = true) as Hcache.
  { destruct (Db.getCachedToken db mint) as [cached|]; [|discriminate].
    destruct (JS.truthy_str (Db.tc_symbol cached)) eqn:Ht; [|discriminate].
    intros [= <-]. exact Ht. }
  destruct (meta_lookup m mint) as [meta|]; [|exact Hcache].
  destruct (JS.truthy_str (meta_symbol meta)) eqn:Ht; cbn [andb]; [|exact Hcache].
  destruct (_ <=? 15)%nat; [|exact Hcache].
  intros [= <-]. exact Ht.
Qed.

(** A symbol found by Strategy 0 or Strategy 2 is never the empty string. *)
Lemma symbol_of_truthy (db : Db.Database) (tx : Tx) (m : option MetadataMap)
    (mint : string) :
  symbol_of db tx m mint <> None -> truthy_opt (symbol_of db tx m mint) = true.
Proof.
  unfold symbol_of, symbol_or.
  destruct (resolveSymbol m db mint) as [s|] eqn:Hr.
  - rewrite (resolveSymbol_truthy _ _ _ _ Hr). intros _. cbn. 
    exact (resolveSymbol_truthy _ _ _ _ Hr).
  - destruct (symbolFromDescription tx) as [s|] eqn:Hd; [|contradiction].
    intros _. cbn. exact (symbolFromDescription_truthy _ _ Hd).
Qed.

(** ** The pre-filter *)

Lemma empty_not_non_trade : "" ∉ NON_TRADE_TYPES.
Proof.
  intros H. apply (bool_decide_eq_true_2 _) in H.
  vm_compute in H. discriminate H.
Qed.

Lemma includes_nonempty (p s : string) :
  p <> "" -> JS.includes p s = true -> s <> "".
Proof. intros Hp H ->. destruct p; [contradiction|discriminate H]. Qed.

Lemma startsWith_nonempty (p s : string) :
  p <> "" -> JS.startsWith p s = true -> s <> "".
Proof. intros Hp H ->. destruct p; [contradiction|discriminate H]. Qed.

Lemma toLowerCase_nonempty (s : string) : JS.toLowerCase s <> "" -> s <> "".
Proof. intros H ->. apply H. reflexivity. Qed.

Lemma prefiltered_returns_null (db : Db.Database) (tx : Tx)
    (kolName kolAvatar walletAddress : string) (m : option MetadataMap) :
  prefiltered tx = true ->
  parseTransaction db tx kolName kolAvatar walletAddress m = None.
Proof. intros H. unfold parseTransaction. rewrite H. reflexivity. Qed.

(** C5 as stated fails: a description that starts with "staked" (followed
    by a comma, not a space) is parsed as a purchase. *)
Lemma parseTransaction_staked_prefix_not_null :
  JS.startsWith "staked" (JS.toLowerCase "staked, then swapped 1 SOL for 5 FOO") = true
  /\ parseTransaction Db.empty Samples.staked_swap_tx "Ansem" "" "walletA" None
     <> None.
Proof. split; [reflexivity|]. vm_compute. discriminate. Qed.

(** C5, amended: [parseTransaction] returns [null] for every transaction
    whose type is in the non-trade set, and for every transaction whose
    description, in lower case, contains the word " transferred " between
    spaces and not "swap", or starts with "burned ", "close " or "staked "
    (the word and a space). *)
Theorem parseTransaction_prefilter (db : Db.Database) (tx : Tx)
    (kolName kolAvatar walletAddress : string) (m : option MetadataMap) :
  (exists ty, tx_type tx = Some ty /\ ty ∈ NON_TRADE_TYPES)
  \/ (exists d, tx_description tx = Some d
        /\ ((JS.includes " transferred " (JS.toLowerCase d) = true
             /\ JS.includes "swap" (JS.toLowerCase d) = false)
            \/ JS.startsWith "burned " (JS.toLowerCase d) = true
            \/ JS.startsWith "close " (JS.toLowerCase d) = true
            \/ JS.startsWith "staked " (JS.toLowerCase d) = true)) ->
  parseTransaction db tx kolName kolAvatar walletAddress m = None.
Proof.
  intros H. apply prefiltered_returns_null. unfold prefiltered.
  destruct H as [(ty & Hty & Hin)|(d & Hd & Hdesc)].
  - rewrite Hty, (bool_decide_eq_true_2 _ Hin).
    destruct ty; [destruct (empty_not_non_trade Hin)|reflexivity].
  - rewrite Hd. apply orb_true_iff. right.
    unfold plain_transfer_description.
    assert (JS.truthy_str d = true) as ->.
    { apply nonempty_truthy, toLowerCase_nonempty.
      destruct Hdesc as [[H _]|[H|[H|H]]].
      - apply (includes_nonempty " transferred "); [discriminate|exact H].
      - apply (startsWith_nonempty "burned "); [discriminate|exact H].
      - apply (startsWith_nonempty "close "); [discriminate|exact H].
      - apply (startsWith_nonempty "staked "); [discriminate|exact H]. }
    cbn [andb].
    destruct Hdesc as [[H1 H2]|[H|[H|H]]].
    + rewrite H1, H2. reflexivity.
    + rewrite H. apply orb_true_iff. left. apply orb_true_iff. left.
      apply orb_true_r.
    + rewrite H. apply orb_true_iff. left. apply orb_true_r.
    + rewrite H. apply orb_true_r.
Qed.

Lemma parseTransaction_prefilter_witness :
  parseTransaction Db.empty Samples.burned_tx "Ansem" "" "walletA" None = None.
Proof.
  apply (parseTransaction_prefilter Db.empty Samples.burned_tx "Ansem" ""
           "walletA" None).
  right. exists "Burned 5 FOO". split; [reflexivity|].
  right. left. vm_compute. reflexivity.
Defined.

(** ** Strategy 0 on the swap event of the specification *)

Lemma one_and_a_half_sol :
  positive_leg (Some {| leg_amount := Some 1500000000%float |}) = true
  /\ lamports_to_sol (JS.num (Some 1500000000%float)) = 1.5%float
  /\ JS.gt 1.5 0 = true.
Proof. repeat split; vm_compute; reflexivity. Qed.

Lemma million_raw_units (t : SwapToken) (primaryTokenAmount : float) :
  st_rawTokenAmount t
  = Some {| raw_tokenAmount := Some 1000000%float; raw_decimals := Some 6%N |} ->
  leg_token_amount t primaryTokenAmount = 1%float.
Proof. intros H. unfold leg_token_amount. rewrite H. vm_compute. reflexivity. Qed.

(** C2 as stated fails: a transaction of type TRANSFER that carries the
    swap event, and whose token symbol resolves, is not classified. *)
Lemma parseTransaction_swap_event_prefiltered :
  tx_events (Samples.swap_event_tx "TRANSFER") ≫= swap = Some Samples.buy_swap
  /\ symbol_of Db.empty (Samples.swap_event_tx "TRANSFER") Samples.foo_metadata
       "mintFoo" = Some "FOO"
  /\ parseTransaction Db.empty (Samples.swap_event_tx "TRANSFER") "Ansem" ""
       "walletA" Samples.foo_metadata = None.
Proof. repeat split; vm_compute; reflexivity. Qed.

(** C2, amended: for every transaction that passes the pre-filter and
    carries a swap event whose native input is 1500000000 lamports and whose
    first token output with a mint other than wrapped SOL has 1,000,000 raw
    units at 6 decimals, if the symbol of that token resolves,
    [parseTransaction] returns a trade with action Buy, 1.5 SOL and token
    amount 1. *)
Theorem parseTransaction_swap_event_buy (db : Db.Database) (tx : Tx)
    (kolName kolAvatar walletAddress : string) (m : option MetadataMap)
    (sw : SwapEvent) (tokenOut : SwapToken) :
  prefiltered tx = false ->
  tx_events tx ≫= swap = Some sw ->
  nativeInput sw = Some {| leg_amount := Some 1500000000%float |} ->
  find_token_leg (tokenOutputs sw) = Some tokenOut ->
  st_rawTokenAmount tokenOut
  = Some {| raw_tokenAmount := Some 1000000%float; raw_decimals := Some 6%N |} ->
  symbol_of db tx m (JS.opt_or_else_str (st_mint tokenOut) (fst (primary tx)))
  <> None ->
  exists r,
    parseTransaction db tx kolName kolAvatar walletAddress m = Some r
    /\ action r = Some "Buy"
    /\ amountSol r = 1.5%float
    /\ tokenAmount r = 1%float.
Proof.
  intros Hpre Hsw Hin Hout Hraw Hsym.
  destruct one_and_a_half_sol as (Hpos & Hsol & Hgt).
  unfold parseTransaction. rewrite Hpre, Hsw.
  rewrite bool_decide_eq_true_2 by (eexists; reflexivity).
  unfold strategy0. rewrite Hout, Hin, Hpos. cbn [leg_amount].
  rewrite Hsol, (million_raw_units _ _ Hraw).
  unfold conclusive, assign. cbn [action amountSol tokenSymbol tokenAmount].
  rewrite Hgt, (symbol_of_truthy _ _ _ _ Hsym). cbn [truthy_opt JS.truthy_str andb].
  eexists. repeat split.
Qed.

Lemma parseTransaction_swap_event_buy_witness :
  exists r,
    parseTransaction Db.empty (Samples.swap_event_tx "SWAP") "Ansem" "" "walletA"
      Samples.foo_metadata = Some r
    /\ action r = Some "Buy"
    /\ amountSol r = 1.5%float
    /\ tokenAmount r = 1%float.
Proof.
  apply (parseTransaction_swap_event_buy Db.empty (Samples.swap_event_tx "SWAP")
           "Ansem" "" "walletA" Samples.foo_metadata Samples.buy_swap
           {| st_mint := Some "mintFoo";
              st_rawTokenAmount :=
                Some {| raw_tokenAmount := Some 1000000%float;
                        raw_decimals := Some 6%N |};
              st_tokenAmount := None |}).
  - vm_compute. reflexivity.
  - reflexivity.
  - reflexivity.
  - vm_compute. reflexivity.
  - reflexivity.
  - vm_compute. discriminate.
Defined.

(** ** What every returned trade satisfies *)

Lemma truthy_action (act : option string) :
  unset_or_trade act -> truthy_opt act = true ->
  act = Some "Buy" \/ act = Some "Sell".
Proof. intros [->|H] Ht; [discriminate Ht|exact H]. Qed.

Lemma strategy0_action (db : Db.Database) (tx : Tx) (m : option MetadataMap)
    (sw : SwapEvent) (result : Trade) :
  unset_or_trade (action result) ->
  unset_or_trade (action (strategy0 db tx m sw result)).
Proof.
  intros H. unfold strategy0, unset_or_trade.
  repeat case_match; cbn; auto.
Qed.

Lemma strategy1_result (tx : Tx) (m : option MetadataMap) (result r : Trade) :
  strategy1 tx m result = Some (Some r) ->
  (action r = Some "Buy" \/ action r = Some "Sell")
  /\ truthy_opt (tokenSymbol r) = true
  /\ tx_description tx ≫= Regex.search (Regex.swapped_for true) <> None.
Proof.
  unfold strategy1.
  destruct (tx_description tx ≫= _) as [gs|] eqn:Hs; [|discriminate].
  assert (Forall (fun g => g <> "") gs) as Hgs.
  { destruct (tx_description tx) as [d|]; [|discriminate Hs].
    exact (search_nonempty _ _ _ Hs). }
  destruct gs as [|amt1 [|tok1 [|amt2 [|tok2 [|? ?]]]]]; try discriminate.
  apply Forall_cons in Hgs as [_ Hgs]. apply Forall_cons in Hgs as [Htok1 Hgs].
  apply Forall_cons in Hgs as [_ Hgs]. apply Forall_cons in Hgs as [Htok2 _].
  destruct (String.eqb _ "SOL"); [|destruct (String.eqb _ "SOL")];
    intros [= <-]; cbn; repeat split; auto using nonempty_truthy; discriminate.
Qed.

Lemma strategy2_result (db : Db.Database) (tx : Tx) (walletAddress : string)
    (m : option MetadataMap) (result r : Trade) :
  unset_or_trade (action result) ->
  strategy2 db tx walletAddress m result = Some r ->
  (action r = Some "Buy" \/ action r = Some "Sell") /\ conclusive r = true.
Proof.
  intros Hact. unfold strategy2.
  destruct (tx_nativeTransfers tx) as [natives|]; [|discriminate].
  destruct (tx_tokenTransfers tx) as [[|tt tokens]|]; try discriminate.
  destruct (sol_flow walletAddress natives) as [solOut solIn].
  destruct (token_flow walletAddress (tt :: tokens)) as [tokenInInfo tokenOutInfo].
  cbv zeta.
  match goal with
  | |- context [truthy_opt (action ?res)] =>
      assert (unset_or_trade (action res)) as Hact';
        [unfold unset_or_trade; repeat case_match; cbn; auto|];
        generalize dependent res; intros result' Hact'
  end.
  destruct (truthy_opt (action result') && _) eqn:Hboth; [|discriminate].
  apply andb_true_iff in Hboth as [Ht Hgt].
  cbn [assign tokenSymbol].
  destruct (truthy_opt (symbol_of db tx m (tokenMint result'))) eqn:Hsym;
    [|discriminate].
  intros [= <-]. unfold conclusive. cbn [assign action amountSol tokenSymbol].
  rewrite Ht, Hgt, Hsym.
  split; [apply truthy_action; assumption|reflexivity].
Qed.

(** Every trade [parseTransaction] returns has action Buy or Sell and a
    symbol that is not empty; it is conclusive unless it comes from
    Strategy 1, that is, unless the description matches the "swapped ... for
    ..." pattern. *)
Lemma parseTransaction_result (db : Db.Database) (tx : Tx)
    (kolName kolAvatar walletAddress : string) (m : option MetadataMap) (r : Trade) :
  parseTransaction db tx kolName kolAvatar walletAddress m = Some r ->
  (action r = Some "Buy" \/ action r = Some "Sell")
  /\ truthy_opt (tokenSymbol r) = true
  /\ (tx_description tx ≫= Regex.search (Regex.swapped_for true) = None ->
      conclusive r = true).
Proof.
  unfold parseTransaction. destruct (prefiltered tx); [discriminate|].
  match goal with
  | |- context [conclusive ?a0] =>
      assert (unset_or_trade (action a0)) as Hact0;
        [destruct (tx_events tx ≫= swap);
           [apply strategy0_action|]; left; reflexivity|];
        generalize dependent a0; intros after0 Hact0
  end.
  destruct (bool_decide _ && conclusive after0) eqn:Hc.
  - intros [= <-]. apply andb_true_iff in Hc as [_ Hc].
    pose proof Hc as Hc'. unfold conclusive in Hc'.
    apply andb_true_iff in Hc' as [Hc' Hsym].
    apply andb_true_iff in Hc' as [Hact _].
    split; [apply truthy_action; assumption|]. split; [exact Hsym|]. intros _. exact Hc.
  - destruct (strategy1 tx m after0) as [[r1|]|] eqn:H1; try discriminate.
    + intros [= <-]. destruct (strategy1_result _ _ _ _ H1) as (Ha & Hs & Hm).
      split; [exact Ha|]. split; [exact Hs|]. intros Hnone. contradiction.
    + intros H2. destruct (strategy2_result _ _ _ _ _ _ Hact0 H2) as [Ha Hcon].
      split; [exact Ha|]. split; [|intros _; exact Hcon].
      unfold conclusive in Hcon. apply andb_true_iff in Hcon as [_ Hs]. exact Hs.
Qed.

(** ** Strategy 1 returns without the conclusiveness test *)

(** C1 at the failing input: the description "Ansem swapped 0 SOL for
    5 FOO" is returned by Strategy 1 as a purchase of FOO for 0 SOL, which
    is not greater than 0. *)
Theorem parseTransaction_zero_sol_swap :
  exists r,
    parseTransaction Db.empty Samples.zero_swap_tx "Ansem" "" "walletA" None = Some r
    /\ action r = Some "Buy"
    /\ tokenSymbol r = Some "FOO"
    /\ amountSol r = 0%float
    /\ JS.gt (amountSol r) 0 = false
    /\ conclusive r = false.
Proof. eexists. repeat split; vm_compute; reflexivity. Qed.

(** The same path lets an amount that is not a number through, and the
    validity filter accepts it: [NaN <= 0] is false. *)
Example parseTransaction_nan_amount_is_valid :
  exists r,
    parseTransaction Db.empty (Samples.described "SWAP" "Ansem swapped . SOL for 5 FOO")
      "Ansem" "" "walletA" None = Some r
    /\ is_nan (amountSol r) = true
    /\ isValidTrade (Some r) = true.
Proof. eexists. repeat split; vm_compute; reflexivity. Qed.

End Parser.

(* ================================================================== *)
(** * Properties of the recent-trades feed                             *)
(* ================================================================== *)

Section RecentFeed.

Import Db Feed.

Implicit Types (limit : Z) (kept l : list RecentTrade) (t : RecentTrade).

(** ** The greedy rule *)








(** ** The loop computes the greedy rule *)



(** ** The candidates are the newest eligible trades *)




Local Abbreviation newer_row :=
  (fun a b : TradeRow => (tx_timestamp b <= tx_timestamp a)%Z).

Lemma Forall_insert_desc (P : TradeRow -> Prop) (r : TradeRow) (rows : list TradeRow) :
  P r -> Forall P rows -> Forall P (insert_desc r rows).
Proof.
  intros Hr Hrows. induction Hrows as [|x rows Hx Hrows IH]; cbn.
  - constructor; [exact Hr|constructor].
  - destruct (_ <=? _)%Z; repeat constructor; assumption.
Qed.

Lemma insert_desc_sorted (r : TradeRow) (rows : list TradeRow) :
  StronglySorted newer_row rows -> StronglySorted newer_row (insert_desc r rows).
Proof.
  induction 1 as [|x rows Hsorted IH Hx]; cbn.
  - repeat constructor.
  - destruct (Z.leb_spec (tx_timestamp x) (tx_timestamp r)) as [Hle|Hgt].
    + constructor; [constructor; assumption|].
      constructor; [exact Hle|].
      eapply Forall_impl; [exact Hx|]. cbn. intros y Hy. lia.
    + constructor; [exact IH|].
      apply Forall_insert_desc; [lia|exact Hx].
Qed.

Lemma order_by_timestamp_desc_sorted (rows : list TradeRow) :
  StronglySorted newer_row (order_by_timestamp_desc rows).
Proof.
  unfold order_by_timestamp_desc. induction rows as [|r rows IH]; cbn.
  - constructor.
  - apply insert_desc_sorted. exact IH.
Qed.

Lemma Forall_sublist_of {A} (P : A -> Prop) (l1 l2 : list A) :
  l1 `sublist_of` l2 -> Forall P l2 -> Forall P l1.
Proof.
  induction 1 as [|x l1 l2 _ IH|x l1 l2 _ IH]; intros Hall.
  - constructor.
  - apply Forall_cons in Hall as [Hx Hall]. constructor; auto.
  - apply Forall_cons in Hall as [_ Hall]. auto.
Qed.

Lemma StronglySorted_sublist_of {A} (R : relation A) (l1 l2 : list A) :
  l1 `sublist_of` l2 -> StronglySorted R l2 -> StronglySorted R l1.
Proof.
  induction 1 as [|x l1 l2 Hsub IH|x l1 l2 _ IH]; intros Hsorted.
  - constructor.
  - apply StronglySorted_cons in Hsorted as [Hx Hsorted].
    constructor; [auto|]. exact (Forall_sublist_of _ _ _ Hsub Hx).
  - apply StronglySorted_cons in Hsorted as [_ Hsorted]. auto.
Qed.

Lemma sql_limit_sublist {A} (n : Z) (l : list A) : sql_limit n l `sublist_of` l.
Proof. unfold sql_limit. destruct (n <? 0)%Z; [reflexivity|apply sublist_take]. Qed.

Lemma candidates_newest_first (limit : Z) (db : Database) :
  newest_first (candidates limit db).
Proof.
  unfold newest_first, candidates, getRecentTradesRaw.
  eapply StronglySorted_sublist_of; [apply sublist_filter|].
  eapply (StronglySorted_fmap _ newer_row); [intros x y H; exact H|].
  eapply StronglySorted_sublist_of; [apply sql_limit_sublist|].
  apply order_by_timestamp_desc_sorted.
Qed.





(** The page of the specification's example: five trades of X and one of Y
    give, for a page of 3, the two newest of X and the one of Y. *)
Example feedTrades_five_and_one :
  (fun t => (kol_name (trade t), id (trade t)))
    <$> feedTrades (Some 3%Z) Samples.six_trades_db
  = [("X", 6); ("X", 5); ("Y", 3)].
Proof. vm_compute. reflexivity. Qed.

(** The window counts the rows that pass the filter of the query, before
    the deny-list filter of the route: 200 newer USDC rows, which the query
    leaves out, do not push the FOO row out of the window; 200 newer rows
    with the symbol in lower case, which only the route removes, do. *)
Example feedTrades_window_of_eligible_rows :
  (fun t => id (trade t)) <$> feedTrades (Some 3%Z) (Samples.crowded_db "USDC") = [1]
  /\ feedTrades (Some 3%Z) (Samples.crowded_db "usdc") = [].
Proof. split; vm_compute; reflexivity. Qed.

(** A trade of a KOL called "constructor" is never in the page. *)
Example feedTrades_inherited_key :
  (fun t => (kol_name (trade t), id (trade t)))
    <$> feedTrades (Some 3%Z) Samples.constructor_db
  = [("X", 2)].
Proof. vm_compute. reflexivity. Qed.

End RecentFeed.

(* ================================================================== *)
(** * More properties of the transaction parser                        *)
(* ================================================================== *)

Section ParserResults.

Import Classifier Invariants.

(** X1: a trade returned for a transaction whose description holds no
    "swapped ... for ..." text is a Buy or a Sell with a symbol that is not
    empty and a SOL amount greater than 0. *)
Theorem parseTransaction_positive_amount (db : Db.Database) (tx : Tx)
    (name avatar walletAddress : string) (m : option MetadataMap) (r : Trade) :
  tx_description tx ≫= Regex.search (Regex.swapped_for true) = None ->
  parseTransaction db tx name avatar walletAddress m = Some r ->
  (action r = Some "Buy" \/ action r = Some "Sell")
  /\ (exists sym, tokenSymbol r = Some sym /\ sym <> "")
  /\ JS.gt (amountSol r) 0 = true.
Proof.
  intros Hnone Hparse.
  destruct (parseTransaction_result _ _ _ _ _ _ _ Hparse) as (Hact & Hsym & Hcon).
  specialize (Hcon Hnone). split; [exact Hact|]. split.
  - destruct (tokenSymbol r) as [sym|]; [|discriminate Hsym].
    exists sym. split; [reflexivity|]. intros ->. discriminate Hsym.
  - unfold conclusive in Hcon. apply andb_true_iff in Hcon as [Hcon _].
    apply andb_true_iff in Hcon as [_ Hgt]. exact Hgt.
Qed.

Lemma parseTransaction_positive_amount_witness :
  (action MoreSamples.foo_buy = Some "Buy" \/ action MoreSamples.foo_buy = Some "Sell")
  /\ (exists sym, tokenSymbol MoreSamples.foo_buy = Some sym /\ sym <> "")
  /\ JS.gt (amountSol MoreSamples.foo_buy) 0 = true.
Proof.
  apply (parseTransaction_positive_amount Db.empty (Samples.swap_event_tx "SWAP")
           "Ansem" "" "walletA" Samples.foo_metadata MoreSamples.foo_buy).
  - vm_compute. reflexivity.
  - vm_compute. reflexivity.
Defined.

(** ** The two description patterns match the same texts *)

Lemma give_back_none_iff (rest rest' : string -> option (list string))
    (a b : bool) (s : string) (k : nat) :
  (forall s', rest s' = None <-> rest' s' = None) ->
  Regex.give_back rest a s k = None <-> Regex.give_back rest' b s k = None.
Proof.
  intros Hrest. induction k as [|k IH]; cbn [Regex.give_back]; [tauto|].
  pose proof (Hrest (JS.drop (S k) s)) as H.
  destruct (rest (JS.drop (S k) s)), (rest' (JS.drop (S k) s)).
  - split; discriminate.
  - destruct H as [_ H]. specialize (H eq_refl). discriminate H.
  - destruct H as [H _]. specialize (H eq_refl). discriminate H.
  - exact IH.
Qed.

Lemma match_here_none_iff (p q : list Regex.item) :
  same_shape p q ->
  forall s, Regex.match_here p s = None <-> Regex.match_here q s = None.
Proof.
  induction 1 as [|c p q _ IH|cls a b p q _ IH]; intros s; cbn [Regex.match_here].
  - tauto.
  - destruct s as [|x s']; [tauto|]. destruct (Regex.eqb_nocase c x); [apply IH|tauto].
  - apply give_back_none_iff. exact IH.
Qed.

Lemma search_none_iff (p q : list Regex.item) (s : string) :
  same_shape p q -> Regex.search p s = None <-> Regex.search q s = None.
Proof.
  intros Hshape. induction s as [|x s IH]; cbn [Regex.search];
    pose proof (match_here_none_iff p q Hshape) as Hm.
  - specialize (Hm ""). destruct (Regex.match_here p ""), (Regex.match_here q "");
      try tauto; destruct Hm as [H1 H2]; split; intros; try discriminate;
      first [specialize (H1 eq_refl); discriminate H1
            |specialize (H2 eq_refl); discriminate H2].
  - specialize (Hm (String x s)).
    destruct (Regex.match_here p (String x s)), (Regex.match_here q (String x s));
      try exact IH; destruct Hm as [H1 H2]; split; intros; try discriminate;
      first [specialize (H1 eq_refl); discriminate H1
            |specialize (H2 eq_refl); discriminate H2].
Qed.

Lemma lits_same_shape (s : string) (p q : list Regex.item) :
  same_shape p q -> same_shape (Regex.lits s ++ p) (Regex.lits s ++ q).
Proof. intros H. induction s; cbn; [exact H|constructor; assumption]. Qed.

Lemma swapped_for_same_shape :
  same_shape (Regex.swapped_for true) (Regex.swapped_for false).
Proof.
  unfold Regex.swapped_for. apply lits_same_shape. repeat constructor.
Qed.

(** When Strategy 1 finds no "swapped ... for ..." in the description,
    neither does [symbolFromDescription]. *)
Lemma symbolFromDescription_needs_match (tx : Tx) :
  tx_description tx ≫= Regex.search (Regex.swapped_for true) = None ->
  symbolFromDescription tx = None.
Proof.
  unfold symbolFromDescription. destruct (tx_description tx) as [d|]; [|reflexivity].
  intros H. change (Regex.search (Regex.swapped_for true) d = None) in H.
  apply (search_none_iff _ _ d swapped_for_same_shape) in H.
  rewrite H. destruct (JS.truthy_str d); reflexivity.
Qed.

(** ** Where the symbol of a trade comes from *)

Lemma symbol_of_without_description (db : Db.Database) (tx : Tx)
    (m : option MetadataMap) (mint : string) :
  symbolFromDescription tx = None ->
  symbol_of db tx m mint = resolveSymbol m db mint.
Proof.
  intros Hd. unfold symbol_of, symbol_or. rewrite Hd.
  destruct (resolveSymbol m db mint) as [s|] eqn:Hr; [|reflexivity].
  rewrite (resolveSymbol_truthy _ _ _ _ Hr). reflexivity.
Qed.

Lemma resolveSymbol_some_mint (m : option MetadataMap) (db : Db.Database)
    (mint sym : string) :
  resolveSymbol m db mint = Some sym -> mint <> "" /\ mint <> SOL_MINT.
Proof.
  unfold resolveSymbol. destruct mint as [|c mint]; [discriminate|].
  cbn [JS.truthy_str negb orb].
  destruct (String.eqb_spec (String c mint) SOL_MINT); [discriminate|].
  intros _. split; [discriminate|assumption].
Qed.

Lemma strategy0_symbol (db : Db.Database) (tx : Tx) (m : option MetadataMap)
    (sw : SwapEvent) (result : Trade) :
  strategy0 db tx m sw result = result
  \/ tokenSymbol (strategy0 db tx m sw result)
     = symbol_of db tx m (tokenMint (strategy0 db tx m sw result)).
Proof. unfold strategy0. repeat case_match; cbn; auto. Qed.

Lemma strategy2_symbol (db : Db.Database) (tx : Tx) (walletAddress : string)
    (m : option MetadataMap) (result r : Trade) :
  strategy2 db tx walletAddress m result = Some r ->
  tokenSymbol r = symbol_of db tx m (tokenMint r).
Proof.
  unfold strategy2. repeat case_match; try discriminate; intros [= <-]; reflexivity.
Qed.

Lemma strategy1_needs_match (tx : Tx) (m : option MetadataMap) (result : Trade) :
  tx_description tx ≫= Regex.search (Regex.swapped_for true) = None ->
  strategy1 tx m result = None.
Proof. intros H. unfold strategy1. rewrite H. reflexivity. Qed.

(** X2: a trade returned for a transaction whose description holds no
    "swapped ... for ..." text carries a mint that is neither empty nor
    wrapped SOL, and its symbol is the one [resolveSymbol] gives for that
    mint: the description fallback of Strategies 0 and 2 cannot supply it. *)
Theorem parseTransaction_symbol_from_resolver (db : Db.Database) (tx : Tx)
    (kolName kolAvatar walletAddress : string) (m : option MetadataMap)
    (r : Trade) :
  parseTransaction db tx kolName kolAvatar walletAddress m = Some r ->
  tx_description tx ≫= Regex.search (Regex.swapped_for true) = None ->
  tokenSymbol r = resolveSymbol m db (tokenMint r)
  /\ tokenMint r <> "" /\ tokenMint r <> SOL_MINT.
Proof.
  intros Hparse Hnone.
  destruct (parseTransaction_result _ _ _ _ _ _ _ Hparse) as (_ & Htruthy & _).
  assert (tokenSymbol r = symbol_of db tx m (tokenMint r)) as Hsym.
  { revert Hparse. unfold parseTransaction.
    destruct (prefiltered tx); [discriminate|].
    rewrite (strategy1_needs_match _ _ _ Hnone).
    destruct (tx_events tx ≫= swap) as [sw|].
    - destruct (bool_decide _ && conclusive _) eqn:Hc.
      + intros [= <-]. apply andb_true_iff in Hc as [_ Hc].
        match goal with
        | |- context [strategy0 db tx m sw ?res] =>
            destruct (strategy0_symbol db tx m sw res) as [Hsame|Hs]; [|exact Hs];
              rewrite Hsame in Hc; discriminate Hc
        end.
      + apply strategy2_symbol.
    - cbn [andb bool_decide]. destruct (bool_decide _ && _) eqn:Hc.
      + apply andb_true_iff in Hc as [_ Hc]. discriminate Hc.
      + apply strategy2_symbol. }
  rewrite (symbol_of_without_description _ _ _ _
             (symbolFromDescription_needs_match _ Hnone)) in Hsym.
  split; [exact Hsym|].
  rewrite Hsym in Htruthy.
  destruct (resolveSymbol m db (tokenMint r)) as [s|] eqn:Hr; [|discriminate Htruthy].
  exact (resolveSymbol_some_mint _ _ _ _ Hr).
Qed.

Lemma parseTransaction_symbol_from_resolver_witness :
  tokenSymbol MoreSamples.foo_buy
  = resolveSymbol Samples.foo_metadata Db.empty (tokenMint MoreSamples.foo_buy)
  /\ tokenMint MoreSamples.foo_buy <> ""
  /\ tokenMint MoreSamples.foo_buy <> SOL_MINT.
Proof.
  apply (parseTransaction_symbol_from_resolver Db.empty (Samples.swap_event_tx "SWAP")
           "Ansem" "" "walletA" Samples.foo_metadata MoreSamples.foo_buy).
  - vm_compute. reflexivity.
  - reflexivity.
Defined.

(** ** The context a trade carries *)

Lemma strategy0_context (db : Db.Database) (tx : Tx) (m : option MetadataMap)
    (sw : SwapEvent) (result : Trade) :
  Invariants.same_context (strategy0 db tx m sw result) result.
Proof.
  unfold strategy0, Invariants.same_context. repeat case_match; cbn; auto.
Qed.

Lemma strategy1_context (tx : Tx) (m : option MetadataMap) (result r : Trade) :
  strategy1 tx m result = Some (Some r) -> Invariants.same_context r result.
Proof.
  unfold strategy1, Invariants.same_context.
  repeat case_match; try discriminate; intros [= <-]; cbn; auto.
Qed.

Lemma strategy2_context (db : Db.Database) (tx : Tx) (walletAddress : string)
    (m : option MetadataMap) (result r : Trade) :
  strategy2 db tx walletAddress m result = Some r ->
  Invariants.same_context r result.
Proof.
  unfold strategy2, Invariants.same_context.
  repeat case_match; try discriminate; intros [= <-]; cbn; auto.
Qed.

Lemma or_else_str_nonempty (a b : string) : b <> "" -> JS.or_else_str a b <> "".
Proof. intros Hb. unfold JS.or_else_str. destruct a; [exact Hb|discriminate]. Qed.

Lemma parseTransaction_same_context (db : Db.Database) (tx : Tx)
    (name avatar walletAddress : string) (m : option MetadataMap)
    (r : Trade) :
  parseTransaction db tx name avatar walletAddress m = Some r ->
  Invariants.same_context r
    {| signature := tx_signature tx; timestamp := tx_timestamp tx;
       kolName := JS.or_else_str name "Unknown";
       kolAvatar := JS.or_else_str avatar "/logo.png";
       action := None; tokenSymbol := None; tokenMint := "";
       tokenAmount := 0; amountSol := 0 |}.
Proof.
  unfold parseTransaction.
  destruct (prefiltered tx); [discriminate|].
  match goal with
  | |- context [conclusive ?a0] =>
      assert (Invariants.same_context a0
                {| signature := tx_signature tx; timestamp := tx_timestamp tx;
                   kolName := JS.or_else_str name "Unknown";
                   kolAvatar := JS.or_else_str avatar "/logo.png";
                   action := None; tokenSymbol := None; tokenMint := "";
                   tokenAmount := 0; amountSol := 0 |}) as H0;
        [destruct (tx_events tx ≫= swap);
           [apply strategy0_context|repeat split]|];
        generalize dependent a0; intros after0 H0
  end.
  destruct (bool_decide _ && conclusive after0); [intros [= <-]; exact H0|].
  destruct (strategy1 tx m after0) as [[r1|]|] eqn:H1; try discriminate.
  - intros [= <-]. apply strategy1_context in H1.
    destruct H1 as (? & ? & ? & ?), H0 as (? & ? & ? & ?).
    repeat split; congruence.
  - intros H2. apply strategy2_context in H2.
    destruct H2 as (? & ? & ? & ?), H0 as (? & ? & ? & ?).
    repeat split; congruence.
Qed.

(** X3: whatever strategy produces it, a returned trade carries the
    signature and timestamp of the transaction and the KOL identity passed
    in, with "Unknown" and "/logo.png" standing in for an empty name or
    avatar; so its name and avatar are never empty. *)
Theorem parseTransaction_context (db : Db.Database) (tx : Tx)
    (name avatar walletAddress : string) (m : option MetadataMap)
    (r : Trade) :
  parseTransaction db tx name avatar walletAddress m = Some r ->
  signature r = tx_signature tx
  /\ timestamp r = tx_timestamp tx
  /\ kolName r = JS.or_else_str name "Unknown"
  /\ kolAvatar r = JS.or_else_str avatar "/logo.png"
  /\ kolName r <> "" /\ kolAvatar r <> "".
Proof.
  intros Hparse.
  destruct (parseTransaction_same_context _ _ _ _ _ _ _ Hparse) as (Hs & Ht & Hn & Ha).
  cbn in Hs, Ht, Hn, Ha. repeat split; try assumption.
  - rewrite Hn. apply or_else_str_nonempty. discriminate.
  - rewrite Ha. apply or_else_str_nonempty. discriminate.
Qed.

Lemma parseTransaction_context_witness :
  signature MoreSamples.foo_buy = tx_signature (Samples.swap_event_tx "SWAP")
  /\ timestamp MoreSamples.foo_buy = tx_timestamp (Samples.swap_event_tx "SWAP")
  /\ kolName MoreSamples.foo_buy = JS.or_else_str "Ansem" "Unknown"
  /\ kolAvatar MoreSamples.foo_buy = JS.or_else_str "" "/logo.png"
  /\ kolName MoreSamples.foo_buy <> "" /\ kolAvatar MoreSamples.foo_buy <> "".
Proof.
  apply (parseTransaction_context Db.empty (Samples.swap_event_tx "SWAP")
           "Ansem" "" "walletA" Samples.foo_metadata MoreSamples.foo_buy).
  vm_compute. reflexivity.
Defined.

End ParserResults.

(* ================================================================== *)
(** * Properties of the scan loop                                      *)
(* ================================================================== *)

Section ScanLoop.

Import Classifier Invariants.

(** ** The parser reads the database through the token cache only *)

Lemma symbol_of_cache_only (db db' : Db.Database) (tx : Tx)
    (m : option MetadataMap) (mint : string) :
  Db.token_cache db = Db.token_cache db' ->
  symbol_of db tx m mint = symbol_of db' tx m mint.
Proof.
  intros H. unfold symbol_of, resolveSymbol, Db.getCachedToken. rewrite H.
  reflexivity.
Qed.

Lemma parseTransaction_cache_only (db db' : Db.Database) (tx : Tx)
    (name avatar walletAddress : string) (m : option MetadataMap) :
  Db.token_cache db = Db.token_cache db' ->
  parseTransaction db tx name avatar walletAddress m
  = parseTransaction db' tx name avatar walletAddress m.
Proof.
  intros H. unfold parseTransaction.
  destruct (prefiltered tx); [reflexivity|].
  assert (forall sw res, strategy0 db tx m sw res = strategy0 db' tx m sw res) as H0.
  { intros sw res. unfold strategy0.
    repeat case_match; rewrite ?(symbol_of_cache_only db db' _ _ _ H); reflexivity. }
  assert (forall res, strategy2 db tx walletAddress m res
                      = strategy2 db' tx walletAddress m res) as H2.
  { intros res. unfold strategy2.
    repeat case_match; cbn [assign tokenSymbol tokenMint] in *;
      rewrite ?(symbol_of_cache_only db db' _ _ _ H) in *; congruence. }
  destruct (tx_events tx ≫= swap); rewrite ?H0, H2; reflexivity.
Qed.

Lemma storable_cache_only (db db' : Db.Database) (wallet name avatar : string)
    (m : option MetadataMap) (tx : Tx) :
  Db.token_cache db = Db.token_cache db' ->
  storable db wallet name avatar m tx = storable db' wallet name avatar m tx.
Proof.
  intros H. unfold storable.
  rewrite (parseTransaction_cache_only db db' _ _ _ _ _ H). reflexivity.
Qed.

(** ** One turn of the loop *)

Lemma storeTrade_row (now : Z) (wallet sig : string) (t : Trade) (db : Db.Database) :
  Ingest.storeTrade now wallet sig t db
  = if Db.signature_taken sig (Db.kol_trades db) then Db.Info 0 db
    else Db.Info 1 (with_row db (row_of now wallet sig t (S (Db.kol_trades_seq db)))).
Proof.
  unfold Ingest.storeTrade, Db.insertTrade, Db.insert_kol_trades.
  destruct (Db.signature_taken sig (Db.kol_trades db)); reflexivity.
Qed.

Lemma saveTrades_fold (now : Z) (wallet name avatar : string)
    (m : option MetadataMap) (txs : list Tx) (db : Db.Database) :
  Ingest.saveTrades now wallet name avatar m txs db
  = fold_left (save_step now wallet name avatar m) txs (db, 0).
Proof.
  unfold Ingest.saveTrades. generalize 0 as n. revert db.
  induction txs as [|tx txs IH]; intros db n; [reflexivity|].
  cbn [fold_left].
  match goal with
  | |- fold_left _ txs ?a = fold_left _ txs ?b =>
      assert (a = b) as ->; [|destruct b as [db' n']; apply IH]
  end.
  unfold save_step, storable. cbn [fst snd].
  destruct (parseTransaction db tx name avatar wallet m) as [t|]; [|reflexivity].
  destruct (isValidTrade (Some t)); [|reflexivity].
  destruct (signature t) as [sig|]; [|reflexivity].
  destruct (JS.truthy_str sig); [|reflexivity].
  rewrite storeTrade_row.
  destruct (Db.signature_taken sig (Db.kol_trades db)); reflexivity.
Qed.

Section Loop.

Variables (now : Z) (wallet name avatar : string) (m : option MetadataMap).

Local Abbreviation step := (save_step now wallet name avatar m).
Local Abbreviation wanted :=
  (fun db tx => is_Some (storable db wallet name avatar m tx)).

Lemma save_step_cache (acc : Db.Database * nat) (tx : Tx) :
  Db.token_cache (fst (step acc tx)) = Db.token_cache (fst acc).
Proof.
  unfold save_step. destruct (storable _ _ _ _ _ tx) as [[sig t]|]; [|reflexivity].
  cbn [fst]. destruct (Db.signature_taken _ _); reflexivity.
Qed.

Lemma save_fold_cache (txs : list Tx) (acc : Db.Database * nat) :
  Db.token_cache (fst (fold_left step txs acc)) = Db.token_cache (fst acc).
Proof.
  revert acc. induction txs as [|tx txs IH]; intros acc; [reflexivity|].
  cbn [fold_left]. rewrite IH. apply save_step_cache.
Qed.

Lemma save_step_prefix (acc : Db.Database * nat) (tx : Tx) :
  Db.kol_trades (fst acc) `prefix_of` Db.kol_trades (fst (step acc tx)).
Proof.
  unfold save_step. destruct (storable _ _ _ _ _ tx) as [[sig t]|]; [|reflexivity].
  cbn [fst]. destruct (Db.signature_taken _ _); [reflexivity|].
  cbn. apply prefix_app_r. reflexivity.
Qed.

Lemma save_fold_prefix (txs : list Tx) (acc : Db.Database * nat) :
  Db.kol_trades (fst acc) `prefix_of` Db.kol_trades (fst (fold_left step txs acc)).
Proof.
  revert acc. induction txs as [|tx txs IH]; intros acc; [reflexivity|].
  cbn [fold_left]. etransitivity; [apply save_step_prefix|apply IH].
Qed.

(** The counter counts every storable transaction, stored or not. *)
Lemma save_fold_count (txs : list Tx) (acc : Db.Database * nat) :
  snd (fold_left step txs acc)
  = snd acc + length (filter (wanted (fst acc)) txs).
Proof.
  revert acc. induction txs as [|tx txs IH]; intros acc; cbn [fold_left].
  - cbn. lia.
  - rewrite IH, filter_cons.
    rewrite (list_filter_iff (wanted (fst (step acc tx))) (wanted (fst acc)))
      by (intros tx'; rewrite (storable_cache_only _ (fst acc));
          [reflexivity|apply save_step_cache]).
    unfold save_step.
    destruct (storable (fst acc) wallet name avatar m tx) as [[sig t]|] eqn:Hs.
    + rewrite decide_True by eauto. cbn. lia.
    + rewrite decide_False by (intros [? ?]; discriminate). lia.
Qed.

Lemma save_step_covers (acc : Db.Database * nat) (tx : Tx) (sig : string) (t : Trade) :
  storable (fst acc) wallet name avatar m tx = Some (sig, t) ->
  sig ∈ Db.signature <$> Db.kol_trades (fst (step acc tx)).
Proof.
  intros Hs. unfold save_step. rewrite Hs. cbn [fst].
  destruct (Db.signature_taken sig (Db.kol_trades (fst acc))) eqn:Htaken.
  - apply signature_taken_spec. exact Htaken.
  - cbn. rewrite fmap_app. apply elem_of_app. right. cbn. left.
Qed.

Lemma prefix_signatures (db db' : Db.Database) (sig : string) :
  Db.kol_trades db `prefix_of` Db.kol_trades db' ->
  sig ∈ Db.signature <$> Db.kol_trades db ->
  sig ∈ Db.signature <$> Db.kol_trades db'.
Proof.
  intros [rest ->]. rewrite fmap_app, elem_of_app. auto.
Qed.

(** After the loop every storable transaction has its signature stored. *)
Lemma save_fold_covers (txs : list Tx) (acc : Db.Database * nat) (tx : Tx)
    (sig : string) (t : Trade) :
  tx ∈ txs ->
  storable (fst acc) wallet name avatar m tx = Some (sig, t) ->
  sig ∈ Db.signature <$> Db.kol_trades (fst (fold_left step txs acc)).
Proof.
  revert acc. induction txs as [|tx' txs IH]; intros acc Hin Hs; [inversion Hin|].
  cbn [fold_left]. apply elem_of_cons in Hin as [->|Hin].
  - eapply prefix_signatures; [apply save_fold_prefix|].
    apply (save_step_covers acc tx' sig t Hs).
  - apply IH; [exact Hin|].
    rewrite (storable_cache_only _ (fst acc)); [exact Hs|apply save_step_cache].
Qed.

(** When every storable signature is stored already, the loop changes
    nothing and still counts. *)
Lemma save_fold_noop (txs : list Tx) (acc : Db.Database * nat) :
  (forall tx sig t, tx ∈ txs ->
     storable (fst acc) wallet name avatar m tx = Some (sig, t) ->
     sig ∈ Db.signature <$> Db.kol_trades (fst acc)) ->
  fold_left step txs acc
  = (fst acc, snd acc + length (filter (wanted (fst acc)) txs)).
Proof.
  revert acc. induction txs as [|tx txs IH]; intros [db n] Hall; cbn [fold_left fst snd].
  - cbn. f_equal. lia.
  - cbn [fst snd] in Hall.
    assert (step (db, n) tx
            = (db, n + (if decide (wanted db tx) then 1 else 0))) as ->.
    { unfold save_step. cbn [fst snd].
      destruct (storable db wallet name avatar m tx) as [[sig t]|] eqn:Hs.
      - rewrite (proj2 (signature_taken_spec _ _)
                   (Hall tx sig t ltac:(left) Hs)).
        rewrite decide_True by eauto. f_equal. lia.
      - rewrite decide_False by (intros [? ?]; discriminate).
        f_equal. lia. }
    rewrite IH; cbn [fst snd].
    + rewrite filter_cons. f_equal. destruct (decide (wanted db tx)); cbn; lia.
    + intros tx' sig t Hin. apply Hall. right. exact Hin.
Qed.

End Loop.

(** X4: running the scan loop a second time over the same transactions
    changes nothing in the database, and it reports the same number again:
    the counter [saved] counts every transaction that parses to a valid
    trade with a signature, whether its row was inserted or ignored as a
    duplicate.  The loop never touches the token cache and only appends to
    the stored trades. *)
Theorem saveTrades_twice (now now' : Z) (wallet name avatar : string)
    (m : option MetadataMap) (txs : list Tx) (db : Db.Database) :
  Ingest.saveTrades now' wallet name avatar m txs
    (fst (Ingest.saveTrades now wallet name avatar m txs db))
  = Ingest.saveTrades now wallet name avatar m txs db
  /\ snd (Ingest.saveTrades now wallet name avatar m txs db)
     = length (filter (fun tx => is_Some (storable db wallet name avatar m tx)) txs)
  /\ Db.token_cache (fst (Ingest.saveTrades now wallet name avatar m txs db))
     = Db.token_cache db
  /\ Db.kol_trades db
       `prefix_of` Db.kol_trades (fst (Ingest.saveTrades now wallet name avatar m txs db)).
Proof.
  rewrite !saveTrades_fold.
  pose proof (save_fold_cache now wallet name avatar m txs (db, 0)) as Hcache.
  pose proof (save_fold_count now wallet name avatar m txs (db, 0)) as Hcount.
  pose proof (save_fold_prefix now wallet name avatar m txs (db, 0)) as Hprefix.
  pose proof (fun tx sig t =>
                save_fold_covers now wallet name avatar m txs (db, 0) tx sig t)
    as Hcovers.
  destruct (fold_left (save_step now wallet name avatar m) txs (db, 0))
    as [db1 n1].
  cbn [fst snd] in *.
  split; [|split; [exact Hcount|split; [exact Hcache|exact Hprefix]]].
  rewrite save_fold_noop; cbn [fst snd].
  - f_equal. rewrite Hcount. cbn [Nat.add]. f_equal. apply list_filter_iff.
    intros tx. rewrite (storable_cache_only _ db); [reflexivity|exact Hcache].
  - intros tx sig t Hin Hs. apply (Hcovers tx sig t Hin).
    rewrite <- Hs. symmetry. apply storable_cache_only. exact Hcache.
Qed.

(** ** What the loop writes *)

Lemma isValidTrade_accepts (t : Trade) :
  isValidTrade (Some t) = true ->
  exists act sym,
    action t = Some act /\ (act = "Buy" \/ act = "Sell")
    /\ tokenSymbol t = Some sym /\ sym <> ""
    /\ (String.length sym <= 15)%nat
    /\ Regex.looks_like_hex sym = false
    /\ JS.le (amountSol t) 0 = false
    /\ (sym ∉ SKIP_TOKENS) /\ (tokenMint t ∉ SKIP_MINTS).
Proof.
  unfold isValidTrade.
  destruct (action t) as [act|]; [|discriminate].
  destruct (String.eqb_spec act "Buy") as [HB|HB];
    destruct (String.eqb_spec act "Sell") as [HS|HS]; cbn [orb negb];
    try discriminate.
  all: destruct (tokenSymbol t) as [sym|]; [|discriminate].
  all: destruct (JS.truthy_str sym) eqn:Hsym; cbn [negb orb]; [|discriminate].
  all: destruct (Nat.ltb_spec 15 (String.length sym)); [discriminate|].
  all: destruct (Regex.looks_like_hex sym) eqn:Hhex; [discriminate|].
  all: destruct (JS.le (amountSol t) 0); [discriminate|].
  all: destruct (bool_decide (sym ∈ SKIP_TOKENS)) eqn:Hskip; [discriminate|].
  all: destruct (JS.truthy_str (tokenMint t) && _) eqn:Hmint; [discriminate|].
  all: intros _; exists act, sym; repeat split; auto; try lia.
  all: try (intros ->; discriminate Hsym).
  all: try (apply bool_decide_eq_false_1 in Hskip; exact Hskip).
  all: intros Hin; rewrite (in_skip_mints_truthy _ Hin) in Hmint;
    rewrite (bool_decide_eq_true_2 _ Hin) in Hmint; discriminate Hmint.
Qed.

Lemma or_else_str_empty (a : string) : JS.or_else_str a "" = a.
Proof. destruct a; reflexivity. Qed.

Lemma storable_row (db : Db.Database) (now : Z) (wallet name avatar : string)
    (m : option MetadataMap) (tx : Tx) (sig : string) (t : Trade) (rowid : nat) :
  storable db wallet name avatar m tx = Some (sig, t) ->
  scanned_row wallet name (row_of now wallet sig t rowid)
  /\ tx_signature tx = Some sig
  /\ Db.tx_timestamp (row_of now wallet sig t rowid) = default 0%Z (tx_timestamp tx).
Proof.
  unfold storable.
  destruct (parseTransaction db tx name avatar wallet m) as [t'|] eqn:Hparse;
    [|discriminate].
  destruct (isValidTrade (Some t')) eqn:Hvalid; [|discriminate].
  destruct (signature t') as [sig'|] eqn:Hsig; [|discriminate].
  destruct (JS.truthy_str sig') eqn:Htruthy; [|discriminate].
  intros [= <- <-].
  destruct (parseTransaction_same_context _ _ _ _ _ _ _ Hparse)
    as (Hs & Hts & Hname & _).
  cbn in Hs, Hts, Hname.
  destruct (isValidTrade_accepts _ Hvalid)
    as (act & sym & Hact & Hbs & Hsym & Hne & Hlen & _ & _ & Hskip & Hmint).
  split; [|split; [congruence|cbn; rewrite Hts; reflexivity]].
  unfold scanned_row, row_of. cbn. rewrite Hact, Hsym, or_else_str_empty. cbn.
  repeat split; auto.
  intros ->. discriminate Htruthy.
Qed.

Lemma save_fold_rows (now : Z) (wallet name avatar : string)
    (m : option MetadataMap) (txs : list Tx) (acc : Db.Database * nat)
    (row : Db.TradeRow) :
  row ∈ Db.kol_trades (fst (fold_left (save_step now wallet name avatar m) txs acc)) ->
  row ∈ Db.kol_trades (fst acc)
  \/ (scanned_row wallet name row
      /\ exists tx, tx ∈ txs /\ tx_signature tx = Some (Db.signature row)
                    /\ Db.tx_timestamp row = default 0%Z (tx_timestamp tx)).
Proof.
  revert acc. induction txs as [|tx txs IH]; intros acc Hin; [left; exact Hin|].
  cbn [fold_left] in Hin.
  apply IH in Hin as [Hin|(Hrow & tx' & Htx' & Hsig & Hts)].
  - unfold save_step in Hin.
    destruct (storable (fst acc) wallet name avatar m tx) as [[sig t]|] eqn:Hs;
      [|left; exact Hin].
    cbn [fst] in Hin.
    destruct (Db.signature_taken sig (Db.kol_trades (fst acc))); [left; exact Hin|].
    cbn in Hin. apply elem_of_app in Hin as [Hin|Hin]; [left; exact Hin|].
    apply list_elem_of_singleton in Hin. subst row. right.
    destruct (storable_row _ now _ _ _ _ _ _ _ (S (Db.kol_trades_seq (fst acc))) Hs)
      as (Hrow & Hsig & Hts).
    split; [exact Hrow|]. exists tx. split; [left|split; [exact Hsig|exact Hts]].
  - right. split; [exact Hrow|]. exists tx'.
    split; [right; exact Htx'|split; [exact Hsig|exact Hts]].
Qed.

(** X5: every row the scan loop adds is a vetted trade of the scanned
    wallet: it carries that wallet and the KOL name passed in ("Unknown" for
    an empty one), its action is Buy or Sell, its symbol is not empty, has
    at most 15 characters and is not deny-listed, its mint is not
    deny-listed, and its signature and timestamp are the non-empty
    signature and the timestamp (0 for a missing one) of one of the scanned
    transactions. *)
Theorem saveTrades_rows (now : Z) (wallet name avatar : string)
    (m : option MetadataMap) (txs : list Tx) (db : Db.Database)
    (row : Db.TradeRow) :
  row ∈ Db.kol_trades (fst (Ingest.saveTrades now wallet name avatar m txs db)) ->
  row ∈ Db.kol_trades db
  \/ (scanned_row wallet name row
      /\ exists tx, tx ∈ txs /\ tx_signature tx = Some (Db.signature row)
                    /\ Db.tx_timestamp row = default 0%Z (tx_timestamp tx)).
Proof. rewrite saveTrades_fold. apply save_fold_rows. Qed.

Lemma saveTrades_rows_witness :
  MoreSamples.foo_buy_row ∈ Db.kol_trades Db.empty
  \/ (scanned_row "walletA" "Ansem" MoreSamples.foo_buy_row
      /\ exists tx, tx ∈ [Samples.swap_event_tx "SWAP"]
                    /\ tx_signature tx = Some (Db.signature MoreSamples.foo_buy_row)
                    /\ Db.tx_timestamp MoreSamples.foo_buy_row
                       = default 0%Z (tx_timestamp tx)).
Proof.
  apply (saveTrades_rows 7 "walletA" "Ansem" "" Samples.foo_metadata
           [Samples.swap_event_tx "SWAP"] Db.empty MoreSamples.foo_buy_row).
  vm_compute. left.
Defined.

End ScanLoop.

(* ================================================================== *)
(** * Properties of the token-metadata batch                           *)
(* ================================================================== *)

Section MetadataMaps.

Import Classifier Invariants.

Lemma metadata_fold_lookup (db : Db.Database) (mints : list string)
    (results : MetadataMap) (mint : string) :
  meta_lookup (Some (fold_left (Ingest.metadata_step db) mints results)) mint
  = if bool_decide (mint ∈ mints) then
      if String.eqb mint SOL_MINT then Some Samples.wrapped_sol_meta
      else cached_meta db mint
    else meta_lookup (Some results) mint.
Proof.
  revert results. induction mints as [|x mints IH]; intros results.
  - rewrite bool_decide_eq_false_2 by (intros H; inversion H). reflexivity.
  - cbn [fold_left]. rewrite IH.
    destruct (decide (mint ∈ mints)) as [Hin|Hout].
    + rewrite !bool_decide_eq_true_2; [reflexivity|right; exact Hin|exact Hin].
    + rewrite (bool_decide_eq_false_2 _ Hout).
      destruct (decide (mint = x)) as [->|Hne].
      * rewrite bool_decide_eq_true_2 by left.
        unfold Ingest.metadata_step.
        destruct (String.eqb x SOL_MINT); apply obj_set_lookup.
      * rewrite bool_decide_eq_false_2
          by (intros H; apply elem_of_cons in H as [?|?]; contradiction).
        unfold Ingest.metadata_step.
        destruct (String.eqb x SOL_MINT);
          apply obj_set_lookup_other; congruence.
Qed.

(** The map of a batch has an entry exactly for the mints asked for: the
    fixed one for wrapped SOL, the cached name, symbol and image for a
    cached mint. *)
Lemma metadata_results_lookup (db : Db.Database) (mints : list string)
    (mint : string) :
  meta_lookup (Some (Ingest.metadata_results db mints)) mint
  = if bool_decide (mint ∈ mints) then
      if String.eqb mint SOL_MINT then Some Samples.wrapped_sol_meta
      else cached_meta db mint
    else None.
Proof. unfold Ingest.metadata_results. apply metadata_fold_lookup. Qed.

(** X6: with the map [batchGetTokenMetadata] builds from a database, the
    resolver's answer for any mint is decided by the token cache of that
    database alone: [null] for the empty and the wrapped-SOL mint, else the
    cached symbol when it is not empty, whatever its length and whether or
    not the mint was in the batch. *)
Theorem resolveSymbol_is_cached_symbol (db : Db.Database) (mints : list string)
    (mint : string) :
  resolveSymbol (Some (Ingest.metadata_results db mints)) db mint
  = if negb (JS.truthy_str mint) || String.eqb mint SOL_MINT then None
    else cached_symbol db mint.
Proof.
  unfold resolveSymbol. destruct (negb _ || _) eqn:Hguard; [reflexivity|].
  apply orb_false_iff in Hguard as [_ Hsol].
  rewrite metadata_results_lookup, Hsol.
  unfold cached_symbol, cached_meta, Db.getCachedToken.
  destruct (bool_decide (mint ∈ mints)); [|reflexivity].
  destruct (Db.token_cache db !! mint) as [cached|]; [|reflexivity].
  cbn [meta_symbol].
  destruct (JS.truthy_str (Db.tc_symbol cached)); [|reflexivity].
  destruct (_ <=? 15)%nat; reflexivity.
Qed.

(** ** The requests of a batch *)

Section Requests.

Import Metadata.

Variable source : nat -> list string -> Response.
Variables (HELIUS_ENABLED : bool) (HELIUS_API_KEY : string).

Lemma cache_token_trades (now : Z) (db : Db.Database) (token : HeliusToken) :
  Db.kol_trades (cache_token now db token) = Db.kol_trades db
  /\ Db.kol_trades_seq (cache_token now db token) = Db.kol_trades_seq db.
Proof. unfold cache_token. destruct (JS.truthy_str _); split; reflexivity. Qed.

Lemma cache_tokens_trades (now : Z) (data : list HeliusToken) (db : Db.Database) :
  Db.kol_trades (fold_left (cache_token now) data db) = Db.kol_trades db
  /\ Db.kol_trades_seq (fold_left (cache_token now) data db) = Db.kol_trades_seq db.
Proof.
  revert db. induction data as [|token data IH]; intros db; [split; reflexivity|].
  cbn [fold_left]. destruct (IH (cache_token now db token)) as [-> ->].
  apply cache_token_trades.
Qed.

(** What the chunk loop sends: new requests after the old ones, each a
    non-empty piece of at most 100 mints, together a prefix of [left]. *)
Lemma request_chunks_log (now : Z) (turns : nat) (left : list string)
    (db : Db.Database) (log : list (list string)) :
  exists new,
    snd (request_chunks source now turns left (db, log)) = log ++ new
    /\ Forall (fun chunk => chunk <> [] /\ length chunk <= 100) new
    /\ concat new `prefix_of` left
    /\ Db.kol_trades (fst (request_chunks source now turns left (db, log)))
       = Db.kol_trades db
    /\ Db.kol_trades_seq (fst (request_chunks source now turns left (db, log)))
       = Db.kol_trades_seq db.
Proof.
  revert left db log. induction turns as [|turns IH]; intros left db log.
  - exists []. cbn. rewrite app_nil_r. repeat split; [constructor|apply prefix_nil].
  - destruct left as [|x left'].
    { exists []. cbn. rewrite app_nil_r. repeat split; [constructor|apply prefix_nil]. }
    cbn [request_chunks].
    set (chunk := take 100 (x :: left')).
    assert (chunk <> [] /\ length chunk <= 100) as Hchunk.
    { split; [discriminate|]. unfold chunk. rewrite length_take. lia. }
    assert (chunk `prefix_of` x :: left') as Hpre by apply prefix_take.
    destruct (source (length log) chunk) as [| | |data].
    + exists [chunk]. cbn. rewrite app_nil_r. repeat split; auto.
    + destruct (IH (drop 100 (x :: left')) db (log ++ [chunk]))
        as (new & Hlog & Hall & Hcat & Htr & Hseq).
      exists (chunk :: new). rewrite Hlog, <- app_assoc. cbn [app].
      repeat split; auto.
      cbn [concat]. destruct Hcat as [rest Hrest].
      exists rest. rewrite <- app_assoc, <- Hrest. subst chunk.
      symmetry. apply take_drop.
    + exists [chunk]. cbn. rewrite app_nil_r. repeat split; auto.
    + destruct (IH (drop 100 (x :: left')) (fold_left (cache_token now) data db)
                  (log ++ [chunk]))
        as (new & Hlog & Hall & Hcat & Htr & Hseq).
      destruct (cache_tokens_trades now data db) as [Htr' Hseq'].
      exists (chunk :: new). rewrite Hlog, <- app_assoc. cbn [app].
      repeat split; auto; try congruence.
      cbn [concat]. destruct Hcat as [rest Hrest].
      exists rest. rewrite <- app_assoc, <- Hrest. subst chunk.
      symmetry. apply take_drop.
Qed.

Lemma batchGetTokenMetadata_trades (now : Z) (mints : list string) (st : State) :
  Db.kol_trades
    (fst (fst (batchGetTokenMetadata source HELIUS_ENABLED HELIUS_API_KEY now mints st)))
  = Db.kol_trades (fst st)
  /\ Db.kol_trades_seq
       (fst (fst (batchGetTokenMetadata source HELIUS_ENABLED HELIUS_API_KEY now mints st)))
     = Db.kol_trades_seq (fst st).
Proof.
  unfold batchGetTokenMetadata. destruct (negb HELIUS_ENABLED || _); [split; reflexivity|].
  destruct st as [db log]. cbn [fst snd].
  destruct (request_chunks_log now (length (List.filter (needs_fetch db) mints))
              (List.filter (needs_fetch db) mints) db log)
    as (_ & _ & _ & _ & Htr & Hseq).
  split; assumption.
Qed.

(** X7: a metadata batch asks the source only for mints of the batch that
    are not wrapped SOL and were not cached when it started, in requests of
    at most 100 mints that follow the order of the batch; it leaves the
    stored trades alone; with Helius switched off it sends nothing and
    returns the empty map. *)
Theorem batchGetTokenMetadata_requests (now : Z) (mints : list string)
    (db : Db.Database) (log : list (list string)) :
  exists new,
    snd (fst (batchGetTokenMetadata source HELIUS_ENABLED HELIUS_API_KEY now
                mints (db, log))) = log ++ new
    /\ Forall (fun chunk => chunk <> [] /\ length chunk <= 100) new
    /\ concat new `prefix_of` List.filter (needs_fetch db) mints
    /\ (forall mint, mint ∈ concat new ->
          mint ∈ mints /\ mint <> SOL_MINT /\ Db.token_cache db !! mint = None)
    /\ Db.kol_trades
         (fst (fst (batchGetTokenMetadata source HELIUS_ENABLED HELIUS_API_KEY now
                      mints (db, log)))) = Db.kol_trades db
    /\ (HELIUS_ENABLED = false ->
        new = []
        /\ snd (batchGetTokenMetadata source HELIUS_ENABLED HELIUS_API_KEY now
                  mints (db, log)) = []).
Proof.
  unfold batchGetTokenMetadata.
  destruct (negb HELIUS_ENABLED || _) eqn:Hoff.
  - exists []. cbn. rewrite app_nil_r.
    repeat split; auto; try constructor; try apply prefix_nil.
    all: match goal with H : _ ∈ [] |- _ => inversion H end.
  - cbn [fst snd].
    destruct (request_chunks_log now (length (List.filter (needs_fetch db) mints))
                (List.filter (needs_fetch db) mints) db log)
      as (new & Hlog & Hall & Hcat & Htr & _).
    exists new. repeat split; auto.
    + destruct Hcat as [rest Hrest].
      assert (mint ∈ List.filter (needs_fetch db) mints) as Hin
        by (rewrite Hrest; apply elem_of_app; left; assumption).
      apply list_elem_of_In, List.filter_In in Hin as [Hin _].
      apply list_elem_of_In. exact Hin.
    + destruct Hcat as [rest Hrest].
      assert (mint ∈ List.filter (needs_fetch db) mints) as Hin
        by (rewrite Hrest; apply elem_of_app; left; assumption).
      apply list_elem_of_In, List.filter_In in Hin as [_ Hneed].
      unfold needs_fetch in Hneed. apply andb_true_iff in Hneed as [Hsol _].
      intros ->. rewrite String.eqb_refl in Hsol. discriminate Hsol.
    + destruct Hcat as [rest Hrest].
      assert (mint ∈ List.filter (needs_fetch db) mints) as Hin
        by (rewrite Hrest; apply elem_of_app; left; assumption).
      apply list_elem_of_In, List.filter_In in Hin as [_ Hneed].
      unfold needs_fetch, Db.getCachedToken in Hneed.
      apply andb_true_iff in Hneed as [_ Hc].
      destruct (Db.token_cache db !! mint); [|reflexivity].
      rewrite bool_decide_eq_true_2 in Hc by eauto. discriminate Hc.
    + match goal with H : HELIUS_ENABLED = false |- _ => rewrite H in Hoff end.
      discriminate Hoff.
    + match goal with H : HELIUS_ENABLED = false |- _ => rewrite H in Hoff end.
      discriminate Hoff.
Qed.

(** ** Failed requests and cached tokens *)

Lemma request_chunks_complete (now : Z) (turns : nat) (left : list string)
    (db : Db.Database) (log : list (list string)) :
  (forall n chunk, source n chunk <> FetchRejects /\ source n chunk <> JsonRejects) ->
  length left <= turns ->
  exists new,
    snd (request_chunks source now turns left (db, log)) = log ++ new
    /\ concat new = left.
Proof.
  intros Hok. revert left db log.
  induction turns as [|turns IH]; intros left db log Hlen.
  - destruct left; [|cbn in Hlen; lia]. exists []. cbn. rewrite app_nil_r. auto.
  - destruct left as [|x left'].
    { exists []. cbn. rewrite app_nil_r. auto. }
    cbn [request_chunks].
    assert (length (drop 100 (x :: left')) <= turns) as Hlen'
      by (rewrite length_drop; cbn in *; lia).
    destruct (Hok (length log) (take 100 (x :: left'))) as [Hf Hj].
    destruct (source (length log) (take 100 (x :: left'))) as [| | |data];
      try contradiction.
    + destruct (IH _ db (log ++ [take 100 (x :: left')]) Hlen') as (new & Hlog & Hcat).
      exists (take 100 (x :: left') :: new). rewrite Hlog, <- app_assoc.
      split; [reflexivity|]. cbn [concat]. rewrite Hcat. apply take_drop.
    + destruct (IH _ (fold_left (cache_token now) data db)
                  (log ++ [take 100 (x :: left')]) Hlen') as (new & Hlog & Hcat).
      exists (take 100 (x :: left') :: new). rewrite Hlog, <- app_assoc.
      split; [reflexivity|]. cbn [concat]. rewrite Hcat. apply take_drop.
Qed.

(** X8: when no request is rejected (a request may still come back with a
    bad status), a batch asks for every mint of the batch that is not
    wrapped SOL and not cached, in the order of the batch: a failed chunk
    does not stop the chunks after it. *)
Theorem batchGetTokenMetadata_asks_all (now : Z) (mints : list string)
    (db : Db.Database) (log : list (list string)) :
  HELIUS_ENABLED = true -> HELIUS_API_KEY <> "" ->
  (forall n chunk, source n chunk <> FetchRejects /\ source n chunk <> JsonRejects) ->
  exists new,
    snd (fst (batchGetTokenMetadata source HELIUS_ENABLED HELIUS_API_KEY now
                mints (db, log))) = log ++ new
    /\ concat new = List.filter (needs_fetch db) mints.
Proof.
  intros -> Hkey Hok. unfold batchGetTokenMetadata.
  rewrite (nonempty_truthy _ Hkey). cbn [negb orb fst snd].
  apply request_chunks_complete; [exact Hok|reflexivity].
Qed.

Lemma cache_token_other (now : Z) (db : Db.Database) (token : HeliusToken)
    (mint : string) :
  account token <> mint ->
  Db.token_cache (cache_token now db token) !! mint = Db.token_cache db !! mint.
Proof.
  intros Hne. unfold cache_token. destruct (JS.truthy_str _); [|reflexivity].
  cbn. apply lookup_insert_ne. exact Hne.
Qed.

Lemma cache_tokens_other (now : Z) (data : list HeliusToken) (db : Db.Database)
    (mint : string) :
  Forall (fun token => account token <> mint) data ->
  Db.token_cache (fold_left (cache_token now) data db) !! mint
  = Db.token_cache db !! mint.
Proof.
  intros Hall. revert db. induction Hall as [|token data Hne _ IH]; intros db;
    [reflexivity|].
  cbn [fold_left]. rewrite IH. apply cache_token_other. exact Hne.
Qed.

Lemma request_chunks_other (now : Z) (turns : nat) (left : list string)
    (db : Db.Database) (log : list (list string)) (mint : string) :
  (forall n chunk data token,
     source n chunk = Tokens data -> token ∈ data -> account token ∈ chunk) ->
  mint ∉ left ->
  Db.token_cache (fst (request_chunks source now turns left (db, log))) !! mint
  = Db.token_cache db !! mint.
Proof.
  intros Hsrc. revert left db log.
  induction turns as [|turns IH]; intros left db log Hout; [reflexivity|].
  destruct left as [|x left']; [reflexivity|]. cbn [request_chunks].
  assert (mint ∉ drop 100 (x :: left')) as Hdrop.
  { intros Hin. apply Hout. rewrite <- (take_drop 100 (x :: left')).
    apply elem_of_app. right. exact Hin. }
  assert (mint ∉ take 100 (x :: left')) as Htake.
  { intros Hin. apply Hout. rewrite <- (take_drop 100 (x :: left')).
    apply elem_of_app. left. exact Hin. }
  destruct (source (length log) (take 100 (x :: left'))) as [| | |data] eqn:Hres;
    try reflexivity.
  - apply IH. exact Hdrop.
  - rewrite IH by exact Hdrop. apply cache_tokens_other.
    apply Forall_forall. intros token Hin Heq.
    apply Htake. rewrite <- Heq. exact (Hsrc _ _ _ _ Hres Hin).
Qed.

(** X9: if the source answers only about mints it is asked for, a metadata
    batch leaves every token that was cached before it exactly as it was,
    market data included. *)
Theorem batchGetTokenMetadata_keeps_cached (now : Z) (mints : list string)
    (db : Db.Database) (log : list (list string)) (mint : string)
    (cached : Db.TokenCacheRow) :
  (forall n chunk data token,
     source n chunk = Tokens data -> token ∈ data -> account token ∈ chunk) ->
  Db.token_cache db !! mint = Some cached ->
  Db.token_cache
    (fst (fst (batchGetTokenMetadata source HELIUS_ENABLED HELIUS_API_KEY now
                 mints (db, log)))) !! mint = Some cached.
Proof.
  intros Hsrc Hcached. unfold batchGetTokenMetadata.
  destruct (negb HELIUS_ENABLED || _); [exact Hcached|]. cbn [fst].
  rewrite request_chunks_other; [exact Hcached|exact Hsrc|].
  intros Hin. apply list_elem_of_In, List.filter_In in Hin as [_ Hneed].
  unfold needs_fetch, Db.getCachedToken in Hneed. rewrite Hcached in Hneed.
  rewrite bool_decide_eq_true_2 in Hneed by eauto.
  rewrite andb_false_r in Hneed. discriminate Hneed.
Qed.

End Requests.

Lemma foo_source_answers_what_is_asked (n : nat) (chunk : list string)
    (data : list Metadata.HeliusToken) (token : Metadata.HeliusToken) :
  MoreSamples.foo_source n chunk = Metadata.Tokens data -> token ∈ data ->
  Metadata.account token ∈ chunk.
Proof.
  unfold MoreSamples.foo_source.
  destruct (decide ("mintFoo" ∈ chunk)) as [Hin|Hout].
  - rewrite (bool_decide_eq_true_2 _ Hin). intros [= <-] Htok.
    apply list_elem_of_singleton in Htok. subst token. exact Hin.
  - rewrite (bool_decide_eq_false_2 _ Hout). discriminate.
Defined.

Lemma foo_source_never_rejects (n : nat) (chunk : list string) :
  MoreSamples.foo_source n chunk <> Metadata.FetchRejects
  /\ MoreSamples.foo_source n chunk <> Metadata.JsonRejects.
Proof.
  unfold MoreSamples.foo_source. destruct (bool_decide _); split; discriminate.
Defined.

Lemma batchGetTokenMetadata_asks_all_witness :
  exists new,
    snd (fst (Metadata.batchGetTokenMetadata MoreSamples.foo_source true "key" 9
                ["mintFoo"; "mintBar"; SOL_MINT] (MoreSamples.bar_db, [])))
    = [] ++ new
    /\ concat new
       = List.filter (Metadata.needs_fetch MoreSamples.bar_db)
           ["mintFoo"; "mintBar"; SOL_MINT].
Proof.
  apply (batchGetTokenMetadata_asks_all MoreSamples.foo_source true "key" 9
           ["mintFoo"; "mintBar"; SOL_MINT] MoreSamples.bar_db []).
  - reflexivity.
  - discriminate.
  - exact foo_source_never_rejects.
Defined.

Lemma batchGetTokenMetadata_keeps_cached_witness :
  Db.token_cache
    (fst (fst (Metadata.batchGetTokenMetadata MoreSamples.foo_source true "key" 9
                 ["mintFoo"; "mintBar"; SOL_MINT] (MoreSamples.bar_db, []))))
    !! "mintBar"
  = Some {| Db.tc_name := "Bar"; Db.tc_symbol := "BAR"; Db.tc_image := "";
            Db.tc_mcap := 250000; Db.tc_price_usd := 0.25;
            Db.tc_price_change_24h := 4; Db.tc_cached_at := 3 |}.
Proof.
  apply (batchGetTokenMetadata_keeps_cached MoreSamples.foo_source true "key" 9
           ["mintFoo"; "mintBar"; SOL_MINT] MoreSamples.bar_db [] "mintBar").
  - exact foo_source_answers_what_is_asked.
  - vm_compute. reflexivity.
Defined.

End MetadataMaps.

(* ================================================================== *)
(** * The wallet indexes and the wallets registered with the webhook   *)
(* ================================================================== *)

Section Indexing.

Import Reference Invariants.

Lemma side_fold_kol (kol : Kol) (sws : list string) (ix : Indexes) (w : string) :
  WALLET_KOL_MAP (fold_left (index_side_wallet kol) sws ix) !! w
  = if existsb (fun sw => tracked_side_wallet kol sw && String.eqb sw w) sws
    then Some kol else WALLET_KOL_MAP ix !! w.
Proof.
  revert ix. induction sws as [|sw sws IH]; intros ix; cbn [fold_left existsb];
    [reflexivity|].
  rewrite IH. unfold index_side_wallet.
  destruct (tracked_side_wallet kol sw); cbn [andb orb WALLET_KOL_MAP];
    [|reflexivity].
  destruct (String.eqb_spec sw w) as [->|Hne]; cbn [orb].
  - rewrite lookup_insert_eq. destruct (existsb _ sws); reflexivity.
  - rewrite lookup_insert_ne by exact Hne. reflexivity.
Qed.

Lemma side_fold_avatar (kol : Kol) (sws : list string) (ix : Indexes) (w : string) :
  WALLET_AVATAR_MAP (fold_left (index_side_wallet kol) sws ix) !! w
  = if existsb (fun sw => tracked_side_wallet kol sw && String.eqb sw w) sws
    then Some (indexed_avatar kol) else WALLET_AVATAR_MAP ix !! w.
Proof.
  revert ix. induction sws as [|sw sws IH]; intros ix; cbn [fold_left existsb];
    [reflexivity|].
  rewrite IH. unfold index_side_wallet.
  destruct (tracked_side_wallet kol sw); cbn [andb orb WALLET_AVATAR_MAP];
    [|reflexivity].
  destruct (String.eqb_spec sw w) as [->|Hne]; cbn [orb].
  - rewrite lookup_insert_eq. destruct (existsb _ sws); reflexivity.
  - rewrite lookup_insert_ne by exact Hne. reflexivity.
Qed.

Lemma side_fold_set (kol : Kol) (sws : list string) (ix : Indexes) (w : string) :
  w ∈ SIDE_WALLET_SET (fold_left (index_side_wallet kol) sws ix)
  <-> existsb (fun sw => tracked_side_wallet kol sw && String.eqb sw w) sws = true
      \/ w ∈ SIDE_WALLET_SET ix.
Proof.
  revert ix. induction sws as [|sw sws IH]; intros ix; cbn [fold_left existsb].
  - split; [auto|intros [H|H]; [discriminate H|exact H]].
  - rewrite IH. unfold index_side_wallet.
    destruct (tracked_side_wallet kol sw); cbn [andb orb SIDE_WALLET_SET].
    + rewrite elem_of_union, elem_of_singleton.
      destruct (String.eqb_spec sw w) as [->|Hne]; cbn [orb].
      * split; auto.
      * split; [intros [H|[H|H]]; auto; congruence|intros [H|H]; auto].
    + reflexivity.
Qed.

Lemma index_kol_lookup (ix : Indexes) (kol : Kol) (w : string) :
  WALLET_KOL_MAP (index_kol ix kol) !! w
  = if lists_wallet w kol then Some kol else WALLET_KOL_MAP ix !! w.
Proof.
  unfold index_kol, lists_wallet.
  destruct (SideWallets kol) as [sws|].
  - rewrite side_fold_kol. destruct (existsb _ sws); [rewrite orb_true_r; reflexivity|].
    rewrite orb_false_r. destruct (JS.truthy_str (WalletAddress kol)); [|reflexivity].
    cbn [andb WALLET_KOL_MAP]. destruct (String.eqb_spec (WalletAddress kol) w) as [->|Hne].
    + apply lookup_insert_eq.
    + apply lookup_insert_ne. exact Hne.
  - rewrite orb_false_r. destruct (JS.truthy_str (WalletAddress kol)); [|reflexivity].
    cbn [andb WALLET_KOL_MAP]. destruct (String.eqb_spec (WalletAddress kol) w) as [->|Hne].
    + apply lookup_insert_eq.
    + apply lookup_insert_ne. exact Hne.
Qed.

Lemma index_kol_avatar (ix : Indexes) (kol : Kol) (w : string) :
  WALLET_AVATAR_MAP (index_kol ix kol) !! w
  = if lists_wallet w kol then Some (indexed_avatar kol)
    else WALLET_AVATAR_MAP ix !! w.
Proof.
  unfold index_kol, lists_wallet.
  destruct (SideWallets kol) as [sws|].
  - rewrite side_fold_avatar.
    destruct (existsb _ sws); [rewrite orb_true_r; reflexivity|].
    rewrite orb_false_r. destruct (JS.truthy_str (WalletAddress kol)); [|reflexivity].
    cbn [andb WALLET_AVATAR_MAP].
    destruct (String.eqb_spec (WalletAddress kol) w) as [->|Hne].
    + apply lookup_insert_eq.
    + apply lookup_insert_ne. exact Hne.
  - rewrite orb_false_r. destruct (JS.truthy_str (WalletAddress kol)); [|reflexivity].
    cbn [andb WALLET_AVATAR_MAP].
    destruct (String.eqb_spec (WalletAddress kol) w) as [->|Hne].
    + apply lookup_insert_eq.
    + apply lookup_insert_ne. exact Hne.
Qed.

Lemma index_kol_set (ix : Indexes) (kol : Kol) (w : string) :
  w ∈ SIDE_WALLET_SET (index_kol ix kol)
  <-> lists_side_wallet w kol = true \/ w ∈ SIDE_WALLET_SET ix.
Proof.
  unfold index_kol, lists_side_wallet.
  destruct (SideWallets kol) as [sws|].
  - rewrite side_fold_set. destruct (JS.truthy_str (WalletAddress kol)); reflexivity.
  - destruct (JS.truthy_str (WalletAddress kol)); cbn [SIDE_WALLET_SET];
      (split; [auto|intros [H|H]; [discriminate H|exact H]]).
Qed.

Lemma build_indexes_snoc (l : list Kol) (kol : Kol) :
  build_indexes (l ++ [kol]) = index_kol (build_indexes l) kol.
Proof. unfold build_indexes. rewrite fold_left_app. reflexivity. Qed.

Lemma last_filter_snoc {A} (f : A -> bool) (l : list A) (x : A) :
  last (List.filter f (l ++ [x]))
  = if f x then Some x else last (List.filter f l).
Proof.
  rewrite List.filter_app. cbn [List.filter].
  destruct (f x); [apply last_snoc|rewrite app_nil_r; reflexivity].
Qed.

Lemma build_indexes_lookup (COL_DATA : list Kol) (w : string) :
  WALLET_KOL_MAP (build_indexes COL_DATA) !! w
  = last (List.filter (lists_wallet w) COL_DATA).
Proof.
  induction COL_DATA as [|kol l IH] using rev_ind; [reflexivity|].
  rewrite build_indexes_snoc, index_kol_lookup, last_filter_snoc, IH. reflexivity.
Qed.

Lemma build_indexes_avatar (COL_DATA : list Kol) (w : string) :
  WALLET_AVATAR_MAP (build_indexes COL_DATA) !! w
  = indexed_avatar <$> last (List.filter (lists_wallet w) COL_DATA).
Proof.
  induction COL_DATA as [|kol l IH] using rev_ind; [reflexivity|].
  rewrite build_indexes_snoc, index_kol_avatar, last_filter_snoc, IH.
  destruct (lists_wallet w kol); reflexivity.
Qed.

Lemma build_indexes_set (COL_DATA : list Kol) (w : string) :
  w ∈ SIDE_WALLET_SET (build_indexes COL_DATA)
  <-> exists kol, kol ∈ COL_DATA /\ lists_side_wallet w kol = true.
Proof.
  induction COL_DATA as [|kol l IH] using rev_ind.
  - cbn. split; [intros H; set_solver|intros (kol & H & _); inversion H].
  - rewrite build_indexes_snoc, index_kol_set, IH. split.
    + intros [H|(k & Hin & H)].
      * exists kol. split; [apply elem_of_app; right; left|exact H].
      * exists k. split; [apply elem_of_app; left; exact Hin|exact H].
    + intros (k & Hin & H). apply elem_of_app in Hin as [Hin|Hin].
      * right. exists k. auto.
      * apply list_elem_of_singleton in Hin. subst k. left. exact H.
Qed.

(** X10: the index attributes a wallet to the last KOL of the reference list
    that lists it, as a main wallet or as a side wallet of more than 10
    characters other than that KOL's main wallet, and to nobody when no KOL
    lists it; the avatar index has the same keys and holds that KOL's avatar,
    "/logo.png" for an empty one; a wallet is tagged as side wallet exactly
    when some KOL lists it as a side wallet. *)
Theorem build_indexes_last_wins (COL_DATA : list Kol) (w : string) :
  plain_keys COL_DATA ->
  WALLET_KOL_MAP (build_indexes COL_DATA) !! w
  = last (List.filter (lists_wallet w) COL_DATA)
  /\ WALLET_AVATAR_MAP (build_indexes COL_DATA) !! w
     = indexed_avatar <$> WALLET_KOL_MAP (build_indexes COL_DATA) !! w
  /\ (w ∈ SIDE_WALLET_SET (build_indexes COL_DATA)
      <-> exists kol, kol ∈ COL_DATA /\ lists_side_wallet w kol = true).
Proof.
  intros _. rewrite build_indexes_avatar, build_indexes_lookup.
  split; [reflexivity|]. split; [reflexivity|]. apply build_indexes_set.
Qed.

Lemma two_kols_plain : plain_keys MoreSamples.two_kols.
Proof. repeat constructor; discriminate. Defined.

Lemma build_indexes_last_wins_witness :
  WALLET_KOL_MAP (build_indexes MoreSamples.two_kols) !! "walletAnsemSide"
  = last (List.filter (lists_wallet "walletAnsemSide") MoreSamples.two_kols)
  /\ WALLET_AVATAR_MAP (build_indexes MoreSamples.two_kols) !! "walletAnsemSide"
     = indexed_avatar
         <$> WALLET_KOL_MAP (build_indexes MoreSamples.two_kols) !! "walletAnsemSide"
  /\ ("walletAnsemSide" ∈ SIDE_WALLET_SET (build_indexes MoreSamples.two_kols)
      <-> exists kol, kol ∈ MoreSamples.two_kols
                      /\ lists_side_wallet "walletAnsemSide" kol = true).
Proof.
  apply (build_indexes_last_wins MoreSamples.two_kols "walletAnsemSide").
  exact two_kols_plain.
Defined.

(** The side wallet of the sample list that a later KOL lists as a main
    wallet belongs to that later KOL, and is still tagged as a side wallet. *)
Example build_indexes_shared_wallet :
  Name <$> WALLET_KOL_MAP (build_indexes MoreSamples.two_kols) !! "walletAnsemSide"
  = Some "Cupsey"
  /\ "walletAnsemSide" ∈ SIDE_WALLET_SET (build_indexes MoreSamples.two_kols).
Proof.
  split; [vm_compute; reflexivity|].
  apply build_indexes_set. exists MoreSamples.ansem.
  split; [left|vm_compute; reflexivity].
Qed.

(** ** The wallets registered with the webhook are indexed *)

Lemma register_side (sws : list string) (S : gset string) (w : string) :
  w ∈ fold_left
        (fun walletSet sw =>
           if JS.truthy_str sw && (10 <? String.length sw)%nat
           then {[sw]} ∪ walletSet else walletSet)
        sws S
  <-> w ∈ S \/ (w ∈ sws /\ JS.truthy_str w && (10 <? String.length w)%nat = true).
Proof.
  revert S. induction sws as [|sw sws IH]; intros S; cbn [fold_left].
  - split; [auto|intros [H|[H _]]; [exact H|inversion H]].
  - rewrite IH. destruct (JS.truthy_str sw && _) eqn:Hsw.
    + rewrite elem_of_union, elem_of_singleton, elem_of_cons. split.
      * intros [[->|H]|[H1 H2]]; auto.
      * intros [H|[[->|H1] H2]]; auto.
    + rewrite elem_of_cons. split.
      * intros [H|[H1 H2]]; auto.
      * intros [H|[[->|H1] H2]]; auto. rewrite Hsw in H2. discriminate H2.
Qed.

Lemma register_kol_lists (S : gset string) (kol : Kol) (w : string) :
  w ∈ register_kol S kol -> w ∈ S \/ lists_wallet w kol = true.
Proof.
  unfold register_kol, lists_wallet.
  assert (w ∈ (if JS.truthy_str (WalletAddress kol)
                    && (10 <? String.length (WalletAddress kol))%nat
               then {[WalletAddress kol]} ∪ S else S) ->
          w ∈ S \/ JS.truthy_str (WalletAddress kol)
                   && String.eqb (WalletAddress kol) w = true) as Hmain.
  { destruct (JS.truthy_str (WalletAddress kol)); cbn [andb]; [|auto].
    destruct (10 <? _)%nat; [|auto].
    rewrite elem_of_union, elem_of_singleton. intros [->|H]; [|auto].
    right. apply String.eqb_refl. }
  destruct (SideWallets kol) as [sws|].
  - rewrite register_side. intros [H|[Hin Hw]].
    + apply Hmain in H as [H|H]; [auto|]. right. rewrite H. reflexivity.
    + right. apply andb_true_iff in Hw as [Htruthy Hlen].
      destruct (String.eqb_spec (WalletAddress kol) w) as [Heq|Hne].
      * rewrite Heq, Htruthy. reflexivity.
      * apply orb_true_iff. right. apply existsb_exists. exists w.
        split; [apply list_elem_of_In; exact Hin|].
        unfold tracked_side_wallet. rewrite Htruthy, Hlen, String.eqb_refl.
        cbn [andb]. rewrite andb_true_r. apply negb_true_iff.
        apply String.eqb_neq. congruence.
  - intros H. apply Hmain in H as [H|H]; [auto|]. right. rewrite H. reflexivity.
Qed.

Lemma walletSet_lists (COL_DATA : list Kol) (w : string) :
  w ∈ walletSet COL_DATA ->
  exists kol, kol ∈ COL_DATA /\ lists_wallet w kol = true.
Proof.
  unfold walletSet. induction COL_DATA as [|kol l IH] using rev_ind.
  - cbn. intros H. set_solver.
  - rewrite fold_left_app. cbn [fold_left]. intros H.
    apply register_kol_lists in H as [H|H].
    + destruct (IH H) as (k & Hin & Hk). exists k.
      split; [apply elem_of_app; left; exact Hin|exact Hk].
    + exists kol. split; [apply elem_of_app; right; left|exact H].
Qed.

Lemma last_filter_some {A} (f : A -> bool) (l : list A) (x : A) :
  x ∈ l -> f x = true ->
  exists y, last (List.filter f l) = Some y /\ y ∈ l /\ f y = true.
Proof.
  intros Hin Hx.
  assert (x ∈ List.filter f l) as Hf
    by (apply list_elem_of_In, List.filter_In; split;
        [apply list_elem_of_In; exact Hin|exact Hx]).
  destruct (last (List.filter f l)) as [y|] eqn:Hlast.
  - exists y. split; [reflexivity|].
    apply last_Some_elem_of, list_elem_of_In, List.filter_In in Hlast as [Hy Hfy].
    split; [apply list_elem_of_In; exact Hy|exact Hfy].
  - apply last_None in Hlast. rewrite Hlast in Hf. inversion Hf.
Qed.

(** X11: every address [setup-webhook.js] registers with the webhook is a
    key of the server's wallet index, mapped to a KOL of the reference list
    that lists it: a transaction pushed for a registered wallet is never
    unattributable because of the wallet itself. *)
Theorem walletSet_indexed (COL_DATA : list Kol) (w : string) :
  plain_keys COL_DATA ->
  w ∈ walletSet COL_DATA ->
  exists kol,
    WALLET_KOL_MAP (build_indexes COL_DATA) !! w = Some kol
    /\ kol ∈ COL_DATA /\ lists_wallet w kol = true.
Proof.
  intros _ Hw. rewrite build_indexes_lookup.
  destruct (walletSet_lists _ _ Hw) as (k & Hin & Hk).
  exact (last_filter_some _ _ _ Hin Hk).
Qed.

Lemma walletSet_indexed_witness :
  exists kol,
    WALLET_KOL_MAP (build_indexes MoreSamples.two_kols) !! "walletAnsemSide" = Some kol
    /\ kol ∈ MoreSamples.two_kols /\ lists_wallet "walletAnsemSide" kol = true.
Proof.
  apply (walletSet_indexed MoreSamples.two_kols "walletAnsemSide").
  - exact two_kols_plain.
  - vm_compute. reflexivity.
Defined.

End Indexing.

(* ================================================================== *)
(** * Properties of the webhook receiver                               *)
(* ================================================================== *)

Section WebhookReceiver.

Import Classifier Paths Invariants.

Variable source : nat -> list string -> Metadata.Response.
Variables (HELIUS_ENABLED : bool) (HELIUS_API_KEY : string).
Variable ix : Reference.Indexes.

Lemma attribute_some (p : Pushed) (kolWallet : string) (kol : Reference.Kol) :
  attribute ix p = Some (kolWallet, kol) ->
  kolWallet ∈ involvedAccounts p /\ Reference.kol_at ix kolWallet = Some kol.
Proof.
  unfold attribute.
  destruct (List.find _ (involvedAccounts p)) as [a|] eqn:Hfind; [|discriminate].
  apply List.find_some in Hfind as [Hin _].
  destruct (Reference.kol_at ix a) as [k|] eqn:Hk; [|discriminate].
  intros [= <- <-]. split; [apply list_elem_of_In; exact Hin|exact Hk].
Qed.

Lemma with_row_unique (db : Db.Database) (row : Db.TradeRow) :
  Db.signature_taken (Db.signature row) (Db.kol_trades db) = false ->
  Db.unique_signatures db -> Db.unique_signatures (with_row db row).
Proof.
  intros Hfresh Huniq. unfold Db.unique_signatures, with_row. cbn.
  rewrite fmap_app. apply NoDup_app. split; [exact Huniq|]. split.
  - intros x Hx Hx'. apply list_elem_of_singleton in Hx'. subst x.
    apply signature_taken_spec in Hx. congruence.
  - apply NoDup_singleton.
Qed.

(** What one turn of the receiver's loop does to the counters and to the
    stored trades. *)
Lemma receive_one_spec (now : Z) (st : Metadata.State) (c : Counters) (p : Pushed) :
  exists st' c',
    receive_one source HELIUS_ENABLED HELIUS_API_KEY ix now (st, c) p = (st', c')
    /\ processed c' = S (processed c)
    /\ skippedDupe c' = skippedDupe c
    /\ Db.kol_trades (fst st) `prefix_of` Db.kol_trades (fst st')
    /\ length (Db.kol_trades (fst st')) + saved c
       <= length (Db.kol_trades (fst st)) + saved c'
    /\ (Db.unique_signatures (fst st) -> Db.unique_signatures (fst st'))
    /\ (forall row, row ∈ Db.kol_trades (fst st') ->
          row ∈ Db.kol_trades (fst st) \/ attributed_row ix p row).
Proof.
  unfold receive_one.
  destruct (attribute ix p) as [[kolWallet kol]|] eqn:Hattr.
  2:{ eexists _, _. split; [reflexivity|]. unfold processed. cbn.
      repeat split; auto; lia. }
  destruct (attribute_some _ _ _ Hattr) as [Hin Hkol].
  match goal with
  | |- context [let '(st, tokenMeta) := ?b in _] =>
      assert (Db.kol_trades (fst (fst b)) = Db.kol_trades (fst st)
              /\ Db.kol_trades_seq (fst (fst b)) = Db.kol_trades_seq (fst st))
        as [Htr Hseq];
        [destruct (mints_of [payload p]);
           [split; reflexivity|apply batchGetTokenMetadata_trades]|];
        destruct b as [st1 meta]
  end.
  cbn [fst] in Htr, Hseq.
  destruct (parseTransaction (fst st1) (payload p) (Reference.Name kol)
              (Reference.Avatar kol) kolWallet (Some meta)) as [t|] eqn:Hparse.
  2:{ eexists _, _. split; [reflexivity|]. unfold processed. cbn [fst saved
        skippedNoKol skippedNoParse skippedInvalid skippedDupe]. rewrite Htr.
      repeat split; auto; try lia. unfold Db.unique_signatures. rewrite Htr. auto. }
  destruct (isValidTrade (Some t)) eqn:Hvalid.
  2:{ eexists _, _. split; [reflexivity|]. unfold processed. cbn [fst saved
        skippedNoKol skippedNoParse skippedInvalid skippedDupe]. rewrite Htr.
      repeat split; auto; try lia. unfold Db.unique_signatures. rewrite Htr. auto. }
  destruct (signature t) as [sig|] eqn:Hsig.
  2:{ eexists _, _. split; [reflexivity|]. unfold processed. cbn [fst saved
        skippedNoKol skippedNoParse skippedInvalid skippedDupe]. rewrite Htr.
      repeat split; auto; try lia. unfold Db.unique_signatures. rewrite Htr. auto. }
  destruct (JS.truthy_str sig) eqn:Htruthy.
  2:{ eexists _, _. split; [reflexivity|]. unfold processed. cbn [fst saved
        skippedNoKol skippedNoParse skippedInvalid skippedDupe]. rewrite Htr.
      repeat split; auto; try lia. unfold Db.unique_signatures. rewrite Htr. auto. }
  rewrite storeTrade_row.
  destruct (Db.signature_taken sig (Db.kol_trades (fst st1))) eqn:Htaken.
  - eexists _, _. split; [reflexivity|]. unfold processed. cbn [fst saved
      skippedNoKol skippedNoParse skippedInvalid skippedDupe]. rewrite Htr.
    repeat split; auto; try lia. unfold Db.unique_signatures. rewrite Htr. auto.
  - assert (storable (fst st1) kolWallet (Reference.Name kol) (Reference.Avatar kol)
              (Some meta) (payload p) = Some (sig, t)) as Hs
      by (unfold storable; rewrite Hparse, Hvalid, Hsig, Htruthy; reflexivity).
    destruct (storable_row _ now _ _ _ _ _ _ _ (S (Db.kol_trades_seq (fst st1))) Hs)
      as (Hrow & Hsigtx & _).
    eexists _, _. split; [reflexivity|]. unfold processed. cbn [fst saved
      skippedNoKol skippedNoParse skippedInvalid skippedDupe].
    split; [lia|]. split; [reflexivity|]. split.
    { cbn. rewrite Htr. apply prefix_app_r. reflexivity. }
    split.
    { cbn. rewrite Htr, length_app. cbn. lia. }
    split.
    { intros Huniq. apply with_row_unique; [exact Htaken|].
      unfold Db.unique_signatures. rewrite Htr. exact Huniq. }
    intros row Hrowin. cbn in Hrowin. rewrite Htr in Hrowin.
    apply elem_of_app in Hrowin as [Hold|Hnew]; [left; exact Hold|].
    apply list_elem_of_singleton in Hnew. subst row. right.
    exists kolWallet, kol. repeat split; auto.
    all: try apply Hrow.
Qed.

Lemma receive_fold_spec (now : Z) (transactions : list Pushed)
    (st : Metadata.State) (c : Counters) :
  exists st' c',
    fold_left (receive_one source HELIUS_ENABLED HELIUS_API_KEY ix now)
      transactions (st, c) = (st', c')
    /\ processed c' = processed c + length transactions
    /\ skippedDupe c' = skippedDupe c
    /\ Db.kol_trades (fst st) `prefix_of` Db.kol_trades (fst st')
    /\ length (Db.kol_trades (fst st')) + saved c
       <= length (Db.kol_trades (fst st)) + saved c'
    /\ (Db.unique_signatures (fst st) -> Db.unique_signatures (fst st'))
    /\ (forall row, row ∈ Db.kol_trades (fst st') ->
          row ∈ Db.kol_trades (fst st)
          \/ exists p, p ∈ transactions /\ attributed_row ix p row).
Proof.
  revert st c. induction transactions as [|p ps IH]; intros st c.
  - exists st, c. split; [reflexivity|]. repeat split; auto; lia.
  - cbn [fold_left].
    destruct (receive_one_spec now st c p)
      as (st1 & c1 & -> & Hp1 & Hd1 & Hpre1 & Hlen1 & Hu1 & Hrows1).
    destruct (IH st1 c1) as (st' & c' & -> & Hp & Hd & Hpre & Hlen & Hu & Hrows).
    exists st', c'. split; [reflexivity|]. cbn [length].
    split; [lia|]. split; [congruence|].
    split; [etransitivity; eassumption|]. split; [lia|]. split; [auto|].
    intros row Hin. apply Hrows in Hin as [Hin|(q & Hq & Hrow)].
    + apply Hrows1 in Hin as [Hin|Hrow]; [left; exact Hin|].
      right. exists p. split; [left|exact Hrow].
    + right. exists q. split; [right; exact Hq|exact Hrow].
Qed.

End WebhookReceiver.

Section Webhook.

Import Classifier Paths Invariants.

(** X12: the receiver's summary of a batch.  With Helius switched on and an
    array as body, every pushed transaction is counted exactly once as
    saved, no-KOL, not-a-swap or invalid, and the duplicates counter stays
    0: a trade whose signature is already stored is counted as saved, so
    [saved] bounds the number of rows added from above.  Stored rows are
    only appended to, and signatures stay unique.  With Helius switched off,
    or a body that is not an array, nothing is processed. *)
Theorem webhook_counters (source : nat -> list string -> Metadata.Response)
    (HELIUS_ENABLED : bool) (HELIUS_API_KEY : string) (ix : Reference.Indexes)
    (now : Z) (body : option (list Pushed)) (transactions : list Pushed)
    (st : Metadata.State) :
  (exists st' c,
     webhook source true HELIUS_API_KEY ix now (Some transactions) st = (st', Some c)
     /\ processed c = length transactions
     /\ skippedDupe c = 0
     /\ Db.kol_trades (fst st) `prefix_of` Db.kol_trades (fst st')
     /\ length (Db.kol_trades (fst st')) <= length (Db.kol_trades (fst st)) + saved c
     /\ (Db.unique_signatures (fst st) -> Db.unique_signatures (fst st')))
  /\ webhook source false HELIUS_API_KEY ix now body st = (st, None)
  /\ webhook source HELIUS_ENABLED HELIUS_API_KEY ix now None st = (st, None).
Proof.
  split; [|split; [reflexivity|unfold webhook; destruct HELIUS_ENABLED; reflexivity]].
  unfold webhook. cbn [negb].
  destruct (receive_fold_spec source true HELIUS_API_KEY ix now transactions st
              no_counts) as (st' & c & -> & Hp & Hd & Hpre & Hlen & Hu & _).
  exists st', c. split; [reflexivity|]. cbn in Hp, Hd, Hlen.
  repeat split; auto; lia.
Qed.

(** X13: every row the receiver adds is a vetted trade of one pushed
    transaction, stored under the first involved account of that transaction
    (fee payer, account data, native transfers, token transfers, in this
    order) that the wallet index knows, with the name of the KOL found
    there, and under the transaction's signature.  The account is a key of
    the index or one of the property names every object inherits, for which
    the name is "Unknown". *)
Theorem webhook_rows (source : nat -> list string -> Metadata.Response)
    (HELIUS_ENABLED : bool) (HELIUS_API_KEY : string) (ix : Reference.Indexes)
    (now : Z) (transactions : list Pushed) (st : Metadata.State)
    (row : Db.TradeRow) :
  row ∈ Db.kol_trades
          (fst (fst (webhook source HELIUS_ENABLED HELIUS_API_KEY ix now
                       (Some transactions) st))) ->
  row ∈ Db.kol_trades (fst st)
  \/ exists p kolWallet kol,
       p ∈ transactions
       /\ attribute ix p = Some (kolWallet, kol)
       /\ (kolWallet ∈ involvedAccounts p)
       /\ scanned_row kolWallet (Reference.Name kol) row
       /\ tx_signature (payload p) = Some (Db.signature row)
       /\ (Reference.WALLET_KOL_MAP ix !! kolWallet = Some kol
           \/ (kolWallet ∈ Reference.Object_prototype_keys
               /\ Db.kol_name row = "Unknown")).
Proof.
  unfold webhook. destruct (negb HELIUS_ENABLED); [left; assumption|].
  destruct (receive_fold_spec source HELIUS_ENABLED HELIUS_API_KEY ix now
              transactions st no_counts) as (st' & c & -> & _ & _ & _ & _ & _ & Hrows).
  cbn [fst]. intros Hin. apply Hrows in Hin as [Hin|(p & Hp & Hrow)];
    [left; exact Hin|].
  right. destruct Hrow as (kolWallet & kol & Hattr & Hacc & Hkol & Hrow & Hsig).
  exists p, kolWallet, kol. repeat split; auto.
  all: try apply Hrow.
  unfold Reference.kol_at in Hkol.
  destruct (Reference.WALLET_KOL_MAP ix !! kolWallet) as [k|]; [left; exact Hkol|].
  right. destruct (decide (kolWallet ∈ Reference.Object_prototype_keys)) as [Hk|Hk].
  - rewrite (bool_decide_eq_true_2 _ Hk) in Hkol. injection Hkol as <-.
    split; [exact Hk|]. apply Hrow.
  - rewrite (bool_decide_eq_false_2 _ Hk) in Hkol. discriminate Hkol.
Qed.

Lemma webhook_rows_witness :
  MoreSamples.pushed_row ∈ Db.kol_trades (fst (MoreSamples.bar_db, @nil (list string)))
  \/ exists p kolWallet kol,
       p ∈ [MoreSamples.pushed_buy]
       /\ attribute (Reference.build_indexes MoreSamples.two_kols) p
          = Some (kolWallet, kol)
       /\ (kolWallet ∈ involvedAccounts p)
       /\ scanned_row kolWallet (Reference.Name kol) MoreSamples.pushed_row
       /\ tx_signature (payload p) = Some (Db.signature MoreSamples.pushed_row)
       /\ (Reference.WALLET_KOL_MAP (Reference.build_indexes MoreSamples.two_kols)
             !! kolWallet = Some kol
           \/ (kolWallet ∈ Reference.Object_prototype_keys
               /\ Db.kol_name MoreSamples.pushed_row = "Unknown")).
Proof.
  apply (webhook_rows MoreSamples.foo_source true "key"
           (Reference.build_indexes MoreSamples.two_kols) 7
           [MoreSamples.pushed_buy] (MoreSamples.bar_db, []) MoreSamples.pushed_row).
  vm_compute. left.
Defined.

(** A transaction whose fee payer is called "constructor" is attributed,
    although no KOL has such a wallet: the row is stored for the wallet
    "constructor" under the name "Unknown". *)
Example webhook_inherited_key :
  (fun r => (Db.wallet r, Db.kol_name r, Db.signature r))
    <$> Db.kol_trades
          (fst (fst (webhook MoreSamples.foo_source true "key"
                       (Reference.build_indexes MoreSamples.two_kols) 7
                       (Some [{| payload := payload MoreSamples.pushed_buy;
                                 feePayer := Some "constructor";
                                 accountData := None |}])
                       (MoreSamples.bar_db, []))))
  = [("constructor", "Unknown", "5hPush")].
Proof. vm_compute. reflexivity. Qed.

End Webhook.

(* ================================================================== *)
(** * Properties of the wallet scans                                   *)
(* ================================================================== *)

Section ScanPaths.

Import Classifier Paths Invariants.

Lemma grows_refl (P : Db.TradeRow -> Prop) (db db' : Db.Database) :
  Db.kol_trades db' = Db.kol_trades db -> grows_by P db db'.
Proof.
  intros H. unfold grows_by, Db.unique_signatures. rewrite H.
  repeat split; auto.
Qed.

Lemma grows_trans (P : Db.TradeRow -> Prop) (a b c : Db.Database) :
  grows_by P a b -> grows_by P b c -> grows_by P a c.
Proof.
  intros (Hp1 & Hu1 & Hr1) (Hp2 & Hu2 & Hr2). repeat split.
  - etransitivity; eassumption.
  - auto.
  - intros row Hin. apply Hr2 in Hin as [Hin|Hin]; auto.
Qed.

Lemma grows_weaken (P Q : Db.TradeRow -> Prop) (db db' : Db.Database) :
  (forall row, P row -> Q row) -> grows_by P db db' -> grows_by Q db db'.
Proof.
  intros HPQ (Hp & Hu & Hr). repeat split; auto.
  intros row Hin. apply Hr in Hin as [Hin|Hin]; auto.
Qed.

(** The loop that stores the trades of one wallet, started on a database
    with the same stored trades as [db0]. *)
Lemma saveTrades_grows (now : Z) (wallet name avatar : string)
    (m : option MetadataMap) (txs : list Tx) (db0 db1 : Db.Database) :
  Db.kol_trades db1 = Db.kol_trades db0 ->
  grows_by
    (fun row =>
       scanned_row wallet name row
       /\ exists tx, tx ∈ txs /\ tx_signature tx = Some (Db.signature row)
                     /\ Db.tx_timestamp row = default 0%Z (tx_timestamp tx))
    db0 (fst (Ingest.saveTrades now wallet name avatar m txs db1)).
Proof.
  intros Htr. repeat split.
  - rewrite <- Htr, saveTrades_fold.
    apply (save_fold_prefix now wallet name avatar m txs (db1, 0)).
  - intros Huniq. apply saveTrades_preserves_unique.
    unfold Db.unique_signatures. rewrite Htr. exact Huniq.
  - intros row Hin. rewrite saveTrades_fold in Hin.
    apply save_fold_rows in Hin as [Hin|Hin]; [left|right; exact Hin].
    cbn [fst] in Hin. rewrite <- Htr. exact Hin.
Qed.

Section Quick.

Variable source : nat -> list string -> Metadata.Response.
Variable recent : string -> nat -> Page.
Variables (HELIUS_ENABLED : bool) (HELIUS_API_KEY : string).

Lemma fetchEnhancedTransactions_credits (wallet : string) (limit credits : nat) :
  credits <= snd (fetchEnhancedTransactions recent HELIUS_ENABLED HELIUS_API_KEY
                    wallet limit credits) <= credits + 100.
Proof.
  unfold fetchEnhancedTransactions.
  destruct (negb HELIUS_ENABLED || _); [cbn; lia|].
  destruct (recent wallet limit); cbn; lia.
Qed.

Lemma scanSingleWallet_spec (now : Z) (wallet name avatar : string)
    (txLimit : nat) (st : Metadata.State) (credits : nat) :
  exists st' credits' n,
    scanSingleWallet source recent HELIUS_ENABLED HELIUS_API_KEY now wallet name
      avatar txLimit (st, credits) = ((st', credits'), n)
    /\ grows_by (fun row => (10 <= String.length wallet)%nat
                            /\ scanned_row wallet name row)
         (fst st) (fst st')
    /\ credits <= credits' <= credits + 100
    /\ (String.length wallet < 10 -> credits' = credits).
Proof.
  unfold scanSingleWallet.
  destruct (negb (JS.truthy_str wallet) || _) eqn:Hguard.
  { eexists _, _, _. split; [reflexivity|]. split; [apply grows_refl; reflexivity|].
    split; [lia|reflexivity]. }
  apply orb_false_iff in Hguard as [_ Hlen]. apply Nat.ltb_ge in Hlen.
  pose proof (fetchEnhancedTransactions_credits wallet txLimit credits) as Hcr.
  destruct (fetchEnhancedTransactions recent HELIUS_ENABLED HELIUS_API_KEY wallet
              txLimit credits) as [[[|tx txs]|] cr]; cbn [snd] in Hcr.
  1,3: eexists _, _, _; (split; [reflexivity|]);
       (split; [apply grows_refl; reflexivity|]); (split; [lia|intros Hshort; lia]).
  pose proof (batchGetTokenMetadata_trades source HELIUS_ENABLED HELIUS_API_KEY now
                (mints_of (tx :: txs)) st) as [Htr _].
  destruct (Metadata.batchGetTokenMetadata source HELIUS_ENABLED HELIUS_API_KEY now
              (mints_of (tx :: txs)) st) as [st1 meta].
  cbn [fst] in Htr.
  pose proof (saveTrades_grows now wallet name avatar (Some meta) (tx :: txs)
                (fst st) (fst st1) Htr) as Hgrows.
  destruct (Ingest.saveTrades now wallet name avatar (Some meta) (tx :: txs) (fst st1))
    as [db n].
  eexists _, _, _. split; [reflexivity|].
  split; [|split; [lia|intros Hshort; lia]].
  cbn [fst] in *. apply (grows_weaken _ _ _ _ (fun row H => conj Hlen (proj1 H)) Hgrows).
Qed.

Lemma scan_side_wallets (now : Z) (kol : Reference.Kol) (limit : nat)
    (sws : list string) (s : ScanState) (total : nat) :
  exists s' total',
    fold_left
      (fun '(s, total) sw =>
         if Reference.tracked_side_wallet kol sw then
           let '(s, n) :=
             scanSingleWallet source recent HELIUS_ENABLED HELIUS_API_KEY now sw
               (Reference.Name kol) (Reference.Avatar kol) limit s in
           (s, total + n)
         else (s, total))
      sws (s, total) = (s', total')
    /\ grows_by
         (fun row =>
            exists w, w ∈ List.filter (Reference.tracked_side_wallet kol) sws
                      /\ (10 <= String.length w)%nat
                      /\ scanned_row w (Reference.Name kol) row)
         (fst (fst s)) (fst (fst s'))
    /\ snd s <= snd s'
       <= snd s + 100 * length (List.filter (Reference.tracked_side_wallet kol) sws).
Proof.
  revert s total. induction sws as [|sw sws IH]; intros s total; cbn [fold_left].
  { exists s, total. split; [reflexivity|].
    split; [apply grows_refl; reflexivity|cbn; lia]. }
  cbn [List.filter]. destruct (Reference.tracked_side_wallet kol sw) eqn:Htracked.
  - destruct s as [st credits].
    destruct (scanSingleWallet_spec now sw (Reference.Name kol) (Reference.Avatar kol)
                limit st credits) as (st1 & cr1 & n & -> & Hg1 & Hc1 & _).
    destruct (IH (st1, cr1) (total + n)) as (s' & total' & -> & Hg & Hc).
    exists s', total'. split; [reflexivity|]. cbn [fst snd length] in *. split; [|lia].
    eapply grows_trans.
    + eapply grows_weaken; [|exact Hg1]. intros row [Hlen Hrow].
      exists sw. split; [left|split; assumption].
    + eapply grows_weaken; [|exact Hg]. intros row (w & Hw & Hrest).
      exists w. split; [right; exact Hw|exact Hrest].
  - destruct (IH s total) as (s' & total' & -> & Hg & Hc).
    exists s', total'. split; [reflexivity|]. split; [exact Hg|exact Hc].
Qed.

(** X14: a quick scan of a KOL only appends rows, keeps signatures unique,
    and every row it adds is a vetted trade stored under the KOL's name for
    its main wallet or for one of its side wallets that have more than 10
    characters and differ from the main wallet; a wallet of fewer than 10
    characters is never scanned.  The scan costs at most 100 credits for
    the main wallet and 100 for each such side wallet, and nothing for a
    main wallet of fewer than 10 characters. *)
Theorem scanKolWallet_rows_and_credits (now : Z) (kol : Reference.Kol)
    (txLimit : nat) (st : Metadata.State) (credits : nat) :
  exists st' credits' total,
    scanKolWallet source recent HELIUS_ENABLED HELIUS_API_KEY now kol txLimit
      (st, credits) = ((st', credits'), total)
    /\ Db.kol_trades (fst st) `prefix_of` Db.kol_trades (fst st')
    /\ (Db.unique_signatures (fst st) -> Db.unique_signatures (fst st'))
    /\ (forall row, row ∈ Db.kol_trades (fst st') ->
          row ∈ Db.kol_trades (fst st) \/ kol_row kol row)
    /\ credits <= credits'
       <= credits + 100 * (1 + length (tracked_side_wallets kol))
    /\ (String.length (Reference.WalletAddress kol) < 10 ->
        credits' <= credits + 100 * length (tracked_side_wallets kol)).
Proof.
  unfold scanKolWallet.
  destruct (scanSingleWallet_spec now (Reference.WalletAddress kol)
              (Reference.Name kol) (Reference.Avatar kol) txLimit st credits)
    as (st1 & cr1 & n & -> & Hg1 & Hc1 & Hshort).
  assert (grows_by (kol_row kol) (fst st) (fst st1)) as Hmain.
  { eapply grows_weaken; [|exact Hg1]. intros row [Hlen Hrow].
    exists (Reference.WalletAddress kol). split; [left; reflexivity|split; assumption]. }
  unfold tracked_side_wallets.
  destruct (Reference.SideWallets kol) as [sws|] eqn:Hsws.
  - destruct (scan_side_wallets now kol (sideLimit txLimit) sws (st1, cr1) n)
      as ([st' cr'] & total & -> & Hg & Hc).
    cbn [fst snd default from_option id] in *.
    assert (grows_by (kol_row kol) (fst st) (fst st')) as (Hp & Hu & Hr).
    { eapply grows_trans; [exact Hmain|].
      eapply grows_weaken; [|exact Hg]. intros row (w & Hw & Hrest).
      exists w. split; [right; unfold tracked_side_wallets; rewrite Hsws; exact Hw|].
      exact Hrest. }
    exists st', cr', total. split; [reflexivity|]. split; [exact Hp|].
    split; [exact Hu|]. split; [exact Hr|]. split; [lia|].
    intros Hlen. specialize (Hshort Hlen). lia.
  - destruct Hmain as (Hp & Hu & Hr).
    exists st1, cr1, n. cbn [default from_option id List.filter length].
    split; [reflexivity|]. split; [exact Hp|].
    split; [exact Hu|]. split; [exact Hr|]. split; [lia|].
    intros Hlen. specialize (Hshort Hlen). lia.
Qed.

End Quick.

Section DeepScan.

Variable source : nat -> list string -> Metadata.Response.
Variable fetch : string -> option string -> nat -> Ingest.Response.
Variables (HELIUS_ENABLED : bool) (HELIUS_API_KEY : string).

Lemma paginate_credits (wallet : string) (sinceTimestamp : Z) (pages page : nat)
    (beforeSig : option string) (allTxs : list Tx) (credits : nat) :
  credits
  <= snd (Ingest.paginate fetch wallet sinceTimestamp pages page beforeSig allTxs
            credits)
  <= credits + 100 * pages.
Proof.
  revert page beforeSig allTxs credits.
  induction pages as [|pages IH]; intros page beforeSig allTxs credits;
    cbn [Ingest.paginate]; [cbn; lia|].
  destruct (fetch wallet (Ingest.cursor beforeSig) page) as [| | |[[|tx txs]|]];
    cbn [snd]; try lia.
  destruct (Ingest.until_cutoff sinceTimestamp (tx :: txs)) as [pushed reached].
  destruct (reached || _); cbn [snd]; [lia|].
  specialize (IH (S page) (last (tx :: txs) ≫= tx_signature) (allTxs ++ pushed)
                (credits + 100)).
  lia.
Qed.

Lemma fetchPaginatedTransactions_credits (wallet : string) (sinceTimestamp : Z)
    (maxPages credits : nat) :
  credits
  <= snd (Ingest.fetchPaginatedTransactions fetch HELIUS_ENABLED HELIUS_API_KEY
            wallet sinceTimestamp maxPages credits)
  <= credits + 100 * maxPages.
Proof.
  unfold Ingest.fetchPaginatedTransactions.
  destruct (negb HELIUS_ENABLED || _); [cbn; lia|apply paginate_credits].
Qed.

Lemma fetchPaginatedTransactions_recent (wallet : string) (sinceTimestamp : Z)
    (maxPages credits : nat) (tx : Tx) :
  tx ∈ fst (Ingest.fetchPaginatedTransactions fetch HELIUS_ENABLED HELIUS_API_KEY
              wallet sinceTimestamp maxPages credits) ->
  default 0%Z (tx_timestamp tx) = 0%Z
  \/ (sinceTimestamp <= default 0%Z (tx_timestamp tx))%Z.
Proof.
  intros Hin.
  assert (Ingest.older_than sinceTimestamp tx = false) as Hrecent.
  { revert tx Hin. apply Forall_forall. unfold Ingest.fetchPaginatedTransactions.
    destruct (negb HELIUS_ENABLED || _); [constructor|].
    apply paginate_recent. constructor. }
  apply recent_timestamp in Hrecent.
  destruct (tx_timestamp tx) as [ts|]; [exact Hrecent|left; reflexivity].
Qed.

Lemma scanSingleWalletDeep_spec (now : Z) (wallet name avatar : string)
    (sinceTimestamp : Z) (maxPages : nat) (st : Metadata.State) (credits : nat) :
  exists st' credits' out,
    Deep.scanSingleWalletDeep source fetch HELIUS_ENABLED HELIUS_API_KEY now wallet
      name avatar sinceTimestamp maxPages (st, credits) = ((st', credits'), out)
    /\ grows_by (fun row => (10 <= String.length wallet)%nat
                            /\ scanned_row wallet name row
                            /\ recent_row sinceTimestamp row)
         (fst st) (fst st')
    /\ credits <= credits' <= credits + 100 * maxPages.
Proof.
  unfold Deep.scanSingleWalletDeep.
  destruct (negb (JS.truthy_str wallet) || _) eqn:Hguard.
  { eexists _, _, _. split; [reflexivity|]. split; [apply grows_refl; reflexivity|lia]. }
  apply orb_false_iff in Hguard as [_ Hlen]. apply Nat.ltb_ge in Hlen.
  pose proof (fetchPaginatedTransactions_credits wallet sinceTimestamp maxPages credits)
    as Hcr.
  pose proof (fun tx => fetchPaginatedTransactions_recent wallet sinceTimestamp maxPages
                          credits tx) as Hrecent.
  destruct (Ingest.fetchPaginatedTransactions fetch HELIUS_ENABLED HELIUS_API_KEY wallet
              sinceTimestamp maxPages credits) as [[|tx txs] cr]; cbn [fst snd] in *.
  { eexists _, _, _. split; [reflexivity|]. split; [apply grows_refl; reflexivity|lia]. }
  pose proof (batchGetTokenMetadata_trades source HELIUS_ENABLED HELIUS_API_KEY now
                (mints_of (tx :: txs)) st) as [Htr _].
  destruct (Metadata.batchGetTokenMetadata source HELIUS_ENABLED HELIUS_API_KEY now
              (mints_of (tx :: txs)) st) as [st1 meta].
  cbn [fst] in Htr.
  pose proof (saveTrades_grows now wallet name avatar (Some meta) (tx :: txs)
                (fst st) (fst st1) Htr) as Hgrows.
  destruct (Ingest.saveTrades now wallet name avatar (Some meta) (tx :: txs) (fst st1))
    as [db n].
  eexists _, _, _. split; [reflexivity|]. split; [|lia].
  cbn [fst] in *. eapply grows_weaken; [|exact Hgrows].
  intros row (Hrow & tx' & Hin & _ & Hts). split; [exact Hlen|]. split; [exact Hrow|].
  unfold recent_row. rewrite Hts. apply Hrecent. exact Hin.
Qed.

Lemma backfill_side_wallets (now sinceTimestamp : Z) (kol : Reference.Kol)
    (sws : list string) (s : ScanState) (acc : nat * nat) :
  exists s' acc',
    fold_left
      (fun '(s, (kolSaved, kolPages)) sw =>
         if Reference.tracked_side_wallet kol sw then
           let '(s, sideResult) :=
             Deep.scanSingleWalletDeep source fetch HELIUS_ENABLED HELIUS_API_KEY now
               sw (Reference.Name kol) (Reference.Avatar kol) sinceTimestamp 15 s in
           (s, (kolSaved + Deep.saved sideResult, kolPages + Deep.pages sideResult))
         else (s, (kolSaved, kolPages)))
      sws (s, acc) = (s', acc')
    /\ grows_by
         (fun row =>
            (exists w, w ∈ List.filter (Reference.tracked_side_wallet kol) sws
                       /\ (10 <= String.length w)%nat
                       /\ scanned_row w (Reference.Name kol) row)
            /\ recent_row sinceTimestamp row)
         (fst (fst s)) (fst (fst s'))
    /\ snd s <= snd s'
       <= snd s + 100 * (15 * length (List.filter (Reference.tracked_side_wallet kol) sws)).
Proof.
  revert s acc. induction sws as [|sw sws IH]; intros s [kolSaved kolPages];
    cbn [fold_left].
  { eexists _, _. split; [reflexivity|].
    split; [apply grows_refl; reflexivity|cbn; lia]. }
  cbn [List.filter]. destruct (Reference.tracked_side_wallet kol sw) eqn:Htracked.
  - destruct s as [st credits].
    destruct (scanSingleWalletDeep_spec now sw (Reference.Name kol)
                (Reference.Avatar kol) sinceTimestamp 15 st credits)
      as (st1 & cr1 & out & -> & Hg1 & Hc1).
    destruct (IH (st1, cr1) (kolSaved + Deep.saved out, kolPages + Deep.pages out))
      as (s' & acc' & -> & Hg & Hc).
    exists s', acc'. split; [reflexivity|]. cbn [fst snd length] in *. split; [|lia].
    eapply grows_trans.
    + eapply grows_weaken; [|exact Hg1]. intros row (Hlen & Hrow & Hts).
      split; [|exact Hts]. exists sw. split; [left|split; assumption].
    + eapply grows_weaken; [|exact Hg]. intros row ((w & Hw & Hrest) & Hts).
      split; [|exact Hts]. exists w. split; [right; exact Hw|exact Hrest].
  - destruct (IH s (kolSaved, kolPages)) as (s' & acc' & -> & Hg & Hc).
    exists s', acc'. split; [reflexivity|]. split; [exact Hg|exact Hc].
Qed.

Lemma backfillKol_grows (now sinceTimestamp : Z) (kol : Reference.Kol)
    (st : Metadata.State) (credits : nat) :
  exists st' credits' kolSaved kolPages,
    Deep.backfillKol source fetch HELIUS_ENABLED HELIUS_API_KEY now sinceTimestamp kol
      (st, credits) = ((st', credits'), (kolSaved, kolPages))
    /\ grows_by (fun row => kol_row kol row /\ recent_row sinceTimestamp row)
         (fst st) (fst st')
    /\ credits <= credits'
       <= credits + 5000 + 1500 * length (tracked_side_wallets kol).
Proof.
  unfold Deep.backfillKol.
  destruct (scanSingleWalletDeep_spec now (Reference.WalletAddress kol)
              (Reference.Name kol) (Reference.Avatar kol) sinceTimestamp 50 st credits)
    as (st1 & cr1 & out & -> & Hg1 & Hc1).
  assert (grows_by (fun row => kol_row kol row /\ recent_row sinceTimestamp row)
            (fst st) (fst st1)) as Hmain.
  { eapply grows_weaken; [|exact Hg1]. intros row (Hlen & Hrow & Hts).
    split; [|exact Hts].
    exists (Reference.WalletAddress kol). split; [left; reflexivity|split; assumption]. }
  unfold tracked_side_wallets.
  destruct (Reference.SideWallets kol) as [sws|] eqn:Hsws.
  - destruct (backfill_side_wallets now sinceTimestamp kol sws (st1, cr1)
                (Deep.saved out, Deep.pages out))
      as ([st' cr'] & [kolSaved kolPages] & -> & Hg & Hc).
    cbn [fst snd default from_option id] in *.
    exists st', cr', kolSaved, kolPages. split; [reflexivity|]. split; [|lia].
    eapply grows_trans; [exact Hmain|].
    eapply grows_weaken; [|exact Hg]. intros row ((w & Hw & Hrest) & Hts).
    split; [|exact Hts].
    exists w. split; [right; unfold tracked_side_wallets; rewrite Hsws; exact Hw|].
    exact Hrest.
  - exists st1, cr1, (Deep.saved out), (Deep.pages out).
    cbn [default from_option id List.filter length].
    split; [reflexivity|]. split; [exact Hmain|lia].
Qed.

(** X15: the deep backfill of one KOL only appends rows and keeps
    signatures unique; every row it adds is a vetted trade of the KOL's main
    wallet or of one of its tracked side wallets, under the KOL's name, and
    its timestamp is 0 or not before the cut-off.  It costs at most 5000
    credits for the main wallet and 1500 for each tracked side wallet. *)
Theorem backfillKol_rows_and_credits (now sinceTimestamp : Z) (kol : Reference.Kol)
    (st : Metadata.State) (credits : nat) :
  exists st' credits' kolSaved kolPages,
    Deep.backfillKol source fetch HELIUS_ENABLED HELIUS_API_KEY now sinceTimestamp kol
      (st, credits) = ((st', credits'), (kolSaved, kolPages))
    /\ Db.kol_trades (fst st) `prefix_of` Db.kol_trades (fst st')
    /\ (Db.unique_signatures (fst st) -> Db.unique_signatures (fst st'))
    /\ (forall row, row ∈ Db.kol_trades (fst st') ->
          row ∈ Db.kol_trades (fst st)
          \/ (kol_row kol row /\ recent_row sinceTimestamp row))
    /\ credits <= credits'
       <= credits + 5000 + 1500 * length (tracked_side_wallets kol).
Proof.
  destruct (backfillKol_grows now sinceTimestamp kol st credits)
    as (st' & credits' & kolSaved & kolPages & Heq & (Hp & Hu & Hr) & Hc).
  exists st', credits', kolSaved, kolPages.
  split; [exact Heq|]. split; [exact Hp|]. split; [exact Hu|].
  split; [exact Hr|exact Hc].
Qed.

Lemma backfill_days_range (requested : option Z) :
  (1 <= Deep.backfill_days requested <= 30)%Z.
Proof. unfold Deep.backfill_days. lia. Qed.

(** X16: the window of a deep backfill started through the routes.  The
    number of days in effect is the requested one cut to the range 1 to 30,
    and 7 when the parameter is missing, unreadable or 0; whatever is
    requested, the backfill of a KOL stores no trade whose timestamp lies
    more than 30 days before the start, a timestamp of 0 apart. *)
Theorem deep_backfill_window (now today : Z) (requested : option Z)
    (kol : Reference.Kol) (st : Metadata.State) (credits : nat) :
  (1 <= Deep.backfill_days requested <= 30)%Z
  /\ (requested = None \/ requested = Some 0%Z -> Deep.backfill_days requested = 7%Z)
  /\ (forall n, requested = Some n -> n <> 0%Z ->
        Deep.backfill_days requested = Z.min (Z.max n 1) 30)
  /\ (forall row,
        row ∈ Db.kol_trades
                (fst (fst (fst (Deep.backfillKol source fetch HELIUS_ENABLED
                                  HELIUS_API_KEY now
                                  (Deep.cutoff today (Deep.backfill_days requested))
                                  kol (st, credits))))) ->
        row ∈ Db.kol_trades (fst st)
        \/ Db.tx_timestamp row = 0%Z
        \/ (today - 30 * 86400 <= Db.tx_timestamp row)%Z).
Proof.
  split; [apply backfill_days_range|]. split.
  { intros [->| ->]; reflexivity. }
  split.
  { intros n -> Hn. unfold Deep.backfill_days.
    destruct (Z.eqb_spec n 0); [contradiction|reflexivity]. }
  intros row.
  destruct (backfillKol_grows now (Deep.cutoff today (Deep.backfill_days requested))
              kol st credits)
    as (st' & credits' & kolSaved & kolPages & -> & (_ & _ & Hr) & _).
  cbn [fst]. intros Hin. apply Hr in Hin as [Hin|[_ [Hzero|Hrecent]]]; auto.
  right. right. pose proof (backfill_days_range requested) as Hdays.
  unfold Deep.cutoff in Hrecent. lia.
Qed.

End DeepScan.

End ScanPaths.

(* ================================================================== *)
(** * What the feed can return                                         *)
(* ================================================================== *)

Section FeedRows.

Import Db Feed.

Lemma diversity_extends (limit : Z) (l : list RecentTrade)
    (kolCounts : gmap string nat) (kept : list RecentTrade) :
  exists extra,
    diversity limit kolCounts kept l = kept ++ extra /\ extra `sublist_of` l.
Proof.
  revert kolCounts kept. induction l as [|t rest IH]; intros kolCounts kept;
    cbn [diversity].
  { exists []. rewrite app_nil_r. split; reflexivity. }
  match goal with
  | |- context [diversity limit ?counts _ rest] => generalize counts
  end.
  intros kolCounts'.
  destruct (negb (JS.inherited (kol_key t)) && _).
  - destruct (limit <=? _)%Z.
    + exists [t]. split; [reflexivity|]. apply sublist_skip, sublist_nil_l.
    + destruct (IH kolCounts' (kept ++ [t])) as (extra & -> & Hsub).
      exists (t :: extra). rewrite <- app_assoc. split; [reflexivity|].
      apply sublist_skip. exact Hsub.
  - destruct (limit <=? _)%Z.
    + exists []. rewrite app_nil_r. split; [reflexivity|]. apply sublist_nil_l.
    + destruct (IH kolCounts' kept) as (extra & -> & Hsub).
      exists extra. split; [reflexivity|]. apply sublist_cons. exact Hsub.
Qed.

Lemma feedTrades_sublist (requested : option Z) (db : Database) :
  feedTrades requested db `sublist_of` candidates (page_limit requested) db.
Proof.
  unfold feedTrades.
  destruct (diversity_extends (page_limit requested)
              (candidates (page_limit requested) db) ∅ []) as (extra & -> & Hsub).
  exact Hsub.
Qed.

Lemma diversity_small_limit (limit : Z) (l : list RecentTrade) :
  (limit < 1)%Z -> length (diversity limit ∅ [] l) <= 1.
Proof.
  intros Hlimit. destruct l as [|t rest]; cbn [diversity]; [cbn; lia|].
  rewrite lookup_empty. cbn [default from_option Nat.leb app length].
  destruct (JS.inherited (kol_key t)); cbn [negb andb app length].
  - destruct (Z.leb_spec limit (Z.of_nat 0)) as [_|Hgt]; [cbn; lia|lia].
  - destruct (Z.leb_spec limit (Z.of_nat 1)) as [_|Hgt]; [cbn; lia|lia].
Qed.

Lemma elem_of_insert_desc (r x : TradeRow) (rows : list TradeRow) :
  x ∈ insert_desc r rows -> x = r \/ x ∈ rows.
Proof.
  induction rows as [|y rows IH]; cbn.
  - intros H. apply list_elem_of_singleton in H. auto.
  - destruct (_ <=? _)%Z.
    + intros H. apply elem_of_cons in H as [->|H]; auto.
    + intros H. apply elem_of_cons in H as [->|H]; [right; left|].
      apply IH in H as [->|H]; [auto|right; right; exact H].
Qed.

Lemma elem_of_order_by (x : TradeRow) (rows : list TradeRow) :
  x ∈ order_by_timestamp_desc rows -> x ∈ rows.
Proof.
  unfold order_by_timestamp_desc. induction rows as [|r rows IH]; cbn; [auto|].
  intros H. apply elem_of_insert_desc in H as [->|H]; [left|right; auto].
Qed.

Lemma sql_in_false (x : string) (l : list string) : sql_in x l = false -> x ∉ l.
Proof.
  unfold sql_in. intros Hnot Hin.
  assert (existsb (String.eqb x) l = true) as Hyes.
  { apply existsb_exists. exists x.
    split; [apply list_elem_of_In; exact Hin|apply String.eqb_refl]. }
  congruence.
Qed.

(** X17: for every request, also one with a negative or unreadable limit,
    the feed returns some of its candidates in their order, so newest first;
    every trade it returns is a stored row whose action is Buy or Sell,
    whose symbol and mint are not deny-listed (the symbol neither as stored
    nor in upper case), joined with the image and price the token cache
    holds for its mint; and a limit below 1 yields at most one trade. *)
Theorem feedTrades_only_stored_memecoins (requested : option Z) (db : Database) :
  feedTrades requested db `sublist_of` candidates (page_limit requested) db
  /\ newest_first (feedTrades requested db)
  /\ ((page_limit requested < 1)%Z -> length (feedTrades requested db) <= 1)
  /\ (forall t, t ∈ feedTrades requested db ->
        trade t ∈ kol_trades db
        /\ (action (trade t) = "Buy" \/ action (trade t) = "Sell")
        /\ (token_symbol (trade t) ∉ Classifier.SKIP_TOKENS)
        /\ (JS.toUpperCase (token_symbol (trade t)) ∉ Classifier.SKIP_TOKENS)
        /\ (token_mint (trade t) ∉ Classifier.SKIP_MINTS)
        /\ (token_symbol (trade t) ∉ raw_excluded_symbols)
        /\ token_image t = tc_image <$> token_cache db !! token_mint (trade t)
        /\ token_price t = tc_price_usd <$> token_cache db !! token_mint (trade t)).
Proof.
  pose proof (feedTrades_sublist requested db) as Hsub.
  split; [exact Hsub|]. split.
  { eapply StronglySorted_sublist_of; [exact Hsub|apply candidates_newest_first]. }
  split; [apply diversity_small_limit|].
  intros t Hin.
  assert (t ∈ candidates (page_limit requested) db) as Hcand
    by (eapply elem_of_sublist; eassumption).
  unfold candidates in Hcand. apply list_elem_of_filter in Hcand as [Hmeme Hraw].
  unfold getRecentTradesRaw in Hraw.
  apply list_elem_of_fmap in Hraw as (r & -> & Hr).
  assert (r ∈ filter (fun r => raw_where r = true) (kol_trades db)) as Hstored.
  { apply elem_of_order_by. eapply elem_of_sublist; [exact Hr|apply sql_limit_sublist]. }
  apply list_elem_of_filter in Hstored as [Hwhere Hstored].
  unfold raw_where in Hwhere.
  apply andb_true_iff in Hwhere as [Hwhere _].
  apply andb_true_iff in Hwhere as [Haction Hsym].
  unfold memecoin in Hmeme. cbn [trade join_token_cache] in *.
  apply andb_true_iff in Hmeme as [Hskip Hmint].
  apply negb_true_iff, orb_false_iff in Hskip as [Hupper Hplain].
  apply negb_true_iff in Hmint.
  split; [exact Hstored|]. split.
  { unfold sql_in in Haction. cbn [existsb] in Haction.
    destruct (String.eqb_spec (action r) "Buy"); [left; assumption|].
    destruct (String.eqb_spec (action r) "Sell"); [right; assumption|].
    discriminate Haction. }
  split; [exact (bool_decide_eq_false_1 _ Hplain)|].
  split; [exact (bool_decide_eq_false_1 _ Hupper)|].
  split.
  { intros Hin'. rewrite (in_skip_mints_truthy _ Hin') in Hmint.
    rewrite (bool_decide_eq_true_2 _ Hin') in Hmint. discriminate Hmint. }
  split; [apply sql_in_false, negb_true_iff; exact Hsym|].
  split; reflexivity.
Qed.

(** A request for a negative number of trades still gets one. *)
Example feedTrades_negative_limit :
  (fun t => id (trade t)) <$> feedTrades (Some (-5)%Z) Samples.six_trades_db = [6].
Proof. vm_compute. reflexivity. Qed.

End FeedRows.

(* ================================================================== *)
(** * A failed scan                                                    *)
(* ================================================================== *)

Section FailedScan.

Import Scanner Invariants.

Variable HELIUS_ENABLED : bool.

Lemma stuck_step (e : Event) (st' : State) :
  step HELIUS_ENABLED stuck e st' -> st' = stuck.
Proof.
  intros Hstep. inversion Hstep as [t st Hst He Hst'|st n Hn|st n Hn]; subst.
  - apply trigger_while_scanning. reflexivity.
  - discriminate Hn.
  - discriminate Hn.
Qed.

Lemma stuck_run (events : list Event) (st st' : State) :
  Runs.run HELIUS_ENABLED st events st' -> st = stuck -> st' = stuck.
Proof.
  induction 1 as [st|st e st1 es st2 Hstep _ IH]; intros Hst; [exact Hst|].
  subst st. apply IH. exact (stuck_step _ _ Hstep).
Qed.

(** X18: neither scan function resets the flag when its body ends by an
    exception.  From any state the server can be in, once a running scan has
    failed the phase stays [scanning] with nothing running, whatever happens
    next: every later trigger, through any route or the start-up timer,
    leaves the state as it is, and no route answers 200 again. *)
Theorem scan_failure_is_permanent (st failed : State) (events : list Event)
    (st' : State) :
  reachable HELIUS_ENABLED st ->
  step HELIUS_ENABLED st ScanFailed failed ->
  Runs.run HELIUS_ENABLED failed events st' ->
  st' = stuck
  /\ forall t, fst (trigger HELIUS_ENABLED t st') = st'
               /\ snd (trigger HELIUS_ENABLED t st') <> Some 200.
Proof.
  intros Hreach Hfail Hrun.
  assert (failed = stuck) as Hfailed.
  { destruct (reachable_exclusive HELIUS_ENABLED st Hreach) as [Hle Hflag].
    inversion Hfail as [| |st0 n Hn]; subst.
    assert (n = 0) as -> by lia. unfold stuck. f_equal. apply Hflag. lia. }
  assert (st' = stuck) as -> by (eapply stuck_run; eassumption).
  split; [reflexivity|]. intros t. apply trigger_while_scanning. reflexivity.
Qed.

End FailedScan.

Lemma scan_failure_is_permanent_witness :
  Invariants.stuck = Invariants.stuck
  /\ forall t, fst (Scanner.trigger true t Invariants.stuck) = Invariants.stuck
               /\ snd (Scanner.trigger true t Invariants.stuck) <> Some 200.
Proof.
  apply (scan_failure_is_permanent true Samples.deep_backfill_running Invariants.stuck
           [Scanner.Triggered Scanner.PostBackfill;
            Scanner.Triggered Scanner.StartupBackfill]
           Invariants.stuck).
  - apply (Scanner.reach_step true Scanner.initial
             (Scanner.Triggered Scanner.PostDeepBackfill)).
    + apply Scanner.reach_initial.
    + apply Scanner.step_trigger.
  - apply (Scanner.step_failed true Samples.deep_backfill_running 0). reflexivity.
  - apply (Runs.run_cons true Invariants.stuck _ Invariants.stuck).
    + apply (Scanner.step_trigger true Scanner.PostBackfill Invariants.stuck).
    + apply (Runs.run_cons true Invariants.stuck _ Invariants.stuck).
      * apply (Scanner.step_trigger true Scanner.StartupBackfill Invariants.stuck).
      * apply Runs.run_nil.
Defined.

(* ================================================================== *)
(** * Submitted wallets                                                *)
(* ================================================================== *)

Section SubmittedWallets.

Import Wallets Invariants.

Lemma getWalletByAddress_none (t : Table) (a : string) :
  getWalletByAddress t a = None <-> a ∉ address <$> rows t.
Proof.
  unfold getWalletByAddress. split.
  - intros Hnone Hin. apply list_elem_of_fmap in Hin as (r & -> & Hr).
    apply list_elem_of_In in Hr.
    pose proof (List.find_none _ _ Hnone r Hr) as H. cbn in H.
    rewrite String.eqb_refl in H. discriminate H.
  - intros Hout. destruct (List.find _ (rows t)) as [r|] eqn:Hfind; [|reflexivity].
    apply List.find_some in Hfind as [Hr Heq]. apply String.eqb_eq in Heq.
    exfalso. apply Hout. apply list_elem_of_fmap. exists r.
    split; [symmetry; exact Heq|apply list_elem_of_In; exact Hr].
Qed.

Lemma getWalletByAddress_last (t : Table) (r : Row) :
  getWalletByAddress t (address r) = None ->
  getWalletByAddress {| rows := rows t ++ [r]; seq := id r |} (address r) = Some r.
Proof.
  unfold getWalletByAddress. cbn [rows]. intros Hnone.
  induction (rows t) as [|x l IH]; cbn [List.find app] in *.
  - rewrite String.eqb_refl. reflexivity.
  - destruct (String.eqb (address x) (address r)); [discriminate Hnone|].
    apply IH. exact Hnone.
Qed.

Variable bind : Value -> option string.

(** X19: [POST /api/wallets] with a JSON object as body whose [address],
    [label] and [notes] are missing or primitive values.  It answers 201
    exactly when the address is truthy, is not a string of fewer than 32
    characters, is accepted by the driver and is not stored yet, and the
    driver accepts the label and the notes; only then does it change the
    table.  The address is then stored with the label and notes given
    (empty for a missing or falsy one) under the next id, and every later
    submission of the same address answers 409 and changes nothing.  A
    stored string address has at least 32 characters, but the length test
    does not apply to a number or to [true]: a non-zero number that the
    driver binds is stored whatever its size.  No address is stored
    twice. *)
Theorem postWallet_once (now : Z) (a l n : Value) (t : Table) :
  (snd (postWallet bind now a l n t) = 201
   <-> truthy a = true /\ length_below_32 a = false
       /\ exists addr lbl nts,
            bound bind a = Some addr /\ getWalletByAddress t addr = None
            /\ bound bind (or_empty l) = Some lbl
            /\ bound bind (or_empty n) = Some nts)
  /\ (snd (postWallet bind now a l n t) <> 201 ->
      fst (postWallet bind now a l n t) = t)
  /\ (forall addr lbl nts,
        snd (postWallet bind now a l n t) = 201 ->
        bound bind a = Some addr -> bound bind (or_empty l) = Some lbl ->
        bound bind (or_empty n) = Some nts ->
        getWalletByAddress (fst (postWallet bind now a l n t)) addr
        = Some {| id := S (seq t); address := addr; label := lbl; notes := nts;
                  submitted_at := now |}
        /\ forall now' l' n',
             postWallet bind now' a l' n' (fst (postWallet bind now a l n t))
             = (fst (postWallet bind now a l n t), 409))
  /\ (forall s, a = Text s -> snd (postWallet bind now a l n t) = 201 ->
        (32 <= String.length s)%nat)
  /\ (forall x, a = Number x ->
        (snd (postWallet bind now a l n t) = 201
         <-> JS.truthy x = true
             /\ exists addr lbl nts,
                  bind (Number x) = Some addr /\ getWalletByAddress t addr = None
                  /\ bound bind (or_empty l) = Some lbl
                  /\ bound bind (or_empty n) = Some nts))
  /\ (unique_addresses t -> unique_addresses (fst (postWallet bind now a l n t))).
Proof.
  assert (snd (postWallet bind now a l n t) = 201
          <-> truthy a = true /\ length_below_32 a = false
              /\ exists addr lbl nts,
                   bound bind a = Some addr /\ getWalletByAddress t addr = None
                   /\ bound bind (or_empty l) = Some lbl
                   /\ bound bind (or_empty n) = Some nts) as Hiff.
  { unfold postWallet.
    destruct (truthy a) eqn:Htruthy; cbn [negb orb].
    2:{ cbn [snd]. split; [discriminate|intros [H _]; discriminate H]. }
    destruct (length_below_32 a) eqn:Hshort.
    { cbn [snd]. split; [discriminate|intros (_ & H & _); discriminate H]. }
    destruct (bound bind a) as [addr|] eqn:Haddr.
    2:{ cbn [snd]. split; [discriminate|].
        intros (_ & _ & addr & lbl & nts & H & _). discriminate H. }
    destruct (getWalletByAddress t addr) as [existing|] eqn:Hfind.
    { cbn [snd]. split; [discriminate|].
      intros (_ & _ & addr' & lbl & nts & [= <-] & H & _). congruence. }
    destruct (bound bind (or_empty l)) as [lbl|] eqn:Hl.
    2:{ cbn [snd]. split; [discriminate|].
        intros (_ & _ & addr' & lbl & nts & _ & _ & H & _). discriminate H. }
    destruct (bound bind (or_empty n)) as [nts|] eqn:Hn.
    2:{ cbn [snd]. split; [discriminate|].
        intros (_ & _ & addr' & lbl' & nts & _ & _ & _ & H). discriminate H. }
    cbn [snd]. split; [|reflexivity]. intros _.
    split; [reflexivity|]. split; [reflexivity|]. exists addr, lbl, nts. auto. }
  split; [exact Hiff|].
  split.
  { unfold postWallet. destruct (negb (truthy a) || _); [reflexivity|].
    destruct (bound bind a) as [addr|]; [|reflexivity].
    destruct (getWalletByAddress t addr); [reflexivity|].
    destruct (bound bind (or_empty l)); [|reflexivity].
    destruct (bound bind (or_empty n)); [|reflexivity].
    cbn [snd]. intros H. contradiction. }
  split.
  { intros addr lbl nts H201 Haddr Hl Hn.
    apply Hiff in H201 as (Htruthy & Hshort & addr' & lbl' & nts' & Ha' & Hfind & _).
    assert (addr' = addr) as -> by congruence.
    unfold postWallet. rewrite Htruthy, Hshort. cbn [negb orb].
    rewrite Haddr, Hfind, Hl, Hn. cbn [fst].
    assert (insertWallet now addr lbl nts t
            = {| rows := rows t ++ [{| id := S (seq t); address := addr;
                                       label := lbl; notes := nts;
                                       submitted_at := now |}];
                 seq := S (seq t) |}) as ->
      by (unfold insertWallet; rewrite Hfind; reflexivity).
    pose proof (getWalletByAddress_last t
                  {| id := S (seq t); address := addr; label := lbl; notes := nts;
                     submitted_at := now |} Hfind) as Hstored.
    cbn [address id] in Hstored.
    split; [exact Hstored|]. intros now' l' n'. rewrite Hstored. reflexivity. }
  split.
  { intros s -> H201. apply Hiff in H201 as (_ & Hshort & _).
    cbn [length_below_32] in Hshort. apply Nat.ltb_ge in Hshort. exact Hshort. }
  split.
  { intros x ->. rewrite Hiff. cbn [truthy length_below_32 bound]. tauto. }
  intros Huniq. unfold postWallet. destruct (negb (truthy a) || _); [exact Huniq|].
  destruct (bound bind a) as [addr|]; [|exact Huniq].
  destruct (getWalletByAddress t addr) eqn:Hfind; [exact Huniq|].
  destruct (bound bind (or_empty l)) as [lbl|]; [|exact Huniq].
  destruct (bound bind (or_empty n)) as [nts|]; [|exact Huniq].
  cbn [fst]. unfold insertWallet. rewrite Hfind.
  unfold unique_addresses. cbn [rows]. rewrite fmap_app.
  apply NoDup_app. split; [exact Huniq|]. split.
  - intros y Hy Hy'. apply list_elem_of_singleton in Hy'. cbn in Hy'. subst y.
    apply getWalletByAddress_none in Hfind. contradiction.
  - apply NoDup_singleton.
Qed.

(** The body [{address: 12345}] is answered with 201 and stored as a
    five-character address. *)
Example postWallet_number :
  postWallet MoreSamples.number_12345 7 (Number 12345) Missing Missing empty
  = ({| rows := [{| id := 1; address := "12345"; label := ""; notes := "";
                    submitted_at := 7 |}];
        seq := 1 |}, 201).
Proof. vm_compute. reflexivity. Qed.

End SubmittedWallets.

(* ================================================================== *)
(** * Bounds of the paginated fetch                                    *)
(* ================================================================== *)

Section PaginationBounds.

Import Classifier Ingest.

Variable fetch : string -> option string -> nat -> Response.
Variables (HELIUS_ENABLED : bool) (HELIUS_API_KEY : string).
Variables (walletAddress : string) (sinceTimestamp : Z).

Lemma until_cutoff_prefix (txs : list Tx) :
  fst (until_cutoff sinceTimestamp txs) `prefix_of` txs.
Proof.
  induction txs as [|tx rest IH]; cbn [until_cutoff]; [reflexivity|].
  destruct (older_than sinceTimestamp tx); [apply prefix_nil|].
  destruct (until_cutoff sinceTimestamp rest) as [pushed reached].
  cbn [fst] in *. apply prefix_cons. exact IH.
Qed.

Lemma paginate_served (pages page : nat) (beforeSig : option string)
    (allTxs : list Tx) (credits : nat) (tx : Tx) :
  tx ∈ fst (paginate fetch walletAddress sinceTimestamp pages page beforeSig allTxs
              credits) ->
  tx ∈ allTxs
  \/ exists before p txs,
       page <= p < page + pages
       /\ fetch walletAddress before p = Json (Some txs) /\ tx ∈ txs.
Proof.
  revert page beforeSig allTxs credits.
  induction pages as [|pages IH]; intros page beforeSig allTxs credits;
    cbn [paginate]; [auto|].
  destruct (fetch walletAddress (cursor beforeSig) page) as [| | |[[|tx0 txs]|]]
    eqn:Hfetch; cbn [fst]; auto.
  pose proof (until_cutoff_prefix (tx0 :: txs)) as Hprefix.
  destruct (until_cutoff sinceTimestamp (tx0 :: txs)) as [pushed reached].
  cbn [fst] in Hprefix.
  assert (tx ∈ allTxs ++ pushed ->
          tx ∈ allTxs
          \/ exists before p txs',
               page <= p < page + S pages
               /\ fetch walletAddress before p = Json (Some txs') /\ tx ∈ txs')
    as Hhere.
  { intros Hin. apply elem_of_app in Hin as [Hin|Hin]; [left; exact Hin|].
    right. exists (cursor beforeSig), page, (tx0 :: txs).
    split; [lia|]. split; [exact Hfetch|].
    destruct Hprefix as [rest ->]. apply elem_of_app. left. exact Hin. }
  destruct (reached || _); cbn [fst]; [exact Hhere|].
  intros Hin. apply IH in Hin as [Hin|(before & p & txs' & Hp & Hf & Htx)].
  - apply Hhere. exact Hin.
  - right. exists before, p, txs'. split; [lia|]. split; assumption.
Qed.

(** X20: [fetchPaginatedTransactions] makes at most [maxPages] requests:
    the credit estimate grows by at most 100 for each and never shrinks;
    every transaction returned was served by the source for this wallet in
    one of these requests; with Helius switched off or no API key nothing is
    requested and nothing returned. *)
Theorem fetchPaginatedTransactions_bounds (maxPages credits : nat) :
  credits
  <= snd (fetchPaginatedTransactions fetch HELIUS_ENABLED HELIUS_API_KEY
            walletAddress sinceTimestamp maxPages credits)
  <= credits + 100 * maxPages
  /\ (forall tx,
        tx ∈ fst (fetchPaginatedTransactions fetch HELIUS_ENABLED HELIUS_API_KEY
                    walletAddress sinceTimestamp maxPages credits) ->
        exists before p txs,
          p < maxPages /\ fetch walletAddress before p = Json (Some txs) /\ tx ∈ txs)
  /\ (HELIUS_ENABLED = false \/ HELIUS_API_KEY = "" ->
      fetchPaginatedTransactions fetch HELIUS_ENABLED HELIUS_API_KEY walletAddress
        sinceTimestamp maxPages credits = ([], credits)).
Proof.
  split; [apply fetchPaginatedTransactions_credits|]. split.
  - unfold fetchPaginatedTransactions.
    destruct (negb HELIUS_ENABLED || _); cbn [fst]; [intros tx H; inversion H|].
    intros tx Hin. apply paginate_served in Hin as [Hin|(before & p & txs & Hp & H)];
      [inversion Hin|].
    exists before, p, txs. split; [lia|exact H].
  - unfold fetchPaginatedTransactions. intros [-> | ->]; [reflexivity|].
    cbn. rewrite orb_true_r. reflexivity.
Qed.

End PaginationBounds.
